(** * Ingestion service: chunking, parsing, embedding, sync and answer pipeline

    A shallow embedding of the Python sources
      processors/text_cleaner.py, processors/chunker.py,
      processors/document_parser.py, services/embedding_service.py,
      utils/retry.py, orchestrator/sync_orchestrator.py and
      services/chat_service.py,
    followed by the properties established about them.

    Conventions.
    - A Python [str] is a [string]; its characters are the code points below
      256, so [ascii] stands for one character.
    - A Python [int] is a [Z]; a [len(...)] is [Z.of_nat (length ...)].
    - A Python [dict] with string keys is a [gmap string _], a [set] of
      strings a [gset string].
    - A [while] loop that may run forever is a step function iterated with
      fuel; [None] means that the fuel ran out before the loop finished.
    - Calls to the logger do not influence any result and are left out. *)

From Stdlib Require Import ZArith Ascii String DecimalString DecimalNat Lia.
From stdpp Require Import gmap strings list.

Local Open Scope Z_scope.

(** ** Python string and list primitives *)

(** [str.isspace] on one character, which is also what [\s] matches in a
    [re] pattern over [str] and what [str.split()] and [str.strip()] treat
    as white space: TAB, LF, VT, FF, CR, the separators FS, GS, RS, US, the
    space, NEL (0x85) and the no-break space (0xA0). *)
Definition is_space (c : ascii) : bool :=
  let n := nat_of_ascii c in
  ((9 <=? n)%nat && (n <=? 13)%nat)
  || ((28 <=? n)%nat && (n <=? 31)%nat)
  || (n =? 32)%nat || (n =? 133)%nat || (n =? 160)%nat.

(** Truth value of a [str]: [if text] holds for a non-empty string. *)
Definition str_truthy (s : string) : bool :=
  match s with EmptyString => false | String _ _ => true end.

(** Truth value of a [list]: non-empty. *)
Definition list_truthy {A} (l : list A) : bool :=
  match l with [] => false | _ :: _ => true end.

Definition py_len {A} (l : list A) : Z := Z.of_nat (length l).

(** [str.split()] without arguments: the maximal runs of non-space
    characters, in order; [cur] is the word being read. *)
Fixpoint py_split_go (cur : string) (s : string) : list string :=
  match s with
  | EmptyString => if str_truthy cur then [cur] else []
  | String c s' =>
      if is_space c
      then (if str_truthy cur then cur :: py_split_go "" s' else py_split_go "" s')
      else py_split_go (cur +:+ String c "") s'
  end.

Definition py_split (s : string) : list string := py_split_go "" s.

(** [sep.join(parts)]. *)
Fixpoint py_join (sep : string) (parts : list string) : string :=
  match parts with
  | [] => ""
  | [p] => p
  | p :: rest => p +:+ sep +:+ py_join sep rest
  end.

(** Bound of a slice: a negative index counts from the end, and the result
    is clamped to [0, len]. *)
Definition slice_bound (len i : Z) : Z :=
  if i <? 0 then Z.max 0 (i + len) else Z.min i len.

(** [l[start:stop]] *)
Definition py_slice {A} (l : list A) (start stop : Z) : list A :=
  let s := slice_bound (py_len l) start in
  let e := slice_bound (py_len l) stop in
  take (Z.to_nat (e - s)) (drop (Z.to_nat s) l).

(** [l[start:]] *)
Definition py_slice_from {A} (l : list A) (start : Z) : list A :=
  drop (Z.to_nat (slice_bound (py_len l) start)) l.

(** [str.lstrip()], [str.rstrip()] and [str.strip()]. *)
Fixpoint py_lstrip (s : string) : string :=
  match s with
  | EmptyString => ""
  | String c s' => if is_space c then py_lstrip s' else s
  end.

Fixpoint py_rstrip (s : string) : string :=
  match s with
  | EmptyString => ""
  | String c s' =>
      match py_rstrip s' with
      | EmptyString => if is_space c then "" else String c ""
      | r => String c r
      end
  end.

Definition py_strip (s : string) : string := py_rstrip (py_lstrip s).

(** [str(n)] for a non-negative [int], as used in f-strings. *)
Definition str_of_nat (n : nat) : string :=
  NilZero.string_of_uint (Nat.to_uint n).

(** ** processors/text_cleaner.py *)

(** [re.sub(r'\s+', ' ', text)]: every maximal run of white space becomes one
    space. [in_run] tells that the previous character was white space, whose
    run has already been replaced. *)
Fixpoint collapse_whitespace_go (in_run : bool) (s : string) : string :=
  match s with
  | EmptyString => ""
  | String c s' =>
      if is_space c
      then (if in_run then collapse_whitespace_go true s'
            else String " " (collapse_whitespace_go true s'))
      else String c (collapse_whitespace_go false s')
  end.

Definition collapse_whitespace (s : string) : string :=
  collapse_whitespace_go false s.

(** The character class [[\x00-\x08\x0B-\x0C\x0E-\x1F\x7F]]. *)
Definition is_control (c : ascii) : bool :=
  let n := nat_of_ascii c in
  (n <=? 8)%nat
  || ((11 <=? n)%nat && (n <=? 12)%nat)
  || ((14 <=? n)%nat && (n <=? 31)%nat)
  || (n =? 127)%nat.

(** [re.sub(r'[\x00-\x08\x0B-\x0C\x0E-\x1F\x7F]', '', text)] *)
Fixpoint remove_control (s : string) : string :=
  match s with
  | EmptyString => ""
  | String c s' =>
      if is_control c then remove_control s' else String c (remove_control s')
  end.

Definition CR : ascii := ascii_of_nat 13.
Definition LF : ascii := ascii_of_nat 10.

(** [text.replace('\r\n', '\n')] *)
Fixpoint replace_crlf (s : string) : string :=
  match s with
  | EmptyString => ""
  | String c s' =>
      match s' with
      | String d s'' =>
          if Ascii.eqb c CR && Ascii.eqb d LF
          then String LF (replace_crlf s'')
          else String c (replace_crlf s')
      | EmptyString => String c ""
      end
  end.

(** [text.replace('\r', '\n')] *)
Fixpoint replace_cr (s : string) : string :=
  match s with
  | EmptyString => ""
  | String c s' =>
      String (if Ascii.eqb c CR then LF else c) (replace_cr s')
  end.

(** [k] line feeds. *)
Fixpoint newlines (k : nat) : string :=
  match k with O => "" | S k' => String LF (newlines k') end.

(** [re.sub(r'\n{3,}', '\n\n', text)]: a maximal run of three or more line
    feeds becomes two. [k] counts the line feeds of the run being read. *)
Fixpoint squeeze_newlines_go (k : nat) (s : string) : string :=
  let flush := if (3 <=? k)%nat then newlines 2 else newlines k in
  match s with
  | EmptyString => flush
  | String c s' =>
      if Ascii.eqb c LF then squeeze_newlines_go (S k) s'
      else flush +:+ String c (squeeze_newlines_go 0 s')
  end.

Definition squeeze_newlines (s : string) : string := squeeze_newlines_go 0 s.

(** [TextCleaner.clean_text] *)
Definition clean_text (text : string) : string :=
  if negb (str_truthy text) then ""
  else
    (* Remove excessive whitespace *)
    let text := collapse_whitespace text in
    (* Remove control characters *)
    let text := remove_control text in
    (* Normalize line breaks *)
    let text := replace_cr (replace_crlf text) in
    (* Remove excessive newlines (more than 2 consecutive) *)
    let text := squeeze_newlines text in
    (* Strip leading/trailing whitespace *)
    py_strip text.

(** ** processors/chunker.py *)

(** [re.split(r'(?<=[.!?])\s+', text)]: the text is cut at every maximal run
    of white space that directly follows one of [.], [!], [?]; the runs are
    dropped and the pieces between them returned, an empty last piece
    included when the text ends in such a run. *)
Definition is_terminator (c : ascii) : bool :=
  Ascii.eqb c "." || Ascii.eqb c "!" || Ascii.eqb c "?".

Inductive split_mode :=
| InPiece (after_terminator : bool)
| InSeparator.

Fixpoint split_sentences_go (mode : split_mode) (cur : string) (s : string)
  : list string :=
  match s with
  | EmptyString => [cur]
  | String c s' =>
      match mode with
      | InSeparator =>
          if is_space c then split_sentences_go InSeparator "" s'
          else split_sentences_go (InPiece (is_terminator c)) (String c "") s'
      | InPiece after =>
          if after && is_space c then cur :: split_sentences_go InSeparator "" s'
          else split_sentences_go (InPiece (is_terminator c))
                 (cur +:+ String c "") s'
      end
  end.

Definition split_sentences (text : string) : list string :=
  split_sentences_go (InPiece false) "" text.

Section Chunker.

(** The fields of a [DocumentChunker]. *)
Variable chunk_size : Z.
Variable chunk_overlap : Z.

(** One pass through the body of [while start < len(words)] in
    [chunk_text], from the state [(start, chunks)]: [inl] is the state at the
    next test of the loop condition, [inr] the list of chunks when the loop
    is left (condition false, or [break]). *)
Definition chunk_text_body (words : list string) (st : Z * list string)
  : (Z * list string) + list string :=
  let '(start, chunks) := st in
  if start <? py_len words then
    let end_ := start + chunk_size in
    let chunk_words := py_slice words start end_ in
    let chunks := chunks ++ [py_join " " chunk_words] in
    (* Move start position with overlap *)
    let start := end_ - chunk_overlap in
    (* Ensure we make progress *)
    if start <=? py_len words - chunk_size then inl (start, chunks)
    else if start <? py_len words then
      (* Add remaining words as final chunk *)
      let chunk_words := py_slice_from words start in
      inr (if list_truthy chunk_words
           then chunks ++ [py_join " " chunk_words] else chunks)
    else inr chunks
  else inr chunks.

Fixpoint chunk_text_loop (fuel : nat) (words : list string)
  (st : Z * list string) : option (list string) :=
  match fuel with
  | O => None
  | S fuel' =>
      match chunk_text_body words st with
      | inl st' => chunk_text_loop fuel' words st'
      | inr chunks => Some chunks
      end
  end.

(** [DocumentChunker.chunk_text] *)
Definition chunk_text (fuel : nat) (text : string) : option (list string) :=
  if negb (str_truthy text) then Some []
  else
    let words := py_split text in
    if py_len words <=? chunk_size then Some [text]
    else chunk_text_loop fuel words (0, []).

(** The local variables of [chunk_by_sentences] that live across the
    iterations of [for sentence in sentences]. *)
Record sentence_state := SentenceState {
  chunks : list string;
  current_chunk : list string;
  current_size : Z
}.

(** The body of [for sentence in sentences]. *)
Definition chunk_by_sentences_body (fuel : nat) (st : sentence_state)
  (sentence : string) : option sentence_state :=
  let sentence_size := py_len (py_split sentence) in
  if current_size st + sentence_size <=? chunk_size then
    Some (SentenceState (chunks st) (current_chunk st ++ [sentence])
            (current_size st + sentence_size))
  else
    (* Save current chunk *)
    let chunks :=
      if list_truthy (current_chunk st)
      then chunks st ++ [py_join " " (current_chunk st)] else chunks st in
    (* Start new chunk *)
    if sentence_size <=? chunk_size then
      (* Add overlap from previous chunk if possible *)
      let overlap_words :=
        match last chunks with
        | Some prev => py_slice_from (py_split prev) (- chunk_overlap)
        | None => []
        end in
      let current_chunk :=
        if list_truthy overlap_words
        then [py_join " " overlap_words; sentence] else [sentence] in
      Some (SentenceState chunks current_chunk
              (py_len (py_split (py_join " " current_chunk))))
    else
      (* Sentence is too long, split it *)
      match chunk_text fuel sentence with
      | Some sub_chunks => Some (SentenceState (chunks ++ sub_chunks) [] 0)
      | None => None
      end.

Fixpoint chunk_by_sentences_loop (fuel : nat) (st : sentence_state)
  (sentences : list string) : option sentence_state :=
  match sentences with
  | [] => Some st
  | sentence :: rest =>
      match chunk_by_sentences_body fuel st sentence with
      | Some st' => chunk_by_sentences_loop fuel st' rest
      | None => None
      end
  end.

(** [DocumentChunker.chunk_by_sentences] *)
Definition chunk_by_sentences (fuel : nat) (text : string)
  : option (list string) :=
  if negb (str_truthy text) then Some []
  else
    let sentences := split_sentences text in
    match chunk_by_sentences_loop fuel (SentenceState [] [] 0) sentences with
    | Some st =>
        (* Add final chunk *)
        Some (if list_truthy (current_chunk st)
              then chunks st ++ [py_join " " (current_chunk st)]
              else chunks st)
    | None => None
    end.

End Chunker.

(** ** connectors/base_connector.py and processors/document_parser.py *)

(** The dataclass [Document]. The values of [metadata] are taken to be
    strings. *)
Module Document.
Record t := Build {
  id : string;
  title : string;
  content : string;
  url : string;
  author : string;
  source : string;
  created_date : string;
  modified_date : string;
  tags : list string;
  metadata : gmap string string
}.
End Document.

(** The dataclass [ProcessedChunk]. *)
Module ProcessedChunk.
Record t := Build {
  id : string;
  content : string;
  title : string;
  url : string;
  author : string;
  source : string;
  created_date : string;
  modified_date : string;
  tags : list string;
  space_key : string;
  metadata : gmap string string;
  chunk_index : Z;
  total_chunks : Z
}.
End ProcessedChunk.

(** [dict.get(key, default)] *)
Definition dict_get {V} (d : gmap string V) (key : string) (default : V) : V :=
  match d !! key with Some v => v | None => default end.

Section DocumentParser.

(** A [DocumentParser] owns a [TextCleaner] and a
    [DocumentChunker(chunk_size, chunk_overlap)]. *)
Variable chunk_size : Z.
Variable chunk_overlap : Z.

(** The [ProcessedChunk] built for position [idx] of [enumerate(chunks)]. *)
Definition make_processed_chunk (document : Document.t) (total_chunks : Z)
  (idx : nat) (chunk_content : string) : ProcessedChunk.t :=
  ProcessedChunk.Build
    (Document.id document +:+ "_chunk_" +:+ str_of_nat idx)
    chunk_content
    (Document.title document)
    (Document.url document)
    (Document.author document)
    (Document.source document)
    (Document.created_date document)
    (Document.modified_date document)
    (Document.tags document)
    (dict_get (Document.metadata document) "space_key" "")
    (<["original_doc_id" := Document.id document]> (Document.metadata document))
    (Z.of_nat idx)
    total_chunks.

(** [DocumentParser.process_document]. Over these types no statement of the
    [try] block raises, so the [except] branch is not reached; [None] is an
    unfinished [chunk_text] loop. *)
Definition process_document (fuel : nat) (document : Document.t)
  : option (list ProcessedChunk.t) :=
  (* Clean the content *)
  let cleaned_content := clean_text (Document.content document) in
  if negb (str_truthy cleaned_content) then Some []
  else
    (* Chunk the content *)
    match chunk_by_sentences chunk_size chunk_overlap fuel cleaned_content with
    | None => None
    | Some chunks =>
        if negb (list_truthy chunks) then Some []
        else
          (* Create ProcessedChunk objects *)
          let total_chunks := py_len chunks in
          Some (imap (make_processed_chunk document total_chunks) chunks)
    end.

(** [DocumentParser.process_documents] *)
Fixpoint process_documents (fuel : nat) (documents : list Document.t)
  : option (list ProcessedChunk.t) :=
  match documents with
  | [] => Some []
  | document :: rest =>
      match process_document fuel document with
      | None => None
      | Some chunks =>
          match process_documents fuel rest with
          | None => None
          | Some all_chunks => Some (chunks ++ all_chunks)
          end
      end
  end.

End DocumentParser.

(** ** Exceptions and external services *)

(** The outcome of a call that may raise; an exception is represented by its
    message [str(e)]. *)
Inductive result (A : Type) : Type :=
| Ok (a : A)
| Raise (msg : string).
Arguments Ok {A} a.
Arguments Raise {A} msg.

(** ** utils/retry.py and services/embedding_service.py *)

Section EmbeddingService.

(** [World] is the state of everything outside the process (the provider,
    the network), [Vector] the type of an embedding. *)
Context {World Vector : Type}.

(** [self.client.embeddings.create(model=..., input=texts)] followed by
    [[item.embedding for item in response.data]]. *)
Variable embeddings_create : list string -> World -> result (list Vector) * World.

(** The field [batch_size]. *)
Variable batch_size : Z.

(** The loop of [retry_with_backoff]'s wrapper, with [attempts_left] further
    attempts allowed after the coming one; the sleeps between attempts are
    not modelled. *)
Fixpoint retry_loop {A} (attempts_left : nat) (func : World -> result A * World)
  (w : World) : result A * World :=
  match func w with
  | (Ok a, w') => (Ok a, w')
  | (Raise e, w') =>
      match attempts_left with
      | O => (Raise e, w')
      | S k => retry_loop k func w'
      end
  end.

(** [retry_with_backoff(max_retries=...)(func)]: [range(max_retries + 1)]
    attempts, the last exception re-raised. *)
Definition retry_with_backoff {A} (max_retries : nat)
  (func : World -> result A * World) : World -> result A * World :=
  retry_loop max_retries func.

(** [EmbeddingService.generate_embeddings], decorated with
    [@retry_with_backoff(max_retries=3, exceptions=(Exception,))]. *)
Definition generate_embeddings (texts : list string)
  : World -> result (list Vector) * World :=
  retry_with_backoff 3 (embeddings_create texts).

(** [range(0, stop, step)] for [0 <= stop]. *)
Definition py_range0 (stop step : Z) : result (list Z) :=
  if step =? 0 then Raise "range() arg 3 must not be zero"
  else if step <? 0 then Ok []
  else Ok ((fun k : nat => Z.of_nat k * step)
             <$> seq 0 (Z.to_nat ((stop + step - 1) / step))).

(** [zip(xs, ys)] *)
Fixpoint py_zip {A B} (xs : list A) (ys : list B) : list (A * B) :=
  match xs, ys with
  | x :: xs', y :: ys' => (x, y) :: py_zip xs' ys'
  | _, _ => []
  end.

(** The iterations of [for i in range(0, total_chunks, self.batch_size)] of
    [embed_chunks] for the remaining indices [indices]. *)
Fixpoint embed_chunks_loop (chunks : list ProcessedChunk.t)
  (indices : list Z) (results : list (ProcessedChunk.t * Vector)) (w : World)
  : list (ProcessedChunk.t * Vector) * World :=
  match indices with
  | [] => (results, w)
  | i :: rest =>
      let batch := py_slice chunks i (i + batch_size) in
      let texts := ProcessedChunk.content <$> batch in
      match generate_embeddings texts w with
      | (Ok embeddings, w') =>
          embed_chunks_loop chunks rest (results ++ py_zip batch embeddings) w'
      | (Raise _, w') =>
          (* Continue with next batch *)
          embed_chunks_loop chunks rest results w'
      end
  end.

(** [EmbeddingService.embed_chunks] *)
Definition embed_chunks (chunks : list ProcessedChunk.t) (w : World)
  : result (list (ProcessedChunk.t * Vector)) * World :=
  let total_chunks := py_len chunks in
  match py_range0 total_chunks batch_size with
  | Raise e => (Raise e, w)
  | Ok indices =>
      let '(results, w') := embed_chunks_loop chunks indices [] w in
      (Ok results, w')
  end.

End EmbeddingService.

(** ** orchestrator/sync_orchestrator.py *)

(** The dictionary [stats] of [run_full_sync]. The entries [start_time],
    [end_time] and [duration_seconds] are readings of the wall clock and are
    left out. *)
Record SyncStats := mkSyncStats {
  documents_fetched : Z;
  chunks_created : Z;
  chunks_embedded : Z;
  chunks_uploaded : Z;
  failed_uploads : Z;
  errors : list string;
  success : bool
}.

(** The calls that [run_full_sync] makes on the services it was given. *)
Inductive call :=
| CreateOrUpdateIndex
| ClearIndex
| Connect
| FetchAllDocuments
| ProcessDocuments
| EmbedChunks
| UploadDocuments.

Section SyncOrchestrator.

Context {World Vector : Type}.

(** The services handed to [SyncOrchestrator.__init__]; each call may change
    the world and may raise. *)
Variable create_or_update_index : World -> result unit * World.
Variable clear_index : World -> result unit * World.
Variable connect : World -> result unit * World.
Variable fetch_all_documents : World -> result (list Document.t) * World.
Variable parser_process_documents :
  list Document.t -> World -> result (list ProcessedChunk.t) * World.
Variable service_embed_chunks :
  list ProcessedChunk.t -> World ->
  result (list (ProcessedChunk.t * Vector)) * World.
(** [upload_documents] answers with the pair of [upload_results["uploaded"]]
    and [upload_results["failed"]]. *)
Variable upload_documents :
  list (ProcessedChunk.t * Vector) -> World -> result (Z * Z) * World.

(** What a run leaves behind: the statistics, the world and the calls made,
    oldest first. *)
Definition sync_outcome : Type := SyncStats * World * list call.

(** The [except Exception as e] branch. *)
Definition fatal_error (stats : SyncStats) (e : string) : SyncStats :=
  mkSyncStats (documents_fetched stats) (chunks_created stats)
    (chunks_embedded stats) (chunks_uploaded stats) (failed_uploads stats)
    (errors stats ++ ["Fatal error during sync: " +:+ e]) false.

(** One call inside the [try] block: the call is recorded, an exception ends
    the run through [fatal_error] with the statistics as they are, a result
    is passed to the rest of the block. *)
Definition attempt {A} (c : call) (op : World -> result A * World)
  (stats : SyncStats) (w : World) (calls : list call)
  (rest : A -> World -> list call -> sync_outcome) : sync_outcome :=
  match op w with
  | (Ok a, w') => rest a w' (calls ++ [c])
  | (Raise e, w') => (fatal_error stats e, w', calls ++ [c])
  end.

Definition initial_stats : SyncStats := mkSyncStats 0 0 0 0 0 [] false.

Definition set_documents_fetched (n : Z) (s : SyncStats) : SyncStats :=
  mkSyncStats n (chunks_created s) (chunks_embedded s) (chunks_uploaded s)
    (failed_uploads s) (errors s) (success s).

Definition set_chunks_created (n : Z) (s : SyncStats) : SyncStats :=
  mkSyncStats (documents_fetched s) n (chunks_embedded s) (chunks_uploaded s)
    (failed_uploads s) (errors s) (success s).

Definition set_chunks_embedded (n : Z) (s : SyncStats) : SyncStats :=
  mkSyncStats (documents_fetched s) (chunks_created s) n (chunks_uploaded s)
    (failed_uploads s) (errors s) (success s).

Definition set_upload_results (uploaded failed : Z) (s : SyncStats) : SyncStats :=
  mkSyncStats (documents_fetched s) (chunks_created s) (chunks_embedded s)
    uploaded failed (errors s) (success s).

Definition set_success (b : bool) (s : SyncStats) : SyncStats :=
  mkSyncStats (documents_fetched s) (chunks_created s) (chunks_embedded s)
    (chunks_uploaded s) (failed_uploads s) (errors s) b.

(** [SyncOrchestrator.run_full_sync]. The [finally] block only stamps the
    end time and logs. *)
Definition run_full_sync (w : World) : sync_outcome :=
  let stats := initial_stats in
  (* Step 1: Ensure index exists and is properly configured *)
  attempt CreateOrUpdateIndex create_or_update_index stats w [] (fun _ w calls =>
  (* Step 2: Clear the index *)
  attempt ClearIndex clear_index stats w calls (fun _ w calls =>
  (* Step 3: Connect to Confluence *)
  attempt Connect connect stats w calls (fun _ w calls =>
  (* Step 4: Fetch documents from Confluence *)
  attempt FetchAllDocuments fetch_all_documents stats w calls (fun documents w calls =>
  let stats := set_documents_fetched (py_len documents) stats in
  if negb (list_truthy documents) then (set_success true stats, w, calls)
  else
  (* Step 5: Process documents into chunks *)
  attempt ProcessDocuments (parser_process_documents documents) stats w calls
    (fun chunks w calls =>
  let stats := set_chunks_created (py_len chunks) stats in
  if negb (list_truthy chunks) then (set_success true stats, w, calls)
  else
  (* Step 6: Generate embeddings *)
  attempt EmbedChunks (service_embed_chunks chunks) stats w calls
    (fun chunks_with_embeddings w calls =>
  let stats := set_chunks_embedded (py_len chunks_with_embeddings) stats in
  if negb (list_truthy chunks_with_embeddings) then (stats, w, calls)
  else
  (* Step 7: Upload to Azure Search *)
  attempt UploadDocuments (upload_documents chunks_with_embeddings) stats w calls
    (fun upload_results w calls =>
  let stats :=
    set_upload_results (fst upload_results) (snd upload_results) stats in
  (* Mark as successful *)
  (set_success true stats, w, calls)))))))).

End SyncOrchestrator.

(** ** services/chat_service.py *)

(** The dictionary returned by [_extract_sources] for one chunk. *)
Definition source_entry (title url author source : string)
  : gmap string string :=
  <["title" := title]> (<["url" := url]> (<["author" := author]>
    (<["source" := source]> ∅))).

(** The entry that [_extract_sources] appends for [chunk] once its url is
    accepted. *)
Definition source_of_chunk (chunk : gmap string string) : gmap string string :=
  source_entry (dict_get chunk "title" "Unknown") (dict_get chunk "url" "")
    (dict_get chunk "author" "Unknown") (dict_get chunk "source" "Unknown").

(** The loop of [_extract_sources] from the state [(sources, seen_urls)]. *)
Fixpoint _extract_sources_loop (chunks : list (gmap string string))
  (sources : list (gmap string string)) (seen_urls : gset string)
  : list (gmap string string) :=
  match chunks with
  | [] => sources
  | chunk :: rest =>
      let url := dict_get chunk "url" "" in
      if str_truthy url && bool_decide (url ∉ seen_urls)
      then _extract_sources_loop rest
             (sources ++ [source_entry (dict_get chunk "title" "Unknown") url
                            (dict_get chunk "author" "Unknown")
                            (dict_get chunk "source" "Unknown")])
             ({[url]} ∪ seen_urls)
      else _extract_sources_loop rest sources seen_urls
  end.

(** [ChatService._extract_sources]; the values of a retrieved chunk that it
    reads are strings. *)
Definition _extract_sources (chunks : list (gmap string string))
  : list (gmap string string) :=
  _extract_sources_loop chunks [] ∅.

(** [chunk[key]], which raises [KeyError] for a missing key. *)
Definition dict_item (chunk : gmap string string) (key : string)
  : result string :=
  match chunk !! key with
  | Some v => Ok v
  | None => Raise ("'" +:+ key +:+ "'")
  end.

(** The part of the context that [_build_context] writes for [chunk] at
    position [i] of [enumerate(chunks, 1)]. *)
Definition context_part (i : nat) (chunk : gmap string string) : result string :=
  match dict_item chunk "title" with
  | Raise e => Raise e
  | Ok title =>
      match dict_item chunk "author" with
      | Raise e => Raise e
      | Ok author =>
          match dict_item chunk "content" with
          | Raise e => Raise e
          | Ok content =>
              Ok ("[Source " +:+ str_of_nat i +:+ "] " +:+ title +:+ String LF ""
                  +:+ "Author: " +:+ author +:+ String LF ""
                  +:+ "Content: " +:+ content +:+ String LF "")
          end
      end
  end.

Fixpoint context_parts (i : nat) (chunks : list (gmap string string))
  : result (list string) :=
  match chunks with
  | [] => Ok []
  | chunk :: rest =>
      match context_part i chunk with
      | Raise e => Raise e
      | Ok part =>
          match context_parts (S i) rest with
          | Raise e => Raise e
          | Ok parts => Ok (part :: parts)
          end
      end
  end.

(** [ChatService._build_context] *)
Definition _build_context (chunks : list (gmap string string)) : result string :=
  if negb (list_truthy chunks) then Ok "No relevant information found."
  else
    match context_parts 1 chunks with
    | Raise e => Raise e
    | Ok parts =>
        Ok (py_join (String LF "" +:+ "---" +:+ String LF "") parts)
    end.

(** [ChatService._build_user_prompt] *)
Definition _build_user_prompt (question context : string) : string :=
  "Context information:" +:+ String LF "" +:+ context +:+ String LF ""
  +:+ String LF "" +:+ "Question: " +:+ question +:+ String LF ""
  +:+ String LF ""
  +:+ "Please provide a comprehensive answer based on the context provided above. If the context doesn't contain enough information to answer the question, please state that clearly.".

(** [ChatService._get_default_system_prompt] *)
Definition _get_default_system_prompt : string :=
  "You are a helpful AI assistant that answers questions based on the provided context from a knowledge base."
  +:+ String LF "" +:+ String LF "" +:+ "Instructions:" +:+ String LF ""
  +:+ "- Answer the question using ONLY the information provided in the context"
  +:+ String LF ""
  +:+ "- Be specific and cite which source(s) you used when possible"
  +:+ String LF ""
  +:+ "- If the context doesn't contain enough information, clearly state that"
  +:+ String LF ""
  +:+ "- Be concise but thorough in your explanations" +:+ String LF ""
  +:+ "- Use a professional and friendly tone" +:+ String LF ""
  +:+ "- If you find conflicting information in the sources, acknowledge it".

(** What [generate_answer] reads from the provider's response. *)
Record ChatResponse := mkChatResponse {
  message_content : string;
  prompt_tokens : Z;
  completion_tokens : Z;
  total_tokens : Z
}.

(** The dictionary [result] of [generate_answer]. *)
Record AnswerResult := mkAnswerResult {
  answer : string;
  model : string;
  usage : Z * Z * Z;
  sources : list (gmap string string)
}.

Section ChatService.

Context {World Temperature : Type}.

(** [self.client.chat.completions.create] with the system message, the user
    message, the temperature and [max_tokens]. *)
Variable completions_create :
  string -> string -> Temperature -> Z -> World -> result ChatResponse * World.

(** The field [deployment_name]. *)
Variable deployment_name : string.

(** [ChatService.generate_answer]; [except Exception] logs and re-raises. *)
Definition generate_answer (question : string)
  (context_chunks : list (gmap string string)) (system_prompt : option string)
  (temperature : Temperature) (max_tokens : Z) (w : World)
  : result AnswerResult * World :=
  (* Build context from chunks *)
  match _build_context context_chunks with
  | Raise e => (Raise e, w)
  | Ok context =>
      (* Use default system prompt if none provided *)
      let system_prompt :=
        match system_prompt with
        | Some p => if str_truthy p then p else _get_default_system_prompt
        | None => _get_default_system_prompt
        end in
      (* Build user prompt *)
      let user_prompt := _build_user_prompt question context in
      (* Generate completion *)
      match completions_create system_prompt user_prompt temperature max_tokens w with
      | (Raise e, w') => (Raise e, w')
      | (Ok response, w') =>
          (Ok (mkAnswerResult (message_content response) deployment_name
                 (prompt_tokens response, completion_tokens response,
                  total_tokens response)
                 (_extract_sources context_chunks)), w')
      end
  end.

End ChatService.

(** ** Auxiliary notions used in the statements *)

(** The number of words of the longest sentence, a bound on the fuel that
    [chunk_by_sentences] needs. *)
Definition longest_sentence (sentences : list string) : nat :=
  foldr (fun sentence m => Nat.max (length (py_split sentence)) m) O sentences.

(** The document of the worked example: id "d1" and three short sentences;
    the other fields are arbitrary. *)
Definition worked_document (title url author source created_date
  modified_date : string) (tags : list string) (metadata : gmap string string)
  : Document.t :=
  Document.Build "d1" title "Sentence one. Sentence two. Sentence three."
    url author source created_date modified_date tags metadata.

(** The chunk that [process_document] is expected to build from
    [worked_document] at position [idx] with the text [chunk_content]. *)
Definition worked_chunk (title url author source created_date
  modified_date : string) (tags : list string) (metadata : gmap string string)
  (chunk_id chunk_content : string) (idx : Z) : ProcessedChunk.t :=
  ProcessedChunk.Build chunk_id chunk_content title url author source
    created_date modified_date tags (dict_get metadata "space_key" "")
    (<["original_doc_id" := "d1"]> metadata) idx 2.

(** A word as [str.split()] returns it: not empty and free of white space. *)
Definition space_free (s : string) : Prop :=
  forall c, In c (list_ascii_of_string s) -> is_space c = false.

Definition is_word (s : string) : Prop :=
  str_truthy s = true /\ space_free s.

(** The words of a list of chunks read one after the other, ignoring what is
    duplicated by the overlap: the first [overlap] words of every chunk after
    the first repeat the end of the chunk before it and are skipped. *)
Definition stitch (overlap : nat) (chunk_words : list (list string))
  : list string :=
  match chunk_words with
  | [] => []
  | first :: rest => first ++ concat (drop overlap <$> rest)
  end.

(** The url of a retrieved chunk as [_extract_sources] reads it: the empty
    string when the key is missing. *)
Definition chunk_url (chunk : gmap string string) : string :=
  dict_get chunk "url" "".

(** The url recorded in an entry of the sources list. *)
Definition source_url (entry : gmap string string) : string :=
  dict_get entry "url" "".

(** The chunk at position [i] is the first occurrence of its url: the url is
    not empty and no chunk before position [i] has it. *)
Definition first_occurrence (chunks : list (gmap string string)) (i : nat)
  (chunk : gmap string string) : Prop :=
  chunk_url chunk <> "" /\ chunk_url chunk ∉ (chunk_url <$> take i chunks).

#[global] Instance first_occurrence_dec chunks i chunk :
  Decision (first_occurrence chunks i chunk).
Proof. unfold first_occurrence. apply _. Defined.

(** Stable de-duplication in the words of the specification: going through
    the chunks in retrieval order, keep the first occurrence of every url. *)
Definition first_seen (chunks : list (gmap string string))
  : list (gmap string string) :=
  snd <$> filter (fun ic => first_occurrence chunks (fst ic) (snd ic))
            (imap (fun i chunk => (i, chunk)) chunks).

(** The url field of a chunk is missing or is the empty string. *)
Definition url_missing_or_empty (chunk : gmap string string) : Prop :=
  chunk !! "url" = None \/ chunk !! "url" = Some "".

(** [sub] occurs in [s]. *)
Definition occurs_in (sub s : string) : Prop :=
  exists before after, s = before +:+ sub +:+ after.

(** Three retrieved chunks with the urls A, B, A. *)
Definition chunk_with (title url : string) : gmap string string :=
  <["title" := title]> (<["url" := url]> (<["author" := "someone"]>
    (<["source" := "confluence"]> (<["content" := "text"]> ∅)))).

Definition retrieved_ABA : list (gmap string string) :=
  [chunk_with "first" "A"; chunk_with "second" "B"; chunk_with "third" "A"].

(** Two retrieved chunks without a usable url: one with an empty url, one
    without the key. *)
Definition retrieved_without_url : list (gmap string string) :=
  [chunk_with "first" "";
   <["title" := "second"]> (<["author" := "someone"]>
     (<["content" := "text"]> ∅))].

(** A chat provider that always answers the same. *)
Definition canned_completions (system user : string) (temperature : unit)
  (max_tokens : Z) (w : unit) : result ChatResponse * unit :=
  (Ok (mkChatResponse "an answer" 10 20 30), w).

(** The partition of a list into consecutive batches of [n] elements, the
    last one possibly shorter. *)
Fixpoint batches_fuel {A} (fuel n : nat) (l : list A) : list (list A) :=
  match fuel with
  | O => []
  | S fuel' =>
      match l with
      | [] => []
      | _ :: _ => take n l :: batches_fuel fuel' n (drop n l)
      end
  end.

Definition batches {A} (n : nat) (l : list A) : list (list A) :=
  batches_fuel (length l) n l.

(** What the batches contribute to the result when the embedding call
    [embedding_call] is made once for every batch, in order, each call in the
    state of the world that the call before left: the chunks of a batch
    whose call returns, paired with its vectors, and nothing for a batch
    whose call raises. The second component is the state of the world after
    the last call. *)
Fixpoint embedded_in_turn {World Vector : Type}
  (embedding_call : list string -> World -> result (list Vector) * World)
  (bs : list (list ProcessedChunk.t)) (w : World)
  : list (ProcessedChunk.t * Vector) * World :=
  match bs with
  | [] => ([], w)
  | batch :: later =>
      match embedding_call (ProcessedChunk.content <$> batch) w with
      | (Ok vectors, w') =>
          let '(embedded, w'') := embedded_in_turn embedding_call later w' in
          (py_zip batch vectors ++ embedded, w'')
      | (Raise _, w') => embedded_in_turn embedding_call later w'
      end
  end.

(** Six chunks with the texts c1 ... c6, a provider that counts its calls
    and fails on the texts of the second batch of two, and a provider that
    is out of service from its second to its fifth call, whatever the
    texts. *)
Definition sample_chunk (text : string) : ProcessedChunk.t :=
  ProcessedChunk.Build ("doc_chunk_" +:+ text) text "" "" "" "" "" "" [] "" ∅ 0 6.

Definition six_chunks : list ProcessedChunk.t :=
  sample_chunk <$> ["c1"; "c2"; "c3"; "c4"; "c5"; "c6"].

Definition sample_vector (text : string) : string := "vector of " +:+ text.

Definition failing_on_second_batch (texts : list string) (calls : nat)
  : result (list string) * nat :=
  if decide (texts = ["c3"; "c4"]) then (Raise "quota exceeded", S calls)
  else (Ok (sample_vector <$> texts), S calls).

Definition outage (texts : list string) (calls : nat)
  : result (list string) * nat :=
  if (1 <=? calls)%nat && (calls <=? 4)%nat
  then (Raise "service unavailable", S calls)
  else (Ok (sample_vector <$> texts), S calls).

(** Services for a run of the orchestrator over a world that counts the
    calls made to it: an index and a source that always answer, a source
    without documents or with one document, a parser that returns the chunks
    [six_chunks], an embedding provider that always fails, and an upload
    that accepts everything. *)
Definition always_ok (calls : nat) : result unit * nat := (Ok tt, S calls).

Definition fetch_nothing (calls : nat) : result (list Document.t) * nat :=
  (Ok [], S calls).

Definition fetch_worked_document (calls : nat)
  : result (list Document.t) * nat :=
  (Ok [worked_document "" "" "" "" "" "" [] ∅], S calls).

Definition parse_to_six_chunks (documents : list Document.t) (calls : nat)
  : result (list ProcessedChunk.t) * nat :=
  (Ok six_chunks, S calls).

Definition always_failing (texts : list string) (calls : nat)
  : result (list string) * nat :=
  (Raise "service unavailable", S calls).

Definition upload_all (pairs : list (ProcessedChunk.t * string)) (calls : nat)
  : result (Z * Z) * nat :=
  (Ok (py_len pairs, 0), S calls).

(** What holds between the iterations of [chunk_by_sentences] over the
    sentences: the chunks made so far have at most
    [chunk_size + chunk_overlap] words, and [current_size] is the number of
    words of the current chunk, within the same bound. *)
Definition sentence_invariant (chunk_size chunk_overlap : Z)
  (st : sentence_state) : Prop :=
  Forall (fun c => py_len (py_split c) <= chunk_size + chunk_overlap) (chunks st)
  /\ current_size st = py_len (py_split (py_join " " (current_chunk st)))
  /\ current_size st <= chunk_size + chunk_overlap.

(** ** Further functions of processors/text_cleaner.py *)

(** [TextCleaner.normalize_whitespace] *)
Definition normalize_whitespace (text : string) : string :=
  py_join " " (py_split text).

(** [len(s)] for a [str]. *)
Definition str_len (s : string) : Z := Z.of_nat (String.length s).

(** [s[:stop]] for a [str]. *)
Definition str_slice_to (s : string) (stop : Z) : string :=
  string_of_list_ascii (py_slice (list_ascii_of_string s) 0 stop).

(** [TextCleaner.truncate]; the default of [suffix] is "...". *)
Definition truncate (text : string) (max_length : Z) (suffix : string) : string :=
  if str_len text <=? max_length then text
  else str_slice_to text (max_length - str_len suffix) +:+ suffix.

(** ** utils/retry.py with a selective [exceptions] argument *)

Section RetryCatching.

Context {World A : Type}.

(** [exceptions]: [catches e] tells that the exception [e] is an instance of
    one of the classes that the wrapper was told to catch. *)
Variable catches : string -> bool.

(** The loop of the wrapper: an exception that is not caught leaves the
    wrapper at once, a caught one is re-raised only in the last attempt. *)
Fixpoint retry_loop_catching (attempts_left : nat)
  (func : World -> result A * World) (w : World) : result A * World :=
  match func w with
  | (Ok a, w') => (Ok a, w')
  | (Raise e, w') =>
      if catches e then
        match attempts_left with
        | O => (Raise e, w')
        | S k => retry_loop_catching k func w'
        end
      else (Raise e, w')
  end.

(** [retry_with_backoff(max_retries=..., exceptions=...)(func)] *)
Definition retry_with_backoff_catching (max_retries : nat)
  (func : World -> result A * World) : World -> result A * World :=
  retry_loop_catching max_retries func.

End RetryCatching.

(** An operation whose successive calls end as a script says; the world is
    what is left of the script, and [otherwise] is the outcome once the
    script is used up. *)
Definition scripted {A} (otherwise : result A) (script : list (result A))
  : result A * list (result A) :=
  match script with
  | [] => (otherwise, [])
  | outcome :: rest => (outcome, rest)
  end.

(** ** services/search_service.py *)

(** The dictionary that [upload_documents] makes of a chunk and its
    embedding. *)
Module SearchDocument.
Record t (Vector : Type) := Build {
  id : string;
  content : string;
  content_vector : Vector;
  title : string;
  url : string;
  author : string;
  source : string;
  space_key : string;
  created_date : string;
  modified_date : string;
  tags : list string;
  chunk_index : Z;
  total_chunks : Z
}.
Arguments Build {Vector}.
Arguments id {Vector}.
Arguments content_vector {Vector}.
End SearchDocument.

Module SearchService.
Section SearchService.

Context {World Vector : Type}.

(** [self.search_client.search(search_text="*", select=["id"], top=100000)]
    followed by [[doc["id"] for doc in results]]. *)
Variable search_all_ids : World -> result (list string) * World.

(** [self.search_client.delete_documents] on the documents [{"id": doc_id}]
    of the given ids. *)
Variable client_delete_documents : list string -> World -> result unit * World.

(** [self.search_client.upload_documents]; its result holds [item.succeeded]
    for every item. *)
Variable client_upload_documents :
  list (SearchDocument.t Vector) -> World -> result (list bool) * World.

(** The field [batch_size]. *)
Variable batch_size : Z.

(** The iterations of the loop of [clear_index] for the remaining indices;
    [delete_calls] are the batches handed to [delete_documents] so far. An
    exception of [delete_documents] leaves the loop. *)
Fixpoint clear_index_loop (doc_ids : list string) (indices : list Z)
  (delete_calls : list (list string)) (w : World)
  : result unit * World * list (list string) :=
  match indices with
  | [] => (Ok tt, w, delete_calls)
  | i :: rest =>
      let batch_ids := py_slice doc_ids i (i + batch_size) in
      match client_delete_documents batch_ids w with
      | (Ok _, w') =>
          clear_index_loop doc_ids rest (delete_calls ++ [batch_ids]) w'
      | (Raise e, w') => (Raise e, w', delete_calls ++ [batch_ids])
      end
  end.

(** [SearchService.clear_index], with the batches handed to
    [delete_documents]; [except Exception] logs and re-raises. *)
Definition clear_index (w : World)
  : result unit * World * list (list string) :=
  (* Get all document IDs *)
  match search_all_ids w with
  | (Raise e, w') => (Raise e, w', [])
  | (Ok doc_ids, w') =>
      if negb (list_truthy doc_ids) then (Ok tt, w', [])
      else
        (* Delete documents in batches *)
        match py_range0 (py_len doc_ids) batch_size with
        | Raise e => (Raise e, w', [])
        | Ok indices => clear_index_loop doc_ids indices [] w'
        end
  end.

(** Convert to search documents; [chunk.tags if chunk.tags else []] is the
    list of tags itself. *)
Definition to_search_document (pair : ProcessedChunk.t * Vector)
  : SearchDocument.t Vector :=
  let '(chunk, embedding) := pair in
  SearchDocument.Build
    (ProcessedChunk.id chunk) (ProcessedChunk.content chunk) embedding
    (ProcessedChunk.title chunk) (ProcessedChunk.url chunk)
    (ProcessedChunk.author chunk) (ProcessedChunk.source chunk)
    (ProcessedChunk.space_key chunk) (ProcessedChunk.created_date chunk)
    (ProcessedChunk.modified_date chunk) (ProcessedChunk.tags chunk)
    (ProcessedChunk.chunk_index chunk) (ProcessedChunk.total_chunks chunk).

(** Count successes and failures. *)
Fixpoint count_results (items : list bool) (uploaded_count failed_count : Z)
  : Z * Z :=
  match items with
  | [] => (uploaded_count, failed_count)
  | succeeded :: rest =>
      if succeeded then count_results rest (uploaded_count + 1) failed_count
      else count_results rest uploaded_count (failed_count + 1)
  end.

(** The iterations of the loop of [upload_documents] for the remaining
    indices. *)
Fixpoint upload_documents_loop
  (chunks_with_embeddings : list (ProcessedChunk.t * Vector))
  (indices : list Z) (uploaded_count failed_count : Z) (w : World)
  : Z * Z * World :=
  match indices with
  | [] => (uploaded_count, failed_count, w)
  | i :: rest =>
      let batch := py_slice chunks_with_embeddings i (i + batch_size) in
      let documents := to_search_document <$> batch in
      match client_upload_documents documents w with
      | (Ok items, w') =>
          let '(uploaded_count, failed_count) :=
            count_results items uploaded_count failed_count in
          upload_documents_loop chunks_with_embeddings rest
            uploaded_count failed_count w'
      | (Raise _, w') =>
          upload_documents_loop chunks_with_embeddings rest
            uploaded_count (failed_count + py_len batch) w'
      end
  end.

(** The body of [SearchService.upload_documents]; its result is the pair of
    the entries "uploaded" and "failed". *)
Definition upload_documents_body
  (chunks_with_embeddings : list (ProcessedChunk.t * Vector)) (w : World)
  : result (Z * Z) * World :=
  if negb (list_truthy chunks_with_embeddings) then (Ok (0, 0), w)
  else
    (* Process in batches *)
    match py_range0 (py_len chunks_with_embeddings) batch_size with
    | Raise e => (Raise e, w)
    | Ok indices =>
        let '(uploaded_count, failed_count, w') :=
          upload_documents_loop chunks_with_embeddings indices 0 0 w in
        (Ok (uploaded_count, failed_count), w')
    end.

(** [SearchService.upload_documents], decorated with
    [@retry_with_backoff(max_retries=3, exceptions=(Exception,))]. *)
Definition upload_documents
  (chunks_with_embeddings : list (ProcessedChunk.t * Vector))
  : World -> result (Z * Z) * World :=
  retry_with_backoff 3 (upload_documents_body chunks_with_embeddings).

End SearchService.
End SearchService.

(** ** services/rag_service.py *)

(** The dictionary returned by [answer_question]. The entries "model",
    "usage" and "search_type" are missing from the dictionary that is
    returned when nothing was retrieved. *)
Module RAGResult.
Record t := Build {
  answer : string;
  sources : list (gmap string string);
  retrieved_chunks : Z;
  question : string;
  model : option string;
  usage : option (Z * Z * Z);
  search_type : option string
}.
End RAGResult.

Module RAGService.
Section RAGService.

Context {World Vector Temperature : Type}.

(** The call behind [self.embedding_service.generate_embeddings]. *)
Variable embeddings_create : list string -> World -> result (list Vector) * World.

(** [self.query_service.hybrid_search(query_text, query_vector, top_k,
    filters)] and [self.query_service.vector_search(query_vector, top_k,
    filters)]. *)
Variable hybrid_search :
  string -> Vector -> Z -> option string -> World ->
  result (list (gmap string string)) * World.
Variable vector_search :
  Vector -> Z -> option string -> World ->
  result (list (gmap string string)) * World.

(** The call behind [self.chat_service.generate_answer] and the deployment
    name of the chat service. *)
Variable completions_create :
  string -> string -> Temperature -> Z -> World -> result ChatResponse * World.
Variable deployment_name : string.

(** The fields [top_k], [temperature] and [max_tokens]. *)
Variable top_k : Z.
Variable temperature : Temperature.
Variable max_tokens : Z.

(** [RAGService.answer_question]; [except Exception] logs and re-raises. *)
Definition answer_question (question : string) (system_prompt : option string)
  (filters : option string) (use_hybrid_search : bool) (w : World)
  : result RAGResult.t * World :=
  (* Step 1: Generate query embedding *)
  match generate_embeddings embeddings_create [question] w with
  | (Raise e, w) => (Raise e, w)
  | (Ok query_embeddings, w) =>
      match query_embeddings with
      | [] => (Raise "list index out of range", w)
      | query_vector :: _ =>
          (* Step 2: Retrieve relevant chunks *)
          let retrieved :=
            if use_hybrid_search
            then hybrid_search question query_vector top_k filters w
            else vector_search query_vector top_k filters w in
          match retrieved with
          | (Raise e, w) => (Raise e, w)
          | (Ok chunks, w) =>
              if negb (list_truthy chunks) then
                (Ok (RAGResult.Build
                       "I couldn't find any relevant information in the knowledge base to answer your question."
                       [] 0 question None None None), w)
              else
                (* Step 3: Generate answer using retrieved context *)
                match generate_answer completions_create deployment_name
                        question chunks system_prompt temperature max_tokens w
                with
                | (Raise e, w) => (Raise e, w)
                | (Ok result, w) =>
                    (* Add metadata *)
                    (Ok (RAGResult.Build (answer result) (sources result)
                           (py_len chunks) question (Some (model result))
                           (Some (usage result))
                           (Some (if use_hybrid_search then "hybrid"
                                  else "vector"))), w)
                end
          end
      end
  end.

End RAGService.
End RAGService.

(** ** connectors/confluence_connector.py *)

Module ConfluenceConnector.

(** What [_fetch_space_documents] reads from the JSON answer of a request:
    [response.get("results", [])] and whether "next" is a key of
    [response.get("_links", {})]; without such a key the loop ends. *)
Record Response (Page : Type) := BuildResponse {
  results : list Page;
  has_next : bool
}.
Arguments BuildResponse {Page}.
Arguments results {Page}.
Arguments has_next {Page}.

Section ConfluenceConnector.

Context {World Page : Type}.

(** [self.session.get(url, params=params)], [raise_for_status()] and
    [json()] for the endpoint "/rest/api/content" with the parameters
    [spaceKey], [start] and [limit]. *)
Variable session_get_content :
  string -> Z -> Z -> World -> result (Response Page) * World.

(** The exception is a [requests.RequestException]. *)
Variable is_request_exception : string -> bool.

(** [self._parse_page(page, space_key)] *)
Variable _parse_page : Page -> string -> result Document.t.

(** [page.get('id')], which the handler of a page that fails to parse
    evaluates for the message of its warning; it raises for a result that
    is not a dictionary. *)
Variable page_get_id : Page -> result string.

(** The field [space_keys]. *)
Variable space_keys : list string.

(** [self._make_request("/rest/api/content", params)], decorated with
    [@retry_with_backoff(max_retries=3,
    exceptions=(requests.RequestException,))]. *)
Definition _make_request (space_key : string) (start limit : Z)
  : World -> result (Response Page) * World :=
  retry_with_backoff_catching is_request_exception 3
    (session_get_content space_key start limit).

(** The loop [for page in results] over the list [documents]: a page that
    fails to parse is skipped with a warning, unless the message of the
    warning cannot be built, which raises inside the handler and leaves the
    loop with the documents appended so far. A [Document] is always true. *)
Fixpoint parse_results (pages : list Page) (space_key : string)
  (documents : list Document.t) : list Document.t * result unit :=
  match pages with
  | [] => (documents, Ok tt)
  | page :: rest =>
      match _parse_page page space_key with
      | Ok doc => parse_results rest space_key (documents ++ [doc])
      | Raise _ =>
          match page_get_id page with
          | Ok _ => parse_results rest space_key documents
          | Raise e => (documents, Raise e)
          end
      end
  end.

(** The loop [while True] of [_fetch_space_documents] with [limit = 50];
    [None] when the fuel does not suffice. Every exception inside the
    [try] block leaves the loop. *)
Fixpoint _fetch_space_documents_loop (fuel : nat) (space_key : string)
  (documents : list Document.t) (start : Z) (w : World)
  : option (list Document.t * World) :=
  match fuel with
  | O => None
  | S fuel' =>
      let limit := 50 in
      match _make_request space_key start limit w with
      | (Raise _, w') => Some (documents, w')
      | (Ok response, w') =>
          if negb (list_truthy (results response)) then Some (documents, w')
          else
            match parse_results (results response) space_key documents with
            | (documents, Raise _) => Some (documents, w')
            | (documents, Ok _) =>
                (* Check if there are more pages *)
                if negb (has_next response) then Some (documents, w')
                else
                  _fetch_space_documents_loop fuel' space_key documents
                    (start + limit) w'
            end
      end
  end.

(** [ConfluenceConnector._fetch_space_documents] *)
Definition _fetch_space_documents (fuel : nat) (space_key : string) (w : World)
  : option (list Document.t * World) :=
  _fetch_space_documents_loop fuel space_key [] 0 w.

(** The loop of [fetch_all_documents] over the remaining space keys. *)
Fixpoint fetch_all_documents_loop (fuel : nat) (keys : list string)
  (documents : list Document.t) (w : World)
  : option (list Document.t * World) :=
  match keys with
  | [] => Some (documents, w)
  | space_key :: rest =>
      match _fetch_space_documents fuel space_key w with
      | None => None
      | Some (space_docs, w') =>
          fetch_all_documents_loop fuel rest (documents ++ space_docs) w'
      end
  end.

(** [ConfluenceConnector.fetch_all_documents]; every request loop gets the
    fuel [fuel]. *)
Definition fetch_all_documents (fuel : nat) (w : World)
  : option (list Document.t * World) :=
  fetch_all_documents_loop fuel space_keys [] w.

End ConfluenceConnector.
End ConfluenceConnector.

(** ** Notions used in the further statements *)

(** A decimal digit. *)
Definition is_digit (c : ascii) : bool :=
  let n := nat_of_ascii c in (48 <=? n)%nat && (n <=? 57)%nat.

(** [int(s)] for the decimal representation of a natural number. *)
Definition nat_of_str (s : string) : option nat :=
  option_map Nat.of_uint (NilZero.uint_of_string s).

(** A second document, with the id "d2". *)
Definition second_document : Document.t :=
  Document.Build "d2" "" "One. Two." "" "" "" "" "" [] ∅.

(** The batches deleted one after the other, each in the state of the world
    that the deletion before left, up to the first deletion that raises:
    the outcome, the state of the world at the end and the batches handed to
    [delete_documents]. *)
Fixpoint deleted_in_turn {World : Type}
  (delete_documents : list string -> World -> result unit * World)
  (bs : list (list string)) (w : World)
  : result unit * World * list (list string) :=
  match bs with
  | [] => (Ok tt, w, [])
  | batch :: later =>
      match delete_documents batch w with
      | (Ok _, w') =>
          let '(outcome, w'', handed) :=
            deleted_in_turn delete_documents later w' in
          (outcome, w'', batch :: handed)
      | (Raise e, w') => (Raise e, w', [batch])
      end
  end.

(** An index that holds the ids "a", "b" and "c", a deletion that always
    succeeds, a deletion that is out of service from the third call of the
    client on, and a search client that accepts every document, over a
    world that counts the calls made to it. *)
Definition three_ids (calls : nat) : result (list string) * nat :=
  (Ok ["a"; "b"; "c"], S calls).

Definition delete_ok (ids : list string) (calls : nat) : result unit * nat :=
  (Ok tt, S calls).

Definition delete_until_outage (ids : list string) (calls : nat)
  : result unit * nat :=
  if (calls <=? 1)%nat then (Ok tt, S calls)
  else (Raise "service unavailable", S calls).

Definition accept_all (documents : list (SearchDocument.t string))
  (calls : nat) : result (list bool) * nat :=
  (Ok ((fun _ => true) <$> documents), S calls).

(** A search client that answers every upload with an exception. *)
Definition reject_all (documents : list (SearchDocument.t string))
  (calls : nat) : result (list bool) * nat :=
  (Raise "service unavailable", S calls).

(** The steps of [run_full_sync] in the order of the source. *)
Definition pipeline : list call :=
  [CreateOrUpdateIndex; ClearIndex; Connect; FetchAllDocuments;
   ProcessDocuments; EmbedChunks; UploadDocuments].

(** The ways in which a run ends: an exception in one of the seven calls, one
    of the two early returns with [success = True], the return without
    embeddings, or the end of the [try] block. *)
Inductive run_end : SyncStats -> list call -> Prop :=
| end_raised (n : nat) (e : string) (stats : SyncStats) :
    (n < 7)%nat ->
    errors stats = [] -> success stats = false ->
    chunks_uploaded stats = 0 -> failed_uploads stats = 0 ->
    0 <= documents_fetched stats -> 0 <= chunks_created stats ->
    0 <= chunks_embedded stats ->
    ((n <= 3)%nat -> documents_fetched stats = 0) ->
    ((n <= 4)%nat -> chunks_created stats = 0) ->
    ((n <= 5)%nat -> chunks_embedded stats = 0) ->
    run_end (fatal_error stats e) (take (S n) pipeline)
| end_no_documents :
    run_end (mkSyncStats 0 0 0 0 0 [] true) (take 4 pipeline)
| end_no_chunks (fetched : Z) :
    0 < fetched ->
    run_end (mkSyncStats fetched 0 0 0 0 [] true) (take 5 pipeline)
| end_no_embeddings (fetched created : Z) :
    0 < fetched -> 0 < created ->
    run_end (mkSyncStats fetched created 0 0 0 [] false) (take 6 pipeline)
| end_uploaded (fetched created embedded uploaded failed : Z) :
    0 < fetched -> 0 < created -> 0 < embedded ->
    run_end (mkSyncStats fetched created embedded uploaded failed [] true)
      pipeline.

(** The first of the keys that [_build_context] reads which [chunk] does not
    have. *)
Definition missing_key (chunk : gmap string string) : option string :=
  match chunk !! "title", chunk !! "author", chunk !! "content" with
  | None, _, _ => Some "title"
  | Some _, None, _ => Some "author"
  | Some _, Some _, None => Some "content"
  | Some _, Some _, Some _ => None
  end.

(** The missing key of the first chunk that lacks one. *)
Fixpoint first_missing_key (chunks : list (gmap string string))
  : option string :=
  match chunks with
  | [] => None
  | chunk :: rest =>
      match missing_key chunk with
      | Some key => Some key
      | None => first_missing_key rest
      end
  end.

(** Services for a question over the unit world: an embedding provider that
    answers every text and a search that retrieves [retrieved_ABA]. *)
Definition embed_any (texts : list string) (w : unit)
  : result (list string) * unit :=
  (Ok (sample_vector <$> texts), w).

Definition hybrid_ABA (query_text query_vector : string) (top_k : Z)
  (filters : option string) (w : unit)
  : result (list (gmap string string)) * unit :=
  (Ok retrieved_ABA, w).

Definition vector_ABA (query_vector : string) (top_k : Z)
  (filters : option string) (w : unit)
  : result (list (gmap string string)) * unit :=
  (Ok retrieved_ABA, w).

(** The documents that the pages [pages] of the space [space_key] parse to,
    in order. *)
Definition parsed_documents {Page : Type}
  (_parse_page : Page -> string -> result Document.t) (space_key : string)
  (pages : list Page) : list Document.t :=
  omap (fun page => match _parse_page page space_key with
                    | Ok doc => Some doc
                    | Raise _ => None
                    end) pages.

(** The warning for a page cannot be logged: the page fails to parse and
    its id cannot be read. *)
Definition broken_page {Page : Type}
  (_parse_page : Page -> string -> result Document.t)
  (page_get_id : Page -> result string) (space_key : string) (page : Page)
  : bool :=
  match _parse_page page space_key, page_get_id page with
  | Raise _, Raise _ => true
  | _, _ => false
  end.

(** The pages in front of the first broken one. *)
Fixpoint until_broken {Page : Type}
  (_parse_page : Page -> string -> result Document.t)
  (page_get_id : Page -> result string) (space_key : string)
  (pages : list Page) : list Page :=
  match pages with
  | [] => []
  | page :: rest =>
      if broken_page _parse_page page_get_id space_key page then []
      else page :: until_broken _parse_page page_get_id space_key rest
  end.




Definition parse_by_id (page space_key : string) : result Document.t :=
  if decide (page = "unparsable") then Raise "'storage'"
  else if decide (page = "not a dict")
  then Raise "'NoneType' object has no attribute 'get'"
  else Ok (Document.Build page "" "" "" "" "confluence" "" "" [] ∅).

Definition id_of_page (page : string) : result string :=
  if decide (page = "not a dict")
  then Raise "'NoneType' object has no attribute 'get'"
  else Ok page.

(** A Confluence that answers every request with the same page and a link
    to a next one. *)
Definition endless (space_key : string) (start limit : Z) (calls : nat)
  : result (ConfluenceConnector.Response string) * nat :=
  (Ok (ConfluenceConnector.BuildResponse ["p1"] true), S calls).

(** * Properties *)

(** ** Strings *)

Lemma append_nil_l (t : string) : "" +:+ t = t.
Proof. reflexivity. Qed.

Lemma append_cons (c : ascii) (s t : string) :
  String c s +:+ t = String c (s +:+ t).
Proof. reflexivity. Qed.

Lemma append_empty_r (s : string) : s +:+ "" = s.
Proof.
  induction s as [|c s IH]; [reflexivity|].
  rewrite append_cons. f_equal. exact IH.
Qed.

Lemma append_assoc (s t u : string) : (s +:+ t) +:+ u = s +:+ (t +:+ u).
Proof.
  induction s as [|c s IH]; [reflexivity|].
  rewrite !append_cons. f_equal. exact IH.
Qed.

Lemma chars_append (s t : string) :
  list_ascii_of_string (s +:+ t)
  = list_ascii_of_string s ++ list_ascii_of_string t.
Proof.
  induction s as [|c s IH]; [reflexivity|].
  rewrite append_cons. simpl. f_equal. exact IH.
Qed.

(** ** TextCleaner *)

(** After the first substitution the only white space left is the space
    character. *)
Lemma collapse_whitespace_go_chars (in_run : bool) (s : string) (c : ascii) :
  In c (list_ascii_of_string (collapse_whitespace_go in_run s)) ->
  is_space c = true -> c = " "%char.
Proof.
  revert in_run.
  induction s as [|d s IH]; intros in_run Hin Hsp; simpl in Hin; [tauto|].
  destruct (is_space d) eqn:Hd.
  - destruct in_run; simpl in Hin.
    + eauto.
    + destruct Hin as [<-|Hin]; [reflexivity | eauto].
  - simpl in Hin. destruct Hin as [<-|Hin]; [congruence | eauto].
Qed.

Lemma remove_control_chars (s : string) (c : ascii) :
  In c (list_ascii_of_string (remove_control s)) ->
  In c (list_ascii_of_string s).
Proof.
  induction s as [|d s IH]; simpl; [tauto|].
  destruct (is_control d); simpl; intuition.
Qed.

Lemma replace_crlf_id (s : string) :
  ~ In CR (list_ascii_of_string s) -> replace_crlf s = s.
Proof.
  induction s as [|c s IH]; intros Hno; [reflexivity|].
  simpl in Hno.
  assert (Hc : Ascii.eqb c CR = false).
  { apply Ascii.eqb_neq. intros ->. apply Hno. now left. }
  cbn [replace_crlf]. destruct s as [|d s]; [reflexivity|].
  rewrite Hc. cbn [andb]. f_equal. apply IH. intros H. apply Hno. now right.
Qed.

Lemma replace_cr_id (s : string) :
  ~ In CR (list_ascii_of_string s) -> replace_cr s = s.
Proof.
  induction s as [|c s IH]; intros Hno; [reflexivity|].
  simpl in Hno. simpl.
  assert (Hc : Ascii.eqb c CR = false).
  { apply Ascii.eqb_neq. intros ->. apply Hno. now left. }
  rewrite Hc. f_equal. apply IH. intros H. apply Hno. now right.
Qed.

Lemma squeeze_newlines_id (s : string) :
  ~ In LF (list_ascii_of_string s) -> squeeze_newlines s = s.
Proof.
  unfold squeeze_newlines.
  induction s as [|c s IH]; intros Hno; [reflexivity|].
  simpl in Hno. cbn [squeeze_newlines_go].
  assert (Hc : Ascii.eqb c LF = false).
  { apply Ascii.eqb_neq. intros ->. apply Hno. now left. }
  rewrite Hc. simpl. rewrite append_nil_l. f_equal.
  apply IH. intros H. apply Hno. now right.
Qed.

Lemma py_lstrip_chars (s : string) (c : ascii) :
  In c (list_ascii_of_string (py_lstrip s)) -> In c (list_ascii_of_string s).
Proof.
  induction s as [|d s IH]; simpl; [tauto|].
  destruct (is_space d); simpl; intuition.
Qed.

Lemma py_rstrip_chars (s : string) (c : ascii) :
  In c (list_ascii_of_string (py_rstrip s)) -> In c (list_ascii_of_string s).
Proof.
  induction s as [|d s IH]; simpl; [tauto|].
  destruct (py_rstrip s) as [|e r] eqn:Hr.
  - destruct (is_space d); simpl; intuition.
  - intros [<-|Hin]; [now left | right; apply IH, Hin].
Qed.

Lemma py_strip_chars (s : string) (c : ascii) :
  In c (list_ascii_of_string (py_strip s)) -> In c (list_ascii_of_string s).
Proof. intros H. now apply py_lstrip_chars, py_rstrip_chars. Qed.

(** No carriage return and no line feed survives the first two steps of
    [clean_text]. *)
Lemma collapsed_no_line_break (text : string) (c : ascii) :
  is_space c = true -> c <> " "%char ->
  ~ In c (list_ascii_of_string (remove_control (collapse_whitespace text))).
Proof.
  intros Hsp Hne Hin. apply Hne.
  eapply collapse_whitespace_go_chars; [|exact Hsp].
  apply remove_control_chars. exact Hin.
Qed.

(** What [clean_text] computes: its line-break steps never change the text. *)
Lemma clean_text_effective (text : string) :
  clean_text text = py_strip (remove_control (collapse_whitespace text)).
Proof.
  unfold clean_text. destruct text as [|c text]; [reflexivity|].
  cbn [str_truthy negb].
  set (t := remove_control (collapse_whitespace (String c text))).
  assert (HCR : ~ In CR (list_ascii_of_string t))
    by (apply collapsed_no_line_break; [reflexivity | discriminate]).
  assert (HLF : ~ In LF (list_ascii_of_string t))
    by (apply collapsed_no_line_break; [reflexivity | discriminate]).
  rewrite (replace_crlf_id t HCR), (replace_cr_id t HCR).
  now rewrite (squeeze_newlines_id t HLF).
Qed.

(** C5 (evaluation of the code where the claim fails): on the input
    "a", three line feeds, "b" the function [clean_text] returns "a b"; more
    generally the result of [clean_text] never contains a line feed, because
    the first substitution has already turned every run of white space, line
    feeds included, into one space. So three or more consecutive newlines do
    not yield two newlines. *)
Theorem clean_text_drops_newlines :
  clean_text ("a" +:+ newlines 3 +:+ "b") = "a b"
  /\ forall text, ~ In LF (list_ascii_of_string (clean_text text)).
Proof.
  split; [reflexivity|].
  intros text Hin. rewrite clean_text_effective in Hin.
  apply py_strip_chars in Hin.
  revert Hin. apply collapsed_no_line_break; [reflexivity | discriminate].
Qed.

(** ** DocumentChunker.chunk_text: progress of the loop *)

Section ChunkTextLoop.

Variable chunk_size chunk_overlap : Z.

(** With [chunk_overlap >= chunk_size] the position never moves forward:
    from a position at or before 0 the loop continues for ever. *)
Lemma chunk_text_loop_stuck (words : list string) :
  0 < py_len words -> chunk_size < py_len words -> chunk_size <= chunk_overlap ->
  forall fuel start chunks, start <= 0 ->
    chunk_text_loop chunk_size chunk_overlap fuel words (start, chunks) = None.
Proof.
  intros Hpos Hlen Hov fuel.
  induction fuel as [|fuel IH]; intros start chunks Hstart; [reflexivity|].
  cbn [chunk_text_loop chunk_text_body].
  destruct (Z.ltb_spec start (py_len words)) as [_|?]; [|lia].
  destruct (Z.leb_spec (start + chunk_size - chunk_overlap)
              (py_len words - chunk_size)) as [_|?]; [|lia].
  apply IH. lia.
Qed.

(** [chunk_text] never returns on a text of more than [chunk_size] words when
    [chunk_overlap >= chunk_size]. *)
Lemma chunk_text_diverges (text : string) :
  0 < py_len (py_split text) -> chunk_size < py_len (py_split text) ->
  chunk_size <= chunk_overlap ->
  forall fuel, chunk_text chunk_size chunk_overlap fuel text = None.
Proof.
  intros Hpos Hlen Hov fuel. unfold chunk_text.
  destruct text as [|c text]; [cbv in Hpos; discriminate|].
  cbn [str_truthy negb].
  destruct (Z.leb_spec (py_len (py_split (String c text))) chunk_size); [lia|].
  now apply chunk_text_loop_stuck.
Qed.

(** With [chunk_overlap < chunk_size] every pass moves the position forward,
    so the loop is left after at most [len(words) - start + 1] tests of its
    condition. *)
Lemma chunk_text_loop_terminates (words : list string) :
  chunk_overlap < chunk_size ->
  forall fuel start chunks,
    (Z.to_nat (py_len words - start) < fuel)%nat ->
    exists result,
      chunk_text_loop chunk_size chunk_overlap fuel words (start, chunks)
      = Some result.
Proof.
  intros Hov fuel.
  induction fuel as [|fuel IH]; intros start chunks Hfuel; [lia|].
  cbn [chunk_text_loop chunk_text_body].
  destruct (Z.ltb_spec start (py_len words)) as [Hlt|?]; [|eauto].
  destruct (Z.leb_spec (start + chunk_size - chunk_overlap)
              (py_len words - chunk_size)) as [_|?].
  - apply IH. lia.
  - destruct (start + chunk_size - chunk_overlap <? py_len words); eauto.
Qed.

Lemma chunk_text_terminates (text : string) :
  chunk_overlap < chunk_size ->
  exists result,
    chunk_text chunk_size chunk_overlap (S (length (py_split text))) text
    = Some result.
Proof.
  intros Hov. unfold chunk_text.
  destruct (negb (str_truthy text)); [eauto|].
  destruct (py_len (py_split text) <=? chunk_size); [eauto|].
  apply chunk_text_loop_terminates; [exact Hov|]. unfold py_len. lia.
Qed.

(** More fuel does not change a result. *)
Lemma chunk_text_loop_fuel_mono (words : list string) :
  forall fuel fuel' st result, (fuel <= fuel')%nat ->
    chunk_text_loop chunk_size chunk_overlap fuel words st = Some result ->
    chunk_text_loop chunk_size chunk_overlap fuel' words st = Some result.
Proof.
  induction fuel as [|fuel IH]; intros fuel' st result Hle H; [discriminate|].
  destruct fuel' as [|fuel']; [lia|].
  cbn [chunk_text_loop] in *.
  destruct (chunk_text_body chunk_size chunk_overlap words st); [|exact H].
  apply IH; [lia | exact H].
Qed.

End ChunkTextLoop.

(** C2 (evaluation of the code where the claim fails): with [chunk_size = 2]
    and [chunk_overlap = 2] the call [chunk_text("a b c")] does not return,
    whatever number of loop iterations is allowed: the configuration is not
    rejected before the loop and the loop makes no forward progress. *)
Theorem chunk_text_overlap_equal_size_never_returns :
  forall fuel, chunk_text 2 2 fuel "a b c" = None.
Proof.
  intros fuel. apply chunk_text_diverges; [reflexivity | reflexivity | lia].
Qed.

(** ** DocumentChunker.chunk_by_sentences: size of the chunks *)

(** C1 (evaluation of the code where the claim fails): with [chunk_size = 4]
    and [chunk_overlap = 1] the text "a b c d. e f g h." consists of two
    sentences of four words each, none longer than [chunk_size], and
    [chunk_by_sentences] returns the chunks "a b c d." and "d. e f g h.";
    the second one has five words, one more than [chunk_size], because the
    overlap word is put in front of a sentence that already fills a chunk. *)
Theorem chunk_by_sentences_overlap_exceeds_chunk_size :
  forall fuel,
    chunk_by_sentences 4 1 fuel "a b c d. e f g h."
    = Some ["a b c d."; "d. e f g h."]
    /\ Forall (fun sentence => py_len (py_split sentence) <= 4)
         (split_sentences "a b c d. e f g h.")
    /\ py_len (py_split "d. e f g h.") = 5.
Proof.
  intros fuel. split; [reflexivity|]. split; [|reflexivity].
  repeat constructor; cbv; discriminate.
Qed.

(** ** Termination of chunk_by_sentences and process_document *)

Section SentenceLoop.

Variable chunk_size chunk_overlap : Z.

Lemma chunk_text_fuel_mono (text : string) (fuel fuel' : nat) result :
  (fuel <= fuel')%nat ->
  chunk_text chunk_size chunk_overlap fuel text = Some result ->
  chunk_text chunk_size chunk_overlap fuel' text = Some result.
Proof.
  intros Hle. unfold chunk_text.
  destruct (negb (str_truthy text)); [tauto|].
  destruct (py_len (py_split text) <=? chunk_size); [tauto|].
  now apply chunk_text_loop_fuel_mono.
Qed.

Lemma chunk_by_sentences_body_returns (sentence : string) :
  chunk_overlap < chunk_size ->
  forall fuel st, (length (py_split sentence) < fuel)%nat ->
    exists st',
      chunk_by_sentences_body chunk_size chunk_overlap fuel st sentence
      = Some st'.
Proof.
  intros Hov fuel st Hfuel. unfold chunk_by_sentences_body.
  destruct (_ <=? chunk_size); [eauto|].
  destruct (_ <=? chunk_size); [eauto|].
  destruct (chunk_text_terminates chunk_size chunk_overlap sentence Hov)
    as [result Hres].
  rewrite (chunk_text_fuel_mono sentence (S (length (py_split sentence))) fuel
             result); [eauto | lia | exact Hres].
Qed.

Lemma chunk_by_sentences_loop_returns (sentences : list string) :
  chunk_overlap < chunk_size ->
  forall fuel st, (longest_sentence sentences < fuel)%nat ->
    exists st',
      chunk_by_sentences_loop chunk_size chunk_overlap fuel st sentences
      = Some st'.
Proof.
  intros Hov fuel.
  induction sentences as [|sentence rest IH]; intros st Hfuel; [simpl; eauto|].
  cbn [longest_sentence foldr] in Hfuel. fold (longest_sentence rest) in Hfuel.
  cbn [chunk_by_sentences_loop].
  destruct (chunk_by_sentences_body_returns sentence Hov fuel st) as [st' ->];
    [lia|].
  apply IH. lia.
Qed.

Lemma chunk_by_sentences_terminates (text : string) :
  chunk_overlap < chunk_size ->
  exists result,
    chunk_by_sentences chunk_size chunk_overlap
      (S (longest_sentence (split_sentences text))) text = Some result.
Proof.
  intros Hov. unfold chunk_by_sentences.
  destruct (negb (str_truthy text)); [eauto|].
  destruct (chunk_by_sentences_loop_returns (split_sentences text) Hov
              (S (longest_sentence (split_sentences text)))
              (SentenceState [] [] 0)) as [st' ->]; [lia | eauto].
Qed.

(** [process_document] returns whenever [chunk_overlap < chunk_size]. *)
Lemma process_document_terminates (document : Document.t) :
  chunk_overlap < chunk_size ->
  exists fuel processed_chunks,
    process_document chunk_size chunk_overlap fuel document
    = Some processed_chunks.
Proof.
  intros Hov.
  exists (S (longest_sentence
               (split_sentences (clean_text (Document.content document))))).
  unfold process_document.
  destruct (negb (str_truthy _)); [eauto|].
  destruct (chunk_by_sentences_terminates
              (clean_text (Document.content document)) Hov) as [result ->].
  destruct (negb (list_truthy result)); eauto.
Qed.

End SentenceLoop.

(** ** DocumentParser.process_document: identity of the chunks *)

(** C8: when [process_document] turns a document into the [n >= 1] chunks
    [processed_chunks], their [chunk_index] values are 0, 1, ..., n-1 in this
    order, each has [total_chunks = n], and the chunk at position [i] has the
    id "<document.id>_chunk_<i>". *)
Theorem process_document_chunk_identity
  (chunk_size chunk_overlap : Z) (fuel : nat) (document : Document.t)
  (processed_chunks : list ProcessedChunk.t) :
  process_document chunk_size chunk_overlap fuel document = Some processed_chunks ->
  (1 <= length processed_chunks)%nat ->
  ProcessedChunk.chunk_index <$> processed_chunks
    = Z.of_nat <$> seq 0 (length processed_chunks)
  /\ Forall (fun pc => ProcessedChunk.total_chunks pc = py_len processed_chunks)
       processed_chunks
  /\ forall (i : nat) (pc : ProcessedChunk.t),
       processed_chunks !! i = Some pc ->
       ProcessedChunk.chunk_index pc = Z.of_nat i
       /\ ProcessedChunk.id pc
          = Document.id document +:+ "_chunk_" +:+ str_of_nat i.
Proof.
  intros Hrun Hn. unfold process_document in Hrun.
  destruct (negb (str_truthy _)).
  { injection Hrun as <-. simpl in Hn. lia. }
  destruct (chunk_by_sentences _ _ _ _) as [chunks|]; [|discriminate].
  destruct (negb (list_truthy chunks)).
  { injection Hrun as <-. simpl in Hn. lia. }
  injection Hrun as <-.
  assert (Hlook : forall i pc,
    imap (make_processed_chunk document (py_len chunks)) chunks !! i = Some pc ->
    exists c, chunks !! i = Some c
              /\ pc = make_processed_chunk document (py_len chunks) i c).
  { intros i pc H. rewrite list_lookup_imap in H.
    destruct (chunks !! i) as [c|]; [|discriminate].
    injection H as <-. eauto. }
  split; [|split].
  - apply list_eq. intros i.
    rewrite !list_lookup_fmap, length_imap, list_lookup_imap.
    destruct (chunks !! i) as [c|] eqn:Hc; simpl.
    + rewrite lookup_seq_lt; [reflexivity|].
      apply lookup_lt_Some in Hc. exact Hc.
    + rewrite lookup_seq_ge; [reflexivity|].
      apply lookup_ge_None in Hc. lia.
  - apply Forall_lookup. intros i pc H.
    destruct (Hlook i pc H) as (c & _ & ->).
    unfold py_len. rewrite length_imap. reflexivity.
  - intros i pc H. destruct (Hlook i pc H) as (c & _ & ->). split; reflexivity.
Qed.

(** C3: with [chunk_size = 4] and [chunk_overlap = 1], the document with id
    "d1" and content "Sentence one. Sentence two. Sentence three." is turned
    into exactly two chunks: "d1_chunk_0" with content
    "Sentence one. Sentence two." and index 0, and "d1_chunk_1" with content
    "two. Sentence three." (the overlap word "two." first) and index 1, both
    with [total_chunks = 2]; the remaining fields are copied from the
    document. *)
Theorem process_document_worked_example :
  forall (fuel : nat) (title url author source created_date
          modified_date : string) (tags : list string)
         (metadata : gmap string string),
    process_document 4 1 fuel
      (worked_document title url author source created_date modified_date
         tags metadata)
    = Some
        [worked_chunk title url author source created_date modified_date tags
           metadata "d1_chunk_0" "Sentence one. Sentence two." 0;
         worked_chunk title url author source created_date modified_date tags
           metadata "d1_chunk_1" "two. Sentence three." 1].
Proof. intros. reflexivity. Qed.

Lemma process_document_chunk_identity_witness :
  let document := worked_document "" "" "" "" "" "" [] ∅ in
  let processed_chunks :=
    [worked_chunk "" "" "" "" "" "" [] ∅ "d1_chunk_0"
       "Sentence one. Sentence two." 0;
     worked_chunk "" "" "" "" "" "" [] ∅ "d1_chunk_1"
       "two. Sentence three." 1] in
  process_document 4 1 0 document = Some processed_chunks
  /\ (1 <= length processed_chunks)%nat
  /\ (ProcessedChunk.chunk_index <$> processed_chunks
        = Z.of_nat <$> seq 0 (length processed_chunks)
      /\ Forall (fun pc => ProcessedChunk.total_chunks pc = py_len processed_chunks)
           processed_chunks
      /\ forall (i : nat) (pc : ProcessedChunk.t),
           processed_chunks !! i = Some pc ->
           ProcessedChunk.chunk_index pc = Z.of_nat i
           /\ ProcessedChunk.id pc
              = Document.id document +:+ "_chunk_" +:+ str_of_nat i).
Proof.
  intros document processed_chunks.
  split; [reflexivity|]. split; [simpl; lia|].
  apply (process_document_chunk_identity 4 1 0 document processed_chunks);
    [reflexivity | simpl; lia].
Defined.

(** ** str.split and str.join *)

Lemma space_free_empty : space_free "".
Proof. intros c []. Qed.

Lemma space_free_append_char (s : string) (c : ascii) :
  space_free s -> is_space c = false -> space_free (s +:+ String c "").
Proof.
  intros Hs Hc d Hd. rewrite chars_append in Hd.
  apply in_app_or in Hd as [Hd|[<-|[]]]; [now apply Hs | exact Hc].
Qed.

(** [str.split()] returns words. *)
Lemma py_split_go_words (s cur : string) :
  space_free cur -> Forall is_word (py_split_go cur s).
Proof.
  revert cur. induction s as [|c s IH]; intros cur Hcur; cbn [py_split_go].
  - destruct (str_truthy cur) eqn:Ht; repeat constructor; assumption.
  - destruct (is_space c) eqn:Hc.
    + destruct (str_truthy cur) eqn:Ht.
      * constructor; [split; assumption|]. apply IH, space_free_empty.
      * apply IH, space_free_empty.
    + apply IH. now apply space_free_append_char.
Qed.

Lemma py_split_words (s : string) : Forall is_word (py_split s).
Proof. apply py_split_go_words, space_free_empty. Qed.

Lemma py_split_go_word_prefix (w rest cur : string) :
  space_free w -> py_split_go cur (w +:+ rest) = py_split_go (cur +:+ w) rest.
Proof.
  revert cur. induction w as [|c w IH]; intros cur Hw.
  - now rewrite append_nil_l, append_empty_r.
  - rewrite append_cons. cbn [py_split_go].
    rewrite (Hw c) by now left.
    rewrite IH by (intros d Hd; apply Hw; now right).
    now rewrite append_assoc.
Qed.

(** Splitting the words joined by single spaces gives the words back. *)
Lemma py_split_join (ws : list string) :
  Forall is_word ws -> py_split (py_join " " ws) = ws.
Proof.
  unfold py_split. induction 1 as [|w ws [Ht Hw] Hws IH]; [reflexivity|].
  destruct ws as [|w2 ws].
  - cbn [py_join]. rewrite <- (append_empty_r w) at 1.
    rewrite py_split_go_word_prefix, append_nil_l by exact Hw.
    cbn [py_split_go]. now rewrite Ht.
  - change (py_join " " (w :: w2 :: ws))
      with (w +:+ " " +:+ py_join " " (w2 :: ws)).
    rewrite py_split_go_word_prefix, append_nil_l by exact Hw.
    change (" " +:+ py_join " " (w2 :: ws))
      with (String " " (py_join " " (w2 :: ws))).
    cbn [py_split_go]. change (is_space " ") with true. cbn iota.
    rewrite Ht. f_equal. exact IH.
Qed.

(** ** List slices inside the bounds *)

Lemma list_truthy_length {A} (l : list A) :
  (0 < length l)%nat -> list_truthy l = true.
Proof. destruct l; simpl; [lia | reflexivity]. Qed.

Lemma py_slice_in_range {A} (l : list A) (a b : Z) :
  0 <= a -> a <= b -> b <= py_len l ->
  py_slice l a b = take (Z.to_nat (b - a)) (drop (Z.to_nat a) l).
Proof.
  intros Ha Hab Hb. unfold py_slice, slice_bound.
  destruct (Z.ltb_spec a 0); [lia|]. destruct (Z.ltb_spec b 0); [lia|].
  now rewrite !Z.min_l by lia.
Qed.

Lemma py_slice_from_in_range {A} (l : list A) (a : Z) :
  0 <= a -> a <= py_len l -> py_slice_from l a = drop (Z.to_nat a) l.
Proof.
  intros Ha Hb. unfold py_slice_from, slice_bound.
  destruct (Z.ltb_spec a 0); [lia|]. now rewrite Z.min_l by lia.
Qed.

(** ** DocumentChunker.chunk_text: the windows cover the words *)

Section ChunkTextWindows.

Variable chunk_size chunk_overlap : Z.
Variable words : list string.
Hypothesis overlap_nonneg : 0 <= chunk_overlap.
Hypothesis overlap_below_size : chunk_overlap < chunk_size.
Hypothesis words_are_words : Forall is_word words.

(** Started at a position where a full window fits, the loop appends the
    full window of that position and then chunks whose words, each without
    its first [chunk_overlap] words, are exactly the words after the
    window. *)
Lemma chunk_text_loop_windows :
  forall fuel start acc out,
    0 <= start -> start + chunk_size <= py_len words ->
    chunk_text_loop chunk_size chunk_overlap fuel words (start, acc) = Some out ->
    exists rest,
      out = acc ++ py_join " " (take (Z.to_nat chunk_size)
                                  (drop (Z.to_nat start) words)) :: rest
      /\ concat (drop (Z.to_nat chunk_overlap) <$> (py_split <$> rest))
         = drop (Z.to_nat start + Z.to_nat chunk_size) words.
Proof.
  induction fuel as [|fuel IH]; intros start acc out Hs Hfit Hrun; [discriminate|].
  cbn [chunk_text_loop chunk_text_body] in Hrun.
  destruct (Z.ltb_spec start (py_len words)) as [_|?]; [|lia].
  rewrite py_slice_in_range in Hrun by lia.
  replace (start + chunk_size - start) with chunk_size in Hrun by lia.
  assert (Hlen : py_len words = Z.of_nat (length words)) by reflexivity.
  assert (Hnext : Z.to_nat (start + chunk_size - chunk_overlap)
                  = (Z.to_nat start + Z.to_nat chunk_size
                     - Z.to_nat chunk_overlap)%nat) by lia.
  destruct (Z.leb_spec (start + chunk_size - chunk_overlap)
              (py_len words - chunk_size)) as [Hcont|Hlast].
  - (* a further full window *)
    apply IH in Hrun as (rest & -> & Hrest); [|lia..].
    eexists. split; [now rewrite <- app_assoc|].
    cbn [fmap list_fmap concat]. rewrite py_split_join
      by now apply Forall_take, Forall_drop.
    rewrite Hrest, skipn_firstn_comm, drop_drop, Hnext.
    replace (Z.to_nat start + Z.to_nat chunk_size - Z.to_nat chunk_overlap
             + Z.to_nat chunk_overlap)%nat
      with (Z.to_nat start + Z.to_nat chunk_size)%nat by lia.
    replace (Z.to_nat start + Z.to_nat chunk_size - Z.to_nat chunk_overlap
             + Z.to_nat chunk_size)%nat
      with (Z.to_nat start + Z.to_nat chunk_size
            + (Z.to_nat chunk_size - Z.to_nat chunk_overlap))%nat by lia.
    rewrite <- (drop_drop words (Z.to_nat chunk_size - Z.to_nat chunk_overlap)
                  (Z.to_nat start + Z.to_nat chunk_size)).
    apply take_drop.
  - destruct (Z.ltb_spec (start + chunk_size - chunk_overlap) (py_len words))
      as [Hin|Hout].
    + (* the remaining words form the last chunk *)
      rewrite py_slice_from_in_range in Hrun by lia.
      rewrite list_truthy_length in Hrun by (rewrite length_drop; lia).
      injection Hrun as <-.
      eexists. split; [now rewrite <- app_assoc|].
      cbn [fmap list_fmap concat]. rewrite app_nil_r.
      rewrite py_split_join by now apply Forall_drop.
      rewrite drop_drop. f_equal. lia.
    + (* the window ended exactly at the last word *)
      injection Hrun as <-. exists []. split; [reflexivity|].
      cbn [fmap list_fmap concat]. symmetry. apply drop_ge. lia.
Qed.

End ChunkTextWindows.

(** C4, amended to [0 <= chunk_overlap < chunk_size]: [chunk_text] returns,
    and reading its chunks one after the other while skipping the first
    [chunk_overlap] words of every chunk but the first gives exactly the
    words of the input in their order; so every word is reproduced, the last
    ones included. *)
Theorem chunk_text_covers_words (chunk_size chunk_overlap : Z) (text : string) :
  0 <= chunk_overlap -> chunk_overlap < chunk_size ->
  exists chunks,
    chunk_text chunk_size chunk_overlap (S (length (py_split text))) text
    = Some chunks
    /\ stitch (Z.to_nat chunk_overlap) (py_split <$> chunks) = py_split text.
Proof.
  intros Hnonneg Hov.
  destruct (chunk_text_terminates chunk_size chunk_overlap text Hov)
    as [chunks Hrun].
  exists chunks. split; [exact Hrun|].
  unfold chunk_text in Hrun.
  destruct text as [|c text]; [now injection Hrun as <-|].
  cbn [str_truthy negb] in Hrun.
  destruct (Z.leb_spec (py_len (py_split (String c text))) chunk_size)
    as [_|Hlong].
  - injection Hrun as <-. cbn [fmap list_fmap stitch concat]. apply app_nil_r.
  - apply (chunk_text_loop_windows chunk_size chunk_overlap _ Hnonneg Hov
             (py_split_words _)) in Hrun as (rest & -> & Hrest); [|lia..].
    cbn [app fmap list_fmap stitch]. rewrite Hrest.
    rewrite py_split_join by apply Forall_take, py_split_words.
    change (Z.to_nat 0) with O. rewrite drop_0. apply take_drop.
Qed.

Lemma chunk_text_covers_words_witness :
  0 <= 1 /\ 1 < 3
  /\ exists chunks,
       chunk_text 3 1 (S (length (py_split "a b c d e f g h")))
         "a b c d e f g h" = Some chunks
       /\ stitch (Z.to_nat 1) (py_split <$> chunks)
          = py_split "a b c d e f g h".
Proof.
  split; [lia|]. split; [lia|].
  apply (chunk_text_covers_words 3 1 "a b c d e f g h"); lia.
Defined.

(** C4 as stated fails for a negative overlap, which also satisfies
    [chunk_overlap < chunk_size]: with [chunk_size = 2] and
    [chunk_overlap = -1] the windows lie three words apart, and the word "c"
    of "a b c d e f g" is in no chunk. *)
Lemma chunk_text_negative_overlap_skips_words :
  -1 < 2
  /\ chunk_text 2 (-1) 8 "a b c d e f g" = Some ["a b"; "d e"; "g"]
  /\ In "c" (py_split "a b c d e f g")
  /\ ~ In "c" (concat (py_split <$> ["a b"; "d e"; "g"])).
Proof.
  split; [lia|]. split; [reflexivity|]. split.
  - cbv. tauto.
  - cbv. intros H. repeat (destruct H as [H|H]; [discriminate|]). exact H.
Qed.

(** ** ChatService._extract_sources *)

Lemma str_truthy_true (s : string) : str_truthy s = true <-> s <> "".
Proof. destruct s; simpl; split; congruence. Qed.

Lemma source_url_entry (title url author source : string) :
  source_url (source_entry title url author source) = url.
Proof.
  unfold source_url, source_entry, dict_get.
  rewrite lookup_insert_ne by discriminate.
  now rewrite lookup_insert_eq.
Qed.

Lemma source_url_of_chunk (chunk : gmap string string) :
  source_url (source_of_chunk chunk) = chunk_url chunk.
Proof. apply source_url_entry. Qed.

(** The loop in terms of [first_occurrence]: [before] are the chunks already
    visited and [seen_urls] holds their non-empty urls. *)
Lemma _extract_sources_loop_first_seen :
  forall (rest before : list (gmap string string))
         (sources : list (gmap string string)) (seen_urls : gset string),
    (forall u, u ∈ seen_urls <-> u <> "" /\ u ∈ (chunk_url <$> before)) ->
    _extract_sources_loop rest sources seen_urls
    = sources
      ++ (source_of_chunk <$>
          (snd <$> filter (fun ic => first_occurrence (before ++ rest)
                                       (fst ic) (snd ic))
                     (imap (fun i chunk => ((length before + i)%nat, chunk))
                        rest))).
Proof.
  induction rest as [|chunk rest IH]; intros before sources seen_urls Hseen.
  - simpl. now rewrite app_nil_r.
  - cbn [_extract_sources_loop imap].
    fold (chunk_url chunk). rewrite filter_cons. cbn [fst snd].
    assert (Htake : take (length before + 0) (before ++ chunk :: rest) = before).
    { rewrite Nat.add_0_r. now rewrite take_app_length. }
    assert (Himap :
      imap ((fun i c => ((length before + i)%nat, c)) ∘ S) rest
      = imap (fun i c => ((length (before ++ [chunk]) + i)%nat, c)) rest).
    { apply imap_ext. intros i c _. simpl. rewrite length_app. simpl.
      f_equal. lia. }
    rewrite Himap. clear Himap.
    replace (before ++ chunk :: rest) with ((before ++ [chunk]) ++ rest)
      by now rewrite <- app_assoc.
    destruct (str_truthy (chunk_url chunk)
              && bool_decide (chunk_url chunk ∉ seen_urls)) eqn:Hcond.
    + apply andb_prop in Hcond as [Ht Hnew].
      apply str_truthy_true in Ht. apply bool_decide_eq_true in Hnew.
      rewrite (IH (before ++ [chunk])).
      * rewrite decide_True.
        { cbn [fmap list_fmap snd]. now rewrite <- app_assoc. }
        split; [exact Ht|].
        rewrite <- app_assoc. cbn [app]. rewrite Htake.
        intros Hin. apply Hnew, Hseen. now split.
      * intros u. rewrite fmap_app, elem_of_app, elem_of_union, Hseen.
        cbn [fmap list_fmap]. rewrite elem_of_singleton, list_elem_of_singleton.
        split; [intros [-> | [Hu Hin]]; auto | intros [Hu [Hin | Heq]]; auto].
    + rewrite (IH (before ++ [chunk])).
      * rewrite decide_False; [reflexivity|].
        intros [Ht Hnew]. rewrite <- app_assoc in Hnew. cbn [app] in Hnew.
        rewrite Htake in Hnew.
        apply andb_false_iff in Hcond as [Hc|Hc].
        { apply str_truthy_true in Ht. congruence. }
        apply bool_decide_eq_false in Hc. apply Hc. intros Hin.
        apply Hnew, Hseen, Hin.
      * intros u. rewrite fmap_app, elem_of_app, Hseen.
        cbn [fmap list_fmap]. rewrite list_elem_of_singleton.
        split; [intros [? ?]; auto|].
        intros [Hu [Hin | ->]]; [auto|].
        apply andb_false_iff in Hcond as [Hc|Hc].
        { exfalso. apply Hu. destruct (chunk_url chunk); [reflexivity|discriminate]. }
        apply bool_decide_eq_false in Hc. apply dec_stable in Hc.
        now apply Hseen.
Qed.

Lemma _extract_sources_first_seen (chunks : list (gmap string string)) :
  _extract_sources chunks = source_of_chunk <$> first_seen chunks.
Proof.
  unfold _extract_sources, first_seen.
  rewrite (_extract_sources_loop_first_seen chunks [] [] ∅).
  - reflexivity.
  - intros u. cbn [fmap list_fmap]. rewrite elem_of_nil, elem_of_empty. tauto.
Qed.

(** The urls of the entries stay pairwise different. *)
Lemma _extract_sources_loop_NoDup :
  forall (rest sources : list (gmap string string)) (seen_urls : gset string),
    NoDup (source_url <$> sources) ->
    (forall u, u ∈ (source_url <$> sources) -> u ∈ seen_urls) ->
    NoDup (source_url <$> _extract_sources_loop rest sources seen_urls).
Proof.
  induction rest as [|chunk rest IH]; intros sources seen_urls Hnd Hsub;
    [exact Hnd|].
  cbn [_extract_sources_loop].
  destruct (str_truthy (dict_get chunk "url" "")
            && bool_decide (dict_get chunk "url" "" ∉ seen_urls)) eqn:Hcond.
  - apply andb_prop in Hcond as [_ Hnew]. apply bool_decide_eq_true in Hnew.
    apply IH.
    + rewrite fmap_app. cbn [fmap list_fmap]. rewrite source_url_entry.
      apply NoDup_app. split; [exact Hnd|]. split.
      * intros u Hu Hin. apply list_elem_of_singleton in Hin as ->.
        apply Hnew, Hsub, Hu.
      * apply NoDup_singleton.
    + intros u. rewrite fmap_app, elem_of_app, elem_of_union.
      cbn [fmap list_fmap]. rewrite source_url_entry, list_elem_of_singleton,
        elem_of_singleton.
      intros [Hu | ->]; auto.
  - now apply IH.
Qed.

(** Every url has a first occurrence. *)
Lemma first_occurrence_exists (chunks : list (gmap string string)) (u : string) :
  u ∈ (chunk_url <$> chunks) ->
  exists i chunk, chunks !! i = Some chunk /\ chunk_url chunk = u
                  /\ u ∉ (chunk_url <$> take i chunks).
Proof.
  induction chunks as [|c chunks IH]; cbn [fmap list_fmap].
  - intros H. apply elem_of_nil in H as [].
  - intros H. destruct (decide (chunk_url c = u)) as [Heq|Hne].
    + exists O, c. repeat split; [exact Heq|]. cbn. apply not_elem_of_nil.
    + apply elem_of_cons in H as [Hu|Hu]; [congruence|].
      destruct (IH Hu) as (i & chunk & Hi & Hurl & Hfirst).
      exists (S i), chunk. repeat split; [exact Hi | exact Hurl|].
      cbn [take fmap list_fmap]. rewrite not_elem_of_cons. split; [congruence|].
      exact Hfirst.
Qed.

Lemma first_seen_urls (chunks : list (gmap string string)) (u : string) :
  u ∈ (chunk_url <$> first_seen chunks)
  <-> u <> "" /\ u ∈ (chunk_url <$> chunks).
Proof.
  unfold first_seen. rewrite list_elem_of_fmap. split.
  - intros (c & -> & Hc). apply list_elem_of_fmap in Hc as ([i c'] & -> & Hic).
    apply list_elem_of_filter in Hic as [[Hne _] Hin]. cbn [fst snd] in *.
    split; [exact Hne|].
    apply list_elem_of_lookup in Hin as [j Hj].
    rewrite list_lookup_imap in Hj.
    destruct (chunks !! j) as [c''|] eqn:Hcj; [|discriminate].
    injection Hj as -> ->. apply list_elem_of_fmap. exists c'.
    split; [reflexivity|]. eapply list_elem_of_lookup_2, Hcj.
  - intros [Hne Hu].
    destruct (first_occurrence_exists chunks u Hu) as (i & c & Hi & Hurl & Hfirst).
    exists c. split; [now symmetry|]. apply list_elem_of_fmap. exists (i, c).
    split; [reflexivity|]. apply list_elem_of_filter. cbn [fst snd]. split.
    + split; congruence.
    + apply list_elem_of_lookup. exists i. rewrite list_lookup_imap, Hi.
      reflexivity.
Qed.

(** C9: the sources list holds, in retrieval order, the entry of every chunk
    that is the first one with its url, nothing else; its urls are pairwise
    different and are exactly the non-empty urls of the retrieved chunks; and
    chunks with the urls A, B, A yield the entries of the first and the
    second chunk, in this order. *)
Theorem extract_sources_first_per_url :
  forall chunks : list (gmap string string),
    _extract_sources chunks = source_of_chunk <$> first_seen chunks
    /\ NoDup (source_url <$> _extract_sources chunks)
    /\ (forall u, u ∈ (source_url <$> _extract_sources chunks)
                  <-> u <> "" /\ u ∈ (chunk_url <$> chunks))
    /\ _extract_sources retrieved_ABA
       = [source_entry "first" "A" "someone" "confluence";
          source_entry "second" "B" "someone" "confluence"].
Proof.
  intros chunks. split; [apply _extract_sources_first_seen|]. split; [|split].
  - apply _extract_sources_loop_NoDup; [constructor|].
    intros u H. cbn in H. apply elem_of_nil in H as [].
  - intros u. rewrite _extract_sources_first_seen.
    assert (Hurls : source_url <$> (source_of_chunk <$> first_seen chunks)
                    = chunk_url <$> first_seen chunks).
    { rewrite <- list_fmap_compose. apply list_fmap_ext.
      intros i c _. apply source_url_of_chunk. }
    rewrite Hurls. apply first_seen_urls.
  - vm_compute. reflexivity.
Qed.

(** ** Chunks without url *)

Lemma url_missing_or_empty_iff (chunk : gmap string string) :
  url_missing_or_empty chunk <-> chunk_url chunk = "".
Proof.
  unfold url_missing_or_empty, chunk_url, dict_get.
  destruct (chunk !! "url") as [u|]; split; try tauto; try congruence.
  - intros [H|H]; congruence.
  - intros ->. now right.
Qed.

(** A chunk whose url is missing or empty leaves the state of the loop as it
    is, wherever it stands in the list. *)
Lemma _extract_sources_loop_skip :
  forall (before after : list (gmap string string)) (chunk : gmap string string)
         (sources : list (gmap string string)) (seen_urls : gset string),
    url_missing_or_empty chunk ->
    _extract_sources_loop (before ++ chunk :: after) sources seen_urls
    = _extract_sources_loop (before ++ after) sources seen_urls.
Proof.
  induction before as [|c before IH]; intros after chunk sources seen_urls Hurl.
  - apply url_missing_or_empty_iff in Hurl. unfold chunk_url in Hurl.
    cbn [app _extract_sources_loop]. now rewrite Hurl.
  - cbn [app _extract_sources_loop].
    destruct (_ && _); now apply IH.
Qed.

Lemma _extract_sources_loop_no_url :
  forall (chunks sources : list (gmap string string)) (seen_urls : gset string),
    Forall url_missing_or_empty chunks ->
    _extract_sources_loop chunks sources seen_urls = sources.
Proof.
  intros chunks.
  induction chunks as [|c chunks IH]; intros sources seen_urls Hall;
    [reflexivity|].
  apply Forall_cons in Hall as [Hc Hall].
  transitivity (_extract_sources_loop chunks sources seen_urls).
  - exact (_extract_sources_loop_skip [] chunks c sources seen_urls Hc).
  - now apply IH.
Qed.

(** ** ChatService._build_context *)

Lemma occurs_in_prefix (sub rest s : string) :
  occurs_in (sub +:+ rest) s -> occurs_in sub s.
Proof.
  intros (before & after & ->). exists before, (rest +:+ after).
  now rewrite append_assoc.
Qed.

Lemma occurs_in_middle (sub s before after : string) :
  occurs_in sub s -> occurs_in sub (before +:+ s +:+ after).
Proof.
  intros (b & a & ->). exists (before +:+ b), (a +:+ after).
  now rewrite !append_assoc.
Qed.

Lemma occurs_in_join (sep : string) (parts : list string) :
  forall i part, parts !! i = Some part -> occurs_in part (py_join sep parts).
Proof.
  induction parts as [|p parts IH]; intros i part Hi; [discriminate|].
  destruct i as [|i]; cbn in Hi.
  - injection Hi as ->. destruct parts as [|q parts]; cbn [py_join].
    + exists "", "". now rewrite append_nil_l, append_empty_r.
    + exists "", (sep +:+ py_join sep (q :: parts)). reflexivity.
  - destruct parts as [|q parts]; [discriminate|].
    change (py_join sep (p :: q :: parts))
      with (p +:+ sep +:+ py_join sep (q :: parts)).
    rewrite <- (append_empty_r (py_join sep (q :: parts))).
    rewrite <- append_assoc. apply occurs_in_middle. eapply IH, Hi.
Qed.

(** Every part of the context starts with its "[Source N]" heading and the
    title of its chunk. *)
Lemma context_part_heading (n : nat) (chunk : gmap string string) (part : string) :
  context_part n chunk = Ok part ->
  exists title rest,
    chunk !! "title" = Some title
    /\ part = ("[Source " +:+ str_of_nat n +:+ "] " +:+ title) +:+ rest.
Proof.
  unfold context_part, dict_item.
  destruct (chunk !! "title") as [title|]; [|discriminate].
  destruct (chunk !! "author") as [author|]; [|discriminate].
  destruct (chunk !! "content") as [content|]; [|discriminate].
  intros H. injection H as <-. exists title. eexists. split; [reflexivity|].
  now rewrite !append_assoc.
Qed.

Lemma context_parts_lookup :
  forall (chunks : list (gmap string string)) (k : nat) (parts : list string),
    context_parts k chunks = Ok parts ->
    forall i chunk, chunks !! i = Some chunk ->
      exists part, parts !! i = Some part
                   /\ context_part (k + i) chunk = Ok part.
Proof.
  intros chunks.
  induction chunks as [|c chunks IH]; intros k parts Hparts i chunk Hi;
    [discriminate|].
  cbn [context_parts] in Hparts.
  destruct (context_part k c) as [part|] eqn:Hpart; [|discriminate].
  destruct (context_parts (S k) chunks) as [rest|] eqn:Hrest; [|discriminate].
  injection Hparts as <-.
  destruct i as [|i]; cbn in Hi.
  - injection Hi as <-. exists part. rewrite Nat.add_0_r. now split.
  - destruct (IH (S k) rest Hrest i chunk Hi) as (part' & Hlook & Hctx).
    exists part'. split; [exact Hlook|].
    now replace (k + S i)%nat with (S k + i)%nat by lia.
Qed.

(** Every chunk is rendered in the context under the heading "[Source N]",
    [N] counting from 1. *)
Lemma _build_context_headings (chunks : list (gmap string string))
  (context : string) :
  _build_context chunks = Ok context ->
  forall i chunk, chunks !! i = Some chunk ->
    exists title,
      chunk !! "title" = Some title
      /\ occurs_in ("[Source " +:+ str_of_nat (S i) +:+ "] " +:+ title) context.
Proof.
  intros Hctx i chunk Hi. unfold _build_context in Hctx.
  destruct chunks as [|c chunks]; [discriminate|].
  cbn [list_truthy negb] in Hctx.
  destruct (context_parts 1 (c :: chunks)) as [parts|] eqn:Hparts; [|discriminate].
  injection Hctx as <-.
  destruct (context_parts_lookup _ _ _ Hparts i chunk Hi) as (part & Hlook & Hpart).
  apply context_part_heading in Hpart as (title & rest & Htitle & ->).
  exists title. split; [exact Htitle|].
  eapply occurs_in_prefix, occurs_in_join, Hlook.
Qed.

(** C10: a retrieved chunk whose url is missing or empty adds no entry to the
    sources list, wherever it stands among the chunks; and when every
    retrieved chunk is of this kind, an answer returned by [generate_answer]
    has [sources = []], although the user message sent to the chat provider
    shows every chunk under its heading "[Source N]" followed by its
    title. *)
Theorem sources_empty_without_urls {World Temperature : Type}
  (completions_create :
     string -> string -> Temperature -> Z -> World -> result ChatResponse * World)
  (deployment_name question : string)
  (context_chunks : list (gmap string string)) (system_prompt : option string)
  (temperature : Temperature) (max_tokens : Z) (w w' : World)
  (answered : AnswerResult) :
  Forall url_missing_or_empty context_chunks ->
  generate_answer completions_create deployment_name question context_chunks
    system_prompt temperature max_tokens w = (Ok answered, w') ->
  sources answered = []
  /\ (forall before chunk after,
        url_missing_or_empty chunk ->
        _extract_sources (before ++ chunk :: after)
        = _extract_sources (before ++ after))
  /\ exists system user response,
       completions_create system user temperature max_tokens w
       = (Ok response, w')
       /\ answer answered = message_content response
       /\ forall i chunk, context_chunks !! i = Some chunk ->
            exists title,
              chunk !! "title" = Some title
              /\ occurs_in ("[Source " +:+ str_of_nat (S i) +:+ "] " +:+ title)
                   user.
Proof.
  intros Hall Hrun. unfold generate_answer in Hrun.
  destruct (_build_context context_chunks) as [context|] eqn:Hctx;
    [|discriminate].
  match type of Hrun with
  | context [completions_create ?s ?u temperature max_tokens w] =>
      set (system := s) in *; set (user := u) in *
  end.
  destruct (completions_create system user temperature max_tokens w)
    as [[response|e] w1] eqn:Hcall; [|discriminate].
  injection Hrun as <- <-. cbn [sources answer]. split; [|split].
  - now apply _extract_sources_loop_no_url.
  - intros before chunk after Hurl. now apply _extract_sources_loop_skip.
  - exists system, user, response. split; [exact Hcall|]. split; [reflexivity|].
    intros i chunk Hi.
    destruct (_build_context_headings context_chunks context Hctx i chunk Hi)
      as (title & Htitle & Hocc).
    exists title. split; [exact Htitle|].
    subst user. unfold _build_user_prompt.
    rewrite <- !append_assoc. rewrite !append_assoc.
    rewrite <- (append_assoc "Context information:" (String LF "")).
    apply occurs_in_middle, Hocc.
Qed.

Lemma sources_empty_without_urls_witness :
  Forall url_missing_or_empty retrieved_without_url
  /\ generate_answer canned_completions "gpt" "Why?" retrieved_without_url
       None tt 1000 tt
     = (Ok (mkAnswerResult "an answer" "gpt" (10, 20, 30) []), tt)
  /\ (sources (mkAnswerResult "an answer" "gpt" (10, 20, 30) []) = []
      /\ (forall before chunk after,
            url_missing_or_empty chunk ->
            _extract_sources (before ++ chunk :: after)
            = _extract_sources (before ++ after))
      /\ exists system user response,
           canned_completions system user tt 1000 tt = (Ok response, tt)
           /\ answer (mkAnswerResult "an answer" "gpt" (10, 20, 30) [])
              = message_content response
           /\ forall i chunk, retrieved_without_url !! i = Some chunk ->
                exists title,
                  chunk !! "title" = Some title
                  /\ occurs_in
                       ("[Source " +:+ str_of_nat (S i) +:+ "] " +:+ title)
                       user).
Proof.
  assert (Hall : Forall url_missing_or_empty retrieved_without_url).
  { constructor; [right; reflexivity|]. constructor; [left; reflexivity|].
    constructor. }
  split; [exact Hall|]. split; [reflexivity|].
  apply (sources_empty_without_urls canned_completions "gpt" "Why?"
           retrieved_without_url None tt 1000 tt tt);
    [exact Hall | reflexivity].
Defined.

(** ** SyncOrchestrator.run_full_sync *)

Section RunFullSync.

Context {World Vector : Type}.
Variable create_or_update_index clear_index connect : World -> result unit * World.
Variable fetch_all_documents : World -> result (list Document.t) * World.
Variable parser_process_documents :
  list Document.t -> World -> result (list ProcessedChunk.t) * World.
Variable service_embed_chunks :
  list ProcessedChunk.t -> World ->
  result (list (ProcessedChunk.t * Vector)) * World.
Variable upload_documents :
  list (ProcessedChunk.t * Vector) -> World -> result (Z * Z) * World.

Local Abbreviation run :=
  (run_full_sync create_or_update_index clear_index connect fetch_all_documents
     parser_process_documents service_embed_chunks upload_documents).

Lemma list_truthy_nonempty {A} (l : list A) : l <> [] -> list_truthy l = true.
Proof. destruct l; [congruence | reflexivity]. Qed.

(** An empty source ends the run with success after the fetch. *)
Lemma run_full_sync_no_documents (w0 w1 w2 w3 w4 : World) :
  create_or_update_index w0 = (Ok tt, w1) -> clear_index w1 = (Ok tt, w2) ->
  connect w2 = (Ok tt, w3) -> fetch_all_documents w3 = (Ok [], w4) ->
  run w0 = (mkSyncStats 0 0 0 0 0 [] true, w4,
            [CreateOrUpdateIndex; ClearIndex; Connect; FetchAllDocuments]).
Proof.
  intros H1 H2 H3 H4. unfold run_full_sync, attempt.
  rewrite H1, H2, H3, H4. reflexivity.
Qed.

(** The outcome of a run up to the embedding step, for what the embedding
    and the upload return. *)
Lemma run_full_sync_embedded (w0 w1 w2 w3 w4 w5 w6 : World)
  (documents : list Document.t) (chunks : list ProcessedChunk.t)
  (embedded : list (ProcessedChunk.t * Vector)) :
  create_or_update_index w0 = (Ok tt, w1) -> clear_index w1 = (Ok tt, w2) ->
  connect w2 = (Ok tt, w3) -> fetch_all_documents w3 = (Ok documents, w4) ->
  documents <> [] ->
  parser_process_documents documents w4 = (Ok chunks, w5) -> chunks <> [] ->
  service_embed_chunks chunks w5 = (Ok embedded, w6) ->
  let before_upload :=
    [CreateOrUpdateIndex; ClearIndex; Connect; FetchAllDocuments;
     ProcessDocuments; EmbedChunks] in
  run w0 =
    if list_truthy embedded then
      match upload_documents embedded w6 with
      | (Ok (uploaded, failed), w7) =>
          (mkSyncStats (py_len documents) (py_len chunks) (py_len embedded)
             uploaded failed [] true, w7, before_upload ++ [UploadDocuments])
      | (Raise e, w7) =>
          (mkSyncStats (py_len documents) (py_len chunks) (py_len embedded)
             0 0 ["Fatal error during sync: " +:+ e] false, w7,
           before_upload ++ [UploadDocuments])
      end
    else
      (mkSyncStats (py_len documents) (py_len chunks) (py_len embedded)
         0 0 [] false, w6, before_upload).
Proof.
  intros H1 H2 H3 H4 Hdocs H5 Hchunks H6 before_upload.
  unfold run_full_sync, attempt.
  rewrite H1, H2, H3, H4. cbn [negb].
  rewrite (list_truthy_nonempty documents Hdocs). cbn [negb].
  rewrite H5. rewrite (list_truthy_nonempty chunks Hchunks). cbn [negb].
  rewrite H6. destruct (list_truthy embedded); cbn [negb]; [|reflexivity].
  destruct (upload_documents embedded w6) as [[[uploaded failed]|e] w7];
    reflexivity.
Qed.

End RunFullSync.

(** C6: once the index is prepared and the source connected, a source
    without documents ends the run with [success = true], no document and no
    chunk counted, and only the four calls up to the fetch made, so neither
    the embedding nor the upload is called; whereas a run in which chunks
    were created and the embedding returns nothing ends with
    [success = false], no chunk embedded or uploaded, and no call of the
    upload. *)
Theorem run_full_sync_empty_source_or_no_embeddings {World Vector : Type}
  (create_or_update_index clear_index connect : World -> result unit * World)
  (fetch_all_documents : World -> result (list Document.t) * World)
  (parser_process_documents :
     list Document.t -> World -> result (list ProcessedChunk.t) * World)
  (service_embed_chunks :
     list ProcessedChunk.t -> World ->
     result (list (ProcessedChunk.t * Vector)) * World)
  (upload_documents :
     list (ProcessedChunk.t * Vector) -> World -> result (Z * Z) * World)
  (w0 w1 w2 w3 : World) :
  create_or_update_index w0 = (Ok tt, w1) -> clear_index w1 = (Ok tt, w2) ->
  connect w2 = (Ok tt, w3) ->
  (forall w4,
     fetch_all_documents w3 = (Ok [], w4) ->
     run_full_sync create_or_update_index clear_index connect
       fetch_all_documents parser_process_documents service_embed_chunks
       upload_documents w0
     = (mkSyncStats 0 0 0 0 0 [] true, w4,
        [CreateOrUpdateIndex; ClearIndex; Connect; FetchAllDocuments]))
  /\ (forall documents chunks w4 w5 w6,
        fetch_all_documents w3 = (Ok documents, w4) -> documents <> [] ->
        parser_process_documents documents w4 = (Ok chunks, w5) ->
        chunks <> [] ->
        service_embed_chunks chunks w5 = (Ok [], w6) ->
        run_full_sync create_or_update_index clear_index connect
          fetch_all_documents parser_process_documents service_embed_chunks
          upload_documents w0
        = (mkSyncStats (py_len documents) (py_len chunks) 0 0 0 [] false, w6,
           [CreateOrUpdateIndex; ClearIndex; Connect; FetchAllDocuments;
            ProcessDocuments; EmbedChunks])).
Proof.
  intros H1 H2 H3. split.
  - intros w4 H4. now apply (run_full_sync_no_documents _ _ _ _ _ _ _ w0 w1 w2 w3).
  - intros documents chunks w4 w5 w6 H4 Hdocs H5 Hchunks H6.
    now rewrite (run_full_sync_embedded _ _ _ _ _ _ upload_documents
                   w0 w1 w2 w3 w4 w5 w6 documents chunks [] H1 H2 H3 H4 Hdocs
                   H5 Hchunks H6).
Qed.

Lemma run_full_sync_empty_source_or_no_embeddings_witness :
  always_ok 0%nat = (Ok tt, 1%nat) /\ always_ok 1%nat = (Ok tt, 2%nat)
  /\ always_ok 2%nat = (Ok tt, 3%nat)
  /\ ((forall w4,
         fetch_nothing 3%nat = (Ok [], w4) ->
         run_full_sync always_ok always_ok always_ok fetch_nothing
           parse_to_six_chunks (embed_chunks always_failing 2) upload_all 0%nat
         = (mkSyncStats 0 0 0 0 0 [] true, w4,
            [CreateOrUpdateIndex; ClearIndex; Connect; FetchAllDocuments]))
      /\ (forall documents chunks w4 w5 w6,
            fetch_nothing 3%nat = (Ok documents, w4) -> documents <> [] ->
            parse_to_six_chunks documents w4 = (Ok chunks, w5) ->
            chunks <> [] ->
            embed_chunks always_failing 2 chunks w5 = (Ok [], w6) ->
            run_full_sync always_ok always_ok always_ok fetch_nothing
              parse_to_six_chunks (embed_chunks always_failing 2) upload_all
              0%nat
            = (mkSyncStats (py_len documents) (py_len chunks) 0 0 0 [] false,
               w6,
               [CreateOrUpdateIndex; ClearIndex; Connect; FetchAllDocuments;
                ProcessDocuments; EmbedChunks]))).
Proof.
  split; [reflexivity|]. split; [reflexivity|]. split; [reflexivity|].
  apply (run_full_sync_empty_source_or_no_embeddings always_ok always_ok
           always_ok fetch_nothing parse_to_six_chunks
           (embed_chunks always_failing 2) upload_all 0%nat 1%nat 2%nat 3%nat);
    reflexivity.
Defined.

(** A run over a source with one document, a parser that returns six chunks
    and an embedding provider that always fails: every batch is tried four
    times, nothing is embedded, the upload is not called and the run reports
    failure. *)
Example run_full_sync_all_batches_fail :
  run_full_sync always_ok always_ok always_ok fetch_worked_document
    parse_to_six_chunks (embed_chunks always_failing 2) upload_all 0%nat
  = (mkSyncStats 1 6 0 0 0 [] false, 17%nat,
     [CreateOrUpdateIndex; ClearIndex; Connect; FetchAllDocuments;
      ProcessDocuments; EmbedChunks]).
Proof. reflexivity. Qed.

(** An empty source: the run succeeds after four calls. *)
Example run_full_sync_empty_source :
  run_full_sync always_ok always_ok always_ok fetch_nothing
    parse_to_six_chunks (embed_chunks always_failing 2) upload_all 0%nat
  = (mkSyncStats 0 0 0 0 0 [] true, 4%nat,
     [CreateOrUpdateIndex; ClearIndex; Connect; FetchAllDocuments]).
Proof. reflexivity. Qed.

(** ** Batches *)

Lemma batches_fuel_enough {A} (n : nat) :
  (0 < n)%nat ->
  forall (fuel1 fuel2 : nat) (l : list A),
    (length l <= fuel1)%nat -> (length l <= fuel2)%nat ->
    batches_fuel fuel1 n l = batches_fuel fuel2 n l.
Proof.
  intros Hn. induction fuel1 as [|fuel1 IH]; intros fuel2 l H1 H2.
  - destruct l; [|simpl in H1; lia]. destruct fuel2; reflexivity.
  - destruct l as [|x l]; [destruct fuel2; reflexivity|].
    destruct fuel2 as [|fuel2]; [simpl in H2; lia|].
    cbn [batches_fuel]. f_equal.
    apply IH; rewrite length_drop; simpl in *; lia.
Qed.

(** The first batch of a non-empty list is its first [n] elements. *)
Lemma batches_unfold {A} (n : nat) (l : list A) :
  (0 < n)%nat -> l <> [] -> batches n l = take n l :: batches n (drop n l).
Proof.
  intros Hn Hl. unfold batches. destruct l as [|x l]; [congruence|].
  cbn [length batches_fuel]. f_equal.
  apply batches_fuel_enough; [exact Hn | | lia].
  rewrite length_drop. simpl. lia.
Qed.

Lemma batches_nil {A} (n : nat) : batches n (@nil A) = [].
Proof. reflexivity. Qed.

Lemma batches_app {A} (n : nat) (batch rest : list A) :
  (0 < n)%nat -> length batch = n ->
  batches n (batch ++ rest) = batch :: batches n rest.
Proof.
  intros Hn Hlen. rewrite batches_unfold; [|exact Hn|].
  - rewrite <- Hlen. now rewrite take_app_length, drop_app_length.
  - destruct batch; [simpl in Hlen; lia | discriminate].
Qed.

Lemma batches_last {A} (n : nat) (batch : list A) :
  (0 < length batch)%nat -> (length batch <= n)%nat -> batches n batch = [batch].
Proof.
  intros Hpos Hle. rewrite batches_unfold; [|lia|].
  - rewrite take_ge, drop_ge by lia. reflexivity.
  - destruct batch; [simpl in Hpos; lia | discriminate].
Qed.

(** A slice that starts inside the list and may end beyond it. *)
Lemma py_slice_clamped {A} (l : list A) (a b : Z) :
  0 <= a -> a <= py_len l -> a <= b ->
  py_slice l a b = take (Z.to_nat (b - a)) (drop (Z.to_nat a) l).
Proof.
  intros Ha Hal Hab. unfold py_slice, slice_bound.
  destruct (Z.ltb_spec a 0); [lia|]. destruct (Z.ltb_spec b 0); [lia|].
  rewrite (Z.min_l a) by lia.
  destruct (Z.le_gt_cases b (py_len l)) as [Hin|Hout].
  - now rewrite Z.min_l by lia.
  - rewrite Z.min_r by lia. unfold py_len in *.
    rewrite !take_ge; [reflexivity | rewrite length_drop; lia..].
Qed.

(** ** EmbeddingService.embed_chunks *)

Section EmbedChunksBatches.

Context {World Vector : Type}.
Variable embeddings_create : list string -> World -> result (list Vector) * World.
Variable batch_size : Z.

Hypothesis batch_size_positive : 0 < batch_size.

Local Abbreviation embedding_call := (generate_embeddings embeddings_create).

(** The iterations for the indices [k * batch_size], ...,
    [(k + m - 1) * batch_size], which reach the end of the list, add the
    contribution of the batches of the chunks from position
    [k * batch_size] on, each embedded once and in turn. *)
Lemma embed_chunks_loop_batches (chunks : list ProcessedChunk.t) :
  forall (m k : nat) (results : list (ProcessedChunk.t * Vector)) (w : World),
    (length chunks <= (k + m) * Z.to_nat batch_size)%nat ->
    (0 < m -> (k + m - 1) * Z.to_nat batch_size < length chunks)%nat ->
    embed_chunks_loop embeddings_create batch_size chunks
      ((fun j : nat => Z.of_nat j * batch_size) <$> seq k m) results w
    = (results
       ++ (embedded_in_turn embedding_call
             (batches (Z.to_nat batch_size)
                (drop (k * Z.to_nat batch_size) chunks)) w).1,
       (embedded_in_turn embedding_call
          (batches (Z.to_nat batch_size)
             (drop (k * Z.to_nat batch_size) chunks)) w).2).
Proof.
  induction m as [|m IH]; intros k results w Hend Hlast.
  - cbn [seq fmap list_fmap embed_chunks_loop].
    rewrite drop_ge by lia. rewrite batches_nil. cbn. now rewrite app_nil_r.
  - cbn [seq fmap list_fmap embed_chunks_loop].
    assert (Hk : (k * Z.to_nat batch_size < length chunks)%nat) by nia.
    rewrite py_slice_clamped by (unfold py_len; nia).
    replace (Z.of_nat k * batch_size + batch_size - Z.of_nat k * batch_size)
      with batch_size by lia.
    replace (Z.to_nat (Z.of_nat k * batch_size))
      with (k * Z.to_nat batch_size)%nat by nia.
    rewrite (batches_unfold (Z.to_nat batch_size)
               (drop (k * Z.to_nat batch_size) chunks)); [|lia|].
    2:{ intros Hnil. apply (f_equal length) in Hnil.
        rewrite length_drop in Hnil. simpl in Hnil. lia. }
    rewrite drop_drop.
    replace (k * Z.to_nat batch_size + Z.to_nat batch_size)%nat
      with (S k * Z.to_nat batch_size)%nat by lia.
    set (batch := take (Z.to_nat batch_size)
                    (drop (k * Z.to_nat batch_size) chunks)).
    cbn [embedded_in_turn].
    destruct (generate_embeddings embeddings_create
                (ProcessedChunk.content <$> batch) w) as [[vectors|e] w1].
    + rewrite IH;
        [|lia | intros Hm; replace (S k + m - 1)%nat with (k + S m - 1)%nat by lia;
                apply Hlast; lia].
      destruct (embedded_in_turn embedding_call _ w1) as [embedded w2].
      cbn [fst snd]. now rewrite <- app_assoc.
    + apply IH;
        [lia | intros Hm; replace (S k + m - 1)%nat with (k + S m - 1)%nat by lia;
               apply Hlast; lia].
Qed.

(** [embed_chunks] returns the contributions of the batches in order: the
    chunks of every batch whose call succeeds, zipped with the vectors, and
    nothing for a batch whose call fails. *)
Lemma embed_chunks_batches (chunks : list ProcessedChunk.t) (w : World) :
  embed_chunks embeddings_create batch_size chunks w
  = (Ok (embedded_in_turn embedding_call
           (batches (Z.to_nat batch_size) chunks) w).1,
     (embedded_in_turn embedding_call
        (batches (Z.to_nat batch_size) chunks) w).2).
Proof.
  unfold embed_chunks, py_range0.
  destruct (Z.eqb_spec batch_size 0); [lia|].
  destruct (Z.ltb_spec batch_size 0); [lia|].
  set (m := Z.to_nat ((py_len chunks + batch_size - 1) / batch_size)).
  assert (Hq : batch_size * ((py_len chunks + batch_size - 1) / batch_size)
               <= py_len chunks + batch_size - 1)
    by (apply Z.mul_div_le; lia).
  assert (Hq' : py_len chunks + batch_size - 1
                < batch_size * Z.succ ((py_len chunks + batch_size - 1) / batch_size))
    by (apply Z.mul_succ_div_gt; lia).
  assert (Hnonneg : 0 <= (py_len chunks + batch_size - 1) / batch_size)
    by (apply Z.div_pos; unfold py_len; lia).
  rewrite (embed_chunks_loop_batches chunks m 0 [] w).
  - cbn [app]. now rewrite Nat.mul_0_l, drop_0.
  - unfold m, py_len in *. nia.
  - unfold m, py_len in *. intros Hm. nia.
Qed.

End EmbedChunksBatches.

(** The batches after others are embedded from the state of the world that
    the others left. *)
Lemma embedded_in_turn_app {World Vector : Type}
  (embedding_call : list string -> World -> result (list Vector) * World)
  (before after : list (list ProcessedChunk.t)) (w : World) :
  embedded_in_turn embedding_call (before ++ after) w
  = ((embedded_in_turn embedding_call before w).1
     ++ (embedded_in_turn embedding_call after
           (embedded_in_turn embedding_call before w).2).1,
     (embedded_in_turn embedding_call after
        (embedded_in_turn embedding_call before w).2).2).
Proof.
  revert w. induction before as [|batch before IH]; intros w;
    cbn [app embedded_in_turn].
  - cbn [fst snd app].
    now destruct (embedded_in_turn embedding_call after w).
  - destruct (embedding_call (ProcessedChunk.content <$> batch) w)
      as [[vectors|e] w1]; cbn [fst snd]; [|apply IH].
    rewrite IH.
    destruct (embedded_in_turn embedding_call before w1) as [embedded w2].
    cbn [fst snd]. now rewrite app_assoc.
Qed.

(** A first call that succeeds is not repeated; a call that fails in every
    state of the world fails again after the retries. *)
Lemma generate_embeddings_first_try {World Vector : Type}
  (embeddings_create : list string -> World -> result (list Vector) * World)
  (texts : list string) (vectors : list Vector) (w w' : World) :
  embeddings_create texts w = (Ok vectors, w') ->
  generate_embeddings embeddings_create texts w = (Ok vectors, w').
Proof.
  intros H. unfold generate_embeddings, retry_with_backoff.
  cbn [retry_loop]. now rewrite H.
Qed.

Lemma retry_loop_always_raises {World A : Type}
  (func : World -> result A * World) :
  (forall w, exists e w', func w = (Raise e, w')) ->
  forall attempts_left w,
    exists e w', retry_loop attempts_left func w = (Raise e, w').
Proof.
  intros Hfail. induction attempts_left as [|k IH]; intros w;
    destruct (Hfail w) as (e & w1 & Hw); cbn [retry_loop]; rewrite Hw; eauto.
Qed.

(** C7: [embed_chunks] makes the embedding call once for every batch of the
    partition of the chunks, in order; a batch whose call raises (after its
    retries) is skipped, its chunks are in no pair of the result, and the
    batches after it are embedded all the same, from the state of the world
    that the failed call left. In particular, when the chunks form three
    batches of which only the second raises, the result pairs exactly the
    chunks of the first and the third batch with their vectors; and a run of
    the orchestrator that reaches the embedding step reports the length of
    the result as [chunks_embedded]. *)
Theorem embed_chunks_skips_failed_batches {World Vector : Type}
  (embeddings_create : list string -> World -> result (list Vector) * World)
  (batch_size : Z) (chunks : list ProcessedChunk.t) :
  0 < batch_size ->
  (forall w,
     embed_chunks embeddings_create batch_size chunks w
     = (Ok (embedded_in_turn (generate_embeddings embeddings_create)
              (batches (Z.to_nat batch_size) chunks) w).1,
        (embedded_in_turn (generate_embeddings embeddings_create)
           (batches (Z.to_nat batch_size) chunks) w).2))
  /\ (forall before batch after embedded e w w1 w2,
        batches (Z.to_nat batch_size) chunks = before ++ batch :: after ->
        embedded_in_turn (generate_embeddings embeddings_create) before w
        = (embedded, w1) ->
        generate_embeddings embeddings_create
          (ProcessedChunk.content <$> batch) w1 = (Raise e, w2) ->
        embed_chunks embeddings_create batch_size chunks w
        = (Ok (embedded
               ++ (embedded_in_turn (generate_embeddings embeddings_create)
                     after w2).1),
           (embedded_in_turn (generate_embeddings embeddings_create)
              after w2).2))
  /\ (forall batch1 batch2 batch3 vectors1 vectors3 e w w1 w2 w3,
        chunks = batch1 ++ batch2 ++ batch3 ->
        py_len batch1 = batch_size -> py_len batch2 = batch_size ->
        0 < py_len batch3 -> py_len batch3 <= batch_size ->
        generate_embeddings embeddings_create
          (ProcessedChunk.content <$> batch1) w = (Ok vectors1, w1) ->
        generate_embeddings embeddings_create
          (ProcessedChunk.content <$> batch2) w1 = (Raise e, w2) ->
        generate_embeddings embeddings_create
          (ProcessedChunk.content <$> batch3) w2 = (Ok vectors3, w3) ->
        embed_chunks embeddings_create batch_size chunks w
        = (Ok (py_zip batch1 vectors1 ++ py_zip batch3 vectors3), w3))
  /\ (forall (create_or_update_index clear_index connect :
                World -> result unit * World)
             (fetch_all_documents : World -> result (list Document.t) * World)
             (parser_process_documents :
                list Document.t -> World ->
                result (list ProcessedChunk.t) * World)
             (upload_documents :
                list (ProcessedChunk.t * Vector) -> World ->
                result (Z * Z) * World)
             (documents : list Document.t)
             (embedded : list (ProcessedChunk.t * Vector))
             (w0 w1 w2 w3 w4 w5 w6 : World),
        create_or_update_index w0 = (Ok tt, w1) ->
        clear_index w1 = (Ok tt, w2) -> connect w2 = (Ok tt, w3) ->
        fetch_all_documents w3 = (Ok documents, w4) -> documents <> [] ->
        parser_process_documents documents w4 = (Ok chunks, w5) ->
        chunks <> [] ->
        embed_chunks embeddings_create batch_size chunks w5
        = (Ok embedded, w6) ->
        chunks_embedded
          (fst (fst (run_full_sync create_or_update_index clear_index connect
                       fetch_all_documents parser_process_documents
                       (embed_chunks embeddings_create batch_size)
                       upload_documents w0)))
        = py_len embedded).
Proof.
  intros Hpos. split; [|split; [|split]].
  - intros w. now apply embed_chunks_batches.
  - intros before batch after embedded e w w1 w2 Hsplit Hbefore Hraise.
    rewrite embed_chunks_batches by exact Hpos.
    rewrite Hsplit, embedded_in_turn_app, Hbefore.
    cbn [fst snd embedded_in_turn]. now rewrite Hraise.
  - intros batch1 batch2 batch3 vectors1 vectors3 e w w1 w2 w3
      -> H1 H2 H3 H3' E1 E2 E3.
    rewrite embed_chunks_batches by exact Hpos.
    unfold py_len in *.
    rewrite batches_app, batches_app, batches_last by lia.
    cbn [embedded_in_turn]. rewrite E1, E2, E3. cbn [fst snd].
    now rewrite app_nil_r.
  - intros coi ci con fetch parse upload documents embedded
      w0 w1 w2 w3 w4 w5 w6 H1 H2 H3 H4 Hdocs H5 Hchunks H6.
    rewrite (run_full_sync_embedded coi ci con fetch parse
               (embed_chunks embeddings_create batch_size) upload
               w0 w1 w2 w3 w4 w5 w6 documents chunks _ H1 H2 H3 H4 Hdocs H5
               Hchunks H6).
    destruct (list_truthy _); [|reflexivity].
    destruct (upload _ w6) as [[[uploaded failed]|e] w7]; reflexivity.
Qed.

Lemma embed_chunks_skips_failed_batches_witness :
  0 < 2
  /\ embed_chunks outage 2 six_chunks 0%nat
     = (Ok (py_zip [sample_chunk "c1"; sample_chunk "c2"]
              ["vector of c1"; "vector of c2"]
            ++ py_zip [sample_chunk "c5"; sample_chunk "c6"]
                 ["vector of c5"; "vector of c6"]), 6%nat).
Proof.
  split; [lia|].
  apply (proj1 (proj2 (proj2
           (embed_chunks_skips_failed_batches outage 2 six_chunks ltac:(lia))))
           [sample_chunk "c1"; sample_chunk "c2"]
           [sample_chunk "c3"; sample_chunk "c4"]
           [sample_chunk "c5"; sample_chunk "c6"]
           ["vector of c1"; "vector of c2"] ["vector of c5"; "vector of c6"]
           "service unavailable" 0%nat 1%nat 5%nat 6%nat);
    reflexivity || (cbv; congruence).
Defined.

(** Three batches of two chunks, the second of which fails in each of its
    four attempts: the chunks c1, c2, c5 and c6 come back with their vectors
    after six calls of the provider, and a run of the orchestrator over them
    counts four embedded chunks and uploads them. *)
Example embed_chunks_second_batch_fails :
  embed_chunks failing_on_second_batch 2 six_chunks 0%nat
  = (Ok [(sample_chunk "c1", "vector of c1"); (sample_chunk "c2", "vector of c2");
         (sample_chunk "c5", "vector of c5"); (sample_chunk "c6", "vector of c6")],
     6%nat)
  /\ run_full_sync always_ok always_ok always_ok fetch_worked_document
       parse_to_six_chunks (embed_chunks failing_on_second_batch 2) upload_all
       0%nat
     = (mkSyncStats 1 6 4 4 0 [] true, 12%nat,
        [CreateOrUpdateIndex; ClearIndex; Connect; FetchAllDocuments;
         ProcessDocuments; EmbedChunks; UploadDocuments]).
Proof. split; reflexivity. Qed.

(** ** DocumentChunker.chunk_by_sentences: the bound that does hold *)

Lemma py_split_go_space (a b cur : string) :
  py_split_go cur (a +:+ String " " b) = py_split_go cur a ++ py_split_go "" b.
Proof.
  revert cur. induction a as [|c a IH]; intros cur.
  - rewrite append_nil_l. cbn [py_split_go]. change (is_space " ") with true.
    cbn iota. now destruct (str_truthy cur).
  - rewrite append_cons. cbn [py_split_go].
    destruct (is_space c); [destruct (str_truthy cur)|]; rewrite IH; reflexivity.
Qed.

(** The words of two texts joined by a space are the words of the first
    followed by the words of the second. *)
Lemma py_split_space (a b : string) :
  py_split (a +:+ " " +:+ b) = py_split a ++ py_split b.
Proof. apply py_split_go_space. Qed.

Lemma py_join_snoc (parts : list string) (s : string) :
  parts <> [] -> py_join " " (parts ++ [s]) = py_join " " parts +:+ " " +:+ s.
Proof.
  induction parts as [|p parts IH]; intros Hne; [congruence|].
  destruct parts as [|q parts]; [reflexivity|].
  change (py_join " " ((p :: q :: parts) ++ [s]))
    with (p +:+ " " +:+ py_join " " ((q :: parts) ++ [s])).
  rewrite IH by discriminate.
  change (py_join " " (p :: q :: parts))
    with (p +:+ " " +:+ py_join " " (q :: parts)).
  now rewrite !append_assoc.
Qed.

(** Adding a sentence to the current chunk adds its words. *)
Lemma py_split_join_snoc (parts : list string) (s : string) :
  py_len (py_split (py_join " " (parts ++ [s])))
  = py_len (py_split (py_join " " parts)) + py_len (py_split s).
Proof.
  destruct parts as [|p parts]; [reflexivity|].
  rewrite py_join_snoc by discriminate.
  rewrite py_split_space. unfold py_len. rewrite length_app. lia.
Qed.

Lemma py_slice_length {A} (l : list A) (start size : Z) :
  0 <= start -> 0 <= size -> py_len (py_slice l start (start + size)) <= size.
Proof.
  intros Hs Hn. unfold py_slice, slice_bound, py_len.
  destruct (Z.ltb_spec start 0); [lia|].
  destruct (Z.ltb_spec (start + size) 0); [lia|].
  rewrite length_take, length_drop. lia.
Qed.

Lemma py_slice_from_words (l : list string) (start : Z) :
  Forall is_word l -> Forall is_word (py_slice_from l start).
Proof. intros H. now apply Forall_drop. Qed.

Lemma py_slice_words (l : list string) (start stop : Z) :
  Forall is_word l -> Forall is_word (py_slice l start stop).
Proof. intros H. now apply Forall_take, Forall_drop. Qed.

Section ChunkBound.

Variable chunk_size chunk_overlap : Z.
Hypothesis overlap_below_size : chunk_overlap < chunk_size.

(** From a position at or after 0, every chunk that the loop of
    [chunk_text] adds has at most [chunk_size] words. *)
Lemma chunk_text_loop_bound (words : list string) :
  0 <= chunk_size -> Forall is_word words ->
  forall fuel start acc out,
    0 <= start ->
    Forall (fun c => py_len (py_split c) <= chunk_size) acc ->
    chunk_text_loop chunk_size chunk_overlap fuel words (start, acc) = Some out ->
    Forall (fun c => py_len (py_split c) <= chunk_size) out.
Proof.
  intros Hsize Hwords.
  induction fuel as [|fuel IH]; intros start acc out Hs Hacc Hrun; [discriminate|].
  cbn [chunk_text_loop chunk_text_body] in Hrun.
  destruct (Z.ltb_spec start (py_len words)) as [Hlt|?];
    [|injection Hrun as <-; exact Hacc].
  assert (Hacc' : Forall (fun c => py_len (py_split c) <= chunk_size)
                    (acc ++ [py_join " " (py_slice words start (start + chunk_size))])).
  { apply Forall_app. split; [exact Hacc|]. constructor; [|constructor].
    rewrite py_split_join by now apply py_slice_words.
    now apply py_slice_length. }
  destruct (Z.leb_spec (start + chunk_size - chunk_overlap)
              (py_len words - chunk_size)) as [_|Hlast].
  - eapply IH; [|exact Hacc'|exact Hrun]. lia.
  - destruct (Z.ltb_spec (start + chunk_size - chunk_overlap) (py_len words))
      as [Hin|_]; [|injection Hrun as <-; exact Hacc'].
    destruct (list_truthy _); injection Hrun as <-; [|exact Hacc'].
    apply Forall_app. split; [exact Hacc'|]. constructor; [|constructor].
    rewrite py_split_join by now apply py_slice_from_words.
    rewrite py_slice_from_in_range by lia.
    unfold py_len in *. rewrite length_drop. lia.
Qed.

Lemma chunk_text_bound (fuel : nat) (text : string) (out : list string) :
  0 <= chunk_size ->
  chunk_text chunk_size chunk_overlap fuel text = Some out ->
  Forall (fun c => py_len (py_split c) <= chunk_size) out.
Proof.
  intros Hsize Hrun. unfold chunk_text in Hrun.
  destruct (negb (str_truthy text)); [injection Hrun as <-; constructor|].
  destruct (Z.leb_spec (py_len (py_split text)) chunk_size) as [Hle|_].
  - injection Hrun as <-. constructor; [exact Hle | constructor].
  - eapply chunk_text_loop_bound; [exact Hsize | apply py_split_words | |
                                    constructor | exact Hrun]. lia.
Qed.

Hypothesis overlap_positive : 1 <= chunk_overlap.

Lemma overlap_words_length (prev : string) :
  py_len (py_slice_from (py_split prev) (- chunk_overlap)) <= chunk_overlap.
Proof.
  unfold py_slice_from, slice_bound, py_len.
  destruct (Z.ltb_spec (- chunk_overlap) 0); [|lia].
  rewrite length_drop. lia.
Qed.

Lemma chunk_by_sentences_body_invariant (fuel : nat) (st st' : sentence_state)
  (sentence : string) :
  sentence_invariant chunk_size chunk_overlap st ->
  chunk_by_sentences_body chunk_size chunk_overlap fuel st sentence = Some st' ->
  sentence_invariant chunk_size chunk_overlap st'.
Proof.
  intros (Hchunks & Hsize & Hbound) Hrun. unfold chunk_by_sentences_body in Hrun.
  destruct (Z.leb_spec (current_size st + py_len (py_split sentence)) chunk_size)
    as [Hfits|Hover].
  - injection Hrun as <-. repeat split; cbn [chunks current_chunk current_size].
    + exact Hchunks.
    + now rewrite py_split_join_snoc, Hsize.
    + lia.
  - set (flushed := if list_truthy (current_chunk st)
                    then chunks st ++ [py_join " " (current_chunk st)]
                    else chunks st) in *.
    assert (Hflushed : Forall (fun c => py_len (py_split c)
                                        <= chunk_size + chunk_overlap) flushed).
    { unfold flushed. destruct (list_truthy (current_chunk st)); [|exact Hchunks].
      apply Forall_app. split; [exact Hchunks|].
      constructor; [lia | constructor]. }
    destruct (Z.leb_spec (py_len (py_split sentence)) chunk_size) as [Hshort|Hlong].
    + injection Hrun as <-. repeat split; cbn [chunks current_chunk current_size].
      * exact Hflushed.
      * destruct (last flushed) as [prev|]; [|cbn [list_truthy py_join]; lia].
        destruct (list_truthy (py_slice_from (py_split prev) (- chunk_overlap)));
          [|cbn [py_join]; lia].
        change (py_join " " [py_join " " (py_slice_from (py_split prev)
                                            (- chunk_overlap)); sentence])
          with (py_join " " (py_slice_from (py_split prev) (- chunk_overlap))
                +:+ " " +:+ sentence).
        rewrite py_split_space, py_split_join
          by apply py_slice_from_words, py_split_words.
        pose proof (overlap_words_length prev) as Hlen.
        unfold py_len in *. rewrite length_app. lia.
    + destruct (chunk_text chunk_size chunk_overlap fuel sentence)
        as [sub_chunks|] eqn:Hsub; [|discriminate].
      injection Hrun as <-. repeat split; cbn [chunks current_chunk current_size].
      * apply Forall_app. split; [exact Hflushed|].
        apply chunk_text_bound in Hsub; [|lia].
        eapply Forall_impl; [exact Hsub|]. cbn. intros c Hc. lia.
      * lia.
Qed.

Lemma chunk_by_sentences_loop_invariant (fuel : nat) (sentences : list string) :
  forall st st',
    sentence_invariant chunk_size chunk_overlap st ->
    chunk_by_sentences_loop chunk_size chunk_overlap fuel st sentences = Some st' ->
    sentence_invariant chunk_size chunk_overlap st'.
Proof.
  induction sentences as [|sentence rest IH]; intros st st' Hinv Hrun.
  - injection Hrun as <-. exact Hinv.
  - cbn [chunk_by_sentences_loop] in Hrun.
    destruct (chunk_by_sentences_body _ _ _ st sentence) as [st1|] eqn:Hbody;
      [|discriminate].
    eapply IH; [|exact Hrun].
    eapply chunk_by_sentences_body_invariant; [exact Hinv | exact Hbody].
Qed.

(** With [1 <= chunk_overlap < chunk_size] no chunk of [chunk_by_sentences]
    has more than [chunk_size + chunk_overlap] words. *)
Lemma chunk_by_sentences_bound (fuel : nat) (text : string)
  (out : list string) :
  chunk_by_sentences chunk_size chunk_overlap fuel text = Some out ->
  Forall (fun c => py_len (py_split c) <= chunk_size + chunk_overlap) out.
Proof.
  intros Hrun. unfold chunk_by_sentences in Hrun.
  destruct (negb (str_truthy text)); [injection Hrun as <-; constructor|].
  destruct (chunk_by_sentences_loop _ _ _ _ _) as [st|] eqn:Hloop; [|discriminate].
  apply chunk_by_sentences_loop_invariant in Hloop as (Hchunks & Hsize & Hbound).
  - injection Hrun as <-. destruct (list_truthy (current_chunk st)); [|exact Hchunks].
    apply Forall_app. split; [exact Hchunks|]. constructor; [lia | constructor].
  - repeat split; cbn; [constructor | lia].
Qed.

End ChunkBound.

(** * Further properties *)

(** ** TextCleaner.clean_text: what the result looks like *)

Lemma remove_control_no_control (s : string) (c : ascii) :
  In c (list_ascii_of_string (remove_control s)) -> is_control c = false.
Proof.
  induction s as [|d s IH]; simpl; [tauto|].
  destruct (is_control d) eqn:Hd; simpl; [exact IH|].
  intros [<-|Hin]; [exact Hd | now apply IH].
Qed.

Lemma remove_control_keeps (s : string) (c : ascii) :
  In c (list_ascii_of_string s) -> is_control c = false ->
  In c (list_ascii_of_string (remove_control s)).
Proof.
  induction s as [|d s IH]; simpl; [tauto|].
  intros [<-|Hin] Hc.
  - rewrite Hc. now left.
  - destruct (is_control d); simpl; auto.
Qed.

Lemma collapse_whitespace_go_keeps (in_run : bool) (s : string) (c : ascii) :
  In c (list_ascii_of_string s) -> is_space c = false ->
  In c (list_ascii_of_string (collapse_whitespace_go in_run s)).
Proof.
  revert in_run. induction s as [|d s IH]; intros in_run; simpl; [tauto|].
  intros [<-|Hin] Hc.
  - rewrite Hc. now left.
  - destruct (is_space d); [destruct in_run|]; simpl; auto.
Qed.

(** A character of the collapsed text is the space or a character of the
    text that is not white space. *)
Lemma collapse_whitespace_go_origin (in_run : bool) (s : string) (c : ascii) :
  In c (list_ascii_of_string (collapse_whitespace_go in_run s)) ->
  c = " "%char \/ (In c (list_ascii_of_string s) /\ is_space c = false).
Proof.
  revert in_run. induction s as [|d s IH]; intros in_run; simpl; [tauto|].
  destruct (is_space d) eqn:Hd.
  - destruct in_run; simpl.
    + intros H. destruct (IH _ H) as [?|[? ?]]; auto.
    + intros [<-|H]; [now left|]. destruct (IH _ H) as [?|[? ?]]; auto.
  - simpl. intros [<-|H]; [right; auto|].
    destruct (IH _ H) as [?|[? ?]]; auto.
Qed.

Lemma py_lstrip_head (s : string) (c : ascii) (rest : string) :
  py_lstrip s = String c rest -> is_space c = false.
Proof.
  induction s as [|d s IH]; simpl; [discriminate|].
  destruct (is_space d) eqn:Hd; [exact IH|].
  intros H. injection H as <- _. exact Hd.
Qed.

Lemma py_lstrip_keeps (s : string) (c : ascii) :
  In c (list_ascii_of_string s) -> is_space c = false ->
  In c (list_ascii_of_string (py_lstrip s)).
Proof.
  induction s as [|d s IH]; simpl; [tauto|].
  intros Hin Hc. destruct (is_space d) eqn:Hd; [|exact Hin].
  destruct Hin as [<-|Hin]; [congruence | now apply IH].
Qed.

Lemma py_lstrip_all_space (s : string) :
  (forall c, In c (list_ascii_of_string s) -> is_space c = true) ->
  py_lstrip s = "".
Proof.
  induction s as [|d s IH]; intros Hall; [reflexivity|]. simpl.
  rewrite (Hall d) by now left. apply IH. intros c Hc. apply Hall. now right.
Qed.

Lemma py_rstrip_head (c d : ascii) (s rest : string) :
  py_rstrip (String c s) = String d rest -> d = c.
Proof.
  cbn [py_rstrip]. destruct (py_rstrip s); [destruct (is_space c)|];
    intros H; [discriminate | now injection H..].
Qed.

Lemma py_rstrip_keeps (s : string) (c : ascii) :
  In c (list_ascii_of_string s) -> is_space c = false ->
  In c (list_ascii_of_string (py_rstrip s)).
Proof.
  induction s as [|d s IH]; [simpl; tauto|].
  intros Hin Hc. cbn [py_rstrip]. simpl in Hin. destruct Hin as [<-|Hin].
  - destruct (py_rstrip s); [rewrite Hc|]; now left.
  - specialize (IH Hin Hc). destruct (py_rstrip s); [destruct IH|].
    now right.
Qed.

Lemma py_rstrip_last (s init : string) (c : ascii) :
  py_rstrip s = init +:+ String c "" -> is_space c = false.
Proof.
  revert init. induction s as [|d s IH]; intros init.
  - destruct init; discriminate.
  - cbn [py_rstrip]. destruct (py_rstrip s) as [|e r] eqn:Hr.
    + destruct (is_space d) eqn:Hd; [destruct init; discriminate|].
      destruct init as [|i init]; [intros H; injection H as <-; exact Hd|].
      rewrite append_cons. intros H. injection H as _ H.
      destruct init; discriminate.
    + destruct init as [|i init].
      * rewrite append_nil_l. discriminate.
      * rewrite append_cons. intros H. injection H as _ H. now apply (IH init).
Qed.

(** X1: the result of [clean_text] contains no control character of the
    class that the function strips, its only white space is the space
    character, and it neither begins nor ends with white space. *)
Theorem clean_text_is_clean (text : string) :
  (forall c, In c (list_ascii_of_string (clean_text text)) ->
             is_control c = false /\ (is_space c = true -> c = " "%char))
  /\ (forall c rest, clean_text text = String c rest -> is_space c = false)
  /\ (forall init c, clean_text text = init +:+ String c "" ->
                      is_space c = false).
Proof.
  rewrite clean_text_effective. split; [|split].
  - intros c Hc. apply py_strip_chars in Hc. split.
    + now apply remove_control_no_control in Hc.
    + apply remove_control_chars in Hc. intros Hs.
      exact (collapse_whitespace_go_chars false text c Hc Hs).
  - intros c rest H. unfold py_strip in H.
    destruct (py_lstrip (remove_control (collapse_whitespace text)))
      as [|d s] eqn:Hl; [discriminate|].
    apply py_rstrip_head in H as ->. now apply py_lstrip_head in Hl.
  - intros init c H. now apply py_rstrip_last in H.
Qed.

(** X2: [clean_text] returns the empty string exactly for the texts that
    consist of white space and stripped control characters only (the empty
    text among them). *)
Theorem clean_text_empty_iff (text : string) :
  clean_text text = ""
  <-> forall c, In c (list_ascii_of_string text) ->
                is_space c || is_control c = true.
Proof.
  rewrite clean_text_effective. split.
  - intros Hempty c Hc.
    destruct (is_space c) eqn:Hs; [reflexivity|].
    destruct (is_control c) eqn:Hk; [reflexivity|]. exfalso.
    assert (Hin : In c (list_ascii_of_string
                          (py_strip (remove_control (collapse_whitespace text))))).
    { apply py_rstrip_keeps, Hs. apply py_lstrip_keeps, Hs.
      apply remove_control_keeps, Hk. now apply collapse_whitespace_go_keeps. }
    rewrite Hempty in Hin. exact Hin.
  - intros Hall. unfold py_strip. rewrite py_lstrip_all_space; [reflexivity|].
    intros c Hc. pose proof (remove_control_no_control _ _ Hc) as Hk.
    apply remove_control_chars, collapse_whitespace_go_origin in Hc
      as [->|[Hc Hs]]; [reflexivity|].
    specialize (Hall c Hc). rewrite Hs, Hk in Hall. discriminate.
Qed.

(** ** TextCleaner.normalize_whitespace and TextCleaner.truncate *)

(** X3: [normalize_whitespace] keeps the words of the text and their order,
    and applying it a second time changes nothing. *)
Theorem normalize_whitespace_words (text : string) :
  py_split (normalize_whitespace text) = py_split text
  /\ normalize_whitespace (normalize_whitespace text) = normalize_whitespace text.
Proof.
  assert (H : py_split (normalize_whitespace text) = py_split text)
    by apply py_split_join, py_split_words.
  split; [exact H|]. unfold normalize_whitespace at 1. now rewrite H.
Qed.

Lemma string_length_chars (s : string) :
  length (list_ascii_of_string s) = String.length s.
Proof. induction s as [|c s IH]; simpl; [reflexivity | now rewrite IH]. Qed.

Lemma string_of_chars_length (l : list ascii) :
  String.length (string_of_list_ascii l) = length l.
Proof. induction l as [|c l IH]; simpl; [reflexivity | now rewrite IH]. Qed.

Lemma string_of_chars_app (l k : list ascii) :
  string_of_list_ascii (l ++ k)
  = string_of_list_ascii l +:+ string_of_list_ascii k.
Proof.
  induction l as [|c l IH]; [reflexivity|].
  cbn [app string_of_list_ascii]. rewrite append_cons. now rewrite IH.
Qed.

Lemma str_len_append (s t : string) : str_len (s +:+ t) = str_len s + str_len t.
Proof.
  unfold str_len. rewrite <- !string_length_chars, chars_append, length_app. lia.
Qed.

Lemma py_slice_from_start {A} (l : list A) (stop : Z) :
  py_slice l 0 stop = take (Z.to_nat (slice_bound (py_len l) stop)) l.
Proof.
  unfold py_slice. replace (slice_bound (py_len l) 0) with 0.
  - now rewrite Z.sub_0_r, drop_0.
  - unfold slice_bound, py_len. cbn. lia.
Qed.

(** The slice [s[:stop]] is a prefix of [s], of [stop] characters when
    [0 <= stop <= len(s)], and short of [-stop] characters of [s] when [stop]
    is negative. *)
Lemma str_slice_to_prefix (s : string) (stop : Z) :
  exists rest, s = str_slice_to s stop +:+ rest.
Proof.
  unfold str_slice_to. rewrite py_slice_from_start.
  set (l := list_ascii_of_string s).
  exists (string_of_list_ascii
            (drop (Z.to_nat (slice_bound (py_len l) stop)) l)).
  rewrite <- string_of_chars_app, take_drop. unfold l.
  now rewrite string_of_list_ascii_of_string.
Qed.

Lemma str_slice_to_length (s : string) (stop : Z) :
  str_len (str_slice_to s stop)
  = if stop <? 0 then Z.max 0 (stop + str_len s) else Z.min stop (str_len s).
Proof.
  unfold str_slice_to. rewrite py_slice_from_start.
  unfold str_len, slice_bound, py_len.
  rewrite string_of_chars_length, length_take, string_length_chars.
  destruct (Z.ltb_spec stop 0); lia.
Qed.

(** X4: for a text longer than [max_length], [truncate] returns a prefix of
    the text followed by the suffix; the result has exactly [max_length]
    characters when the suffix is not longer than [max_length], and more than
    [max_length] characters when it is. *)
Theorem truncate_long_text (text : string) (max_length : Z) (suffix : string) :
  max_length < str_len text ->
  (exists kept rest,
     truncate text max_length suffix = kept +:+ suffix
     /\ text = kept +:+ rest)
  /\ (str_len suffix <= max_length ->
      str_len (truncate text max_length suffix) = max_length)
  /\ (max_length < str_len suffix ->
      max_length < str_len (truncate text max_length suffix)).
Proof.
  intros Hlong. unfold truncate.
  destruct (Z.leb_spec (str_len text) max_length); [lia|].
  split; [|split].
  - destruct (str_slice_to_prefix text (max_length - str_len suffix))
      as [rest Hrest].
    exists (str_slice_to text (max_length - str_len suffix)), rest.
    split; [reflexivity | exact Hrest].
  - intros Hfits. rewrite str_len_append, str_slice_to_length.
    assert (0 <= str_len suffix) by (unfold str_len; lia).
    destruct (Z.ltb_spec (max_length - str_len suffix) 0); lia.
  - intros Hbig. rewrite str_len_append, str_slice_to_length.
    destruct (Z.ltb_spec (max_length - str_len suffix) 0); lia.
Qed.

Lemma truncate_long_text_witness :
  5 < str_len "abcdefghij"
  /\ ((exists kept rest,
         truncate "abcdefghij" 5 "..." = kept +:+ "..."
         /\ "abcdefghij" = kept +:+ rest)
      /\ (str_len "..." <= 5 -> str_len (truncate "abcdefghij" 5 "...") = 5)
      /\ (5 < str_len "..." -> 5 < str_len (truncate "abcdefghij" 5 "..."))).
Proof.
  split; [reflexivity|].
  apply (truncate_long_text "abcdefghij" 5 "..."). reflexivity.
Defined.

(** A text that fits is returned as it is; a limit below the length of the
    suffix makes the result longer than the limit. *)
Example truncate_examples :
  truncate "abc" 3 "..." = "abc"
  /\ truncate "abcdefghij" 5 "..." = "ab..."
  /\ truncate "abcdefghij" 2 "..." = "abcdefghi...".
Proof. repeat split. Qed.

(** ** DocumentChunker: size and number of the chunks *)

Section ChunkCount.

Variable chunk_size chunk_overlap : Z.
Hypothesis size_nonneg : 0 <= chunk_size.

(** The loop of [chunk_text] only adds chunks, at least one when it starts
    inside the words. *)
Lemma chunk_text_loop_grows (words : list string) :
  forall fuel start acc out,
    chunk_text_loop chunk_size chunk_overlap fuel words (start, acc) = Some out ->
    (length acc <= length out)%nat
    /\ (start < py_len words -> (length acc < length out)%nat).
Proof.
  induction fuel as [|fuel IH]; intros start acc out Hrun; [discriminate|].
  cbn [chunk_text_loop chunk_text_body] in Hrun.
  destruct (Z.ltb_spec start (py_len words)) as [Hlt|Hge];
    [|injection Hrun as <-; split; lia].
  destruct (_ <=? _).
  - apply IH in Hrun as [Hle _]. rewrite length_app in Hle. simpl in Hle.
    split; lia.
  - destruct (_ <? _); [destruct (list_truthy _)|]; injection Hrun as <-;
      rewrite ?length_app; simpl; split; lia.
Qed.

Lemma chunk_text_nonempty (fuel : nat) (text : string) (out : list string) :
  chunk_text chunk_size chunk_overlap fuel text = Some out ->
  text <> "" -> out <> [].
Proof.
  intros Hrun Htext. unfold chunk_text in Hrun.
  destruct text as [|c text]; [congruence|]. cbn [str_truthy negb] in Hrun.
  destruct (Z.leb_spec (py_len (py_split (String c text))) chunk_size)
    as [_|Hlong]; [injection Hrun as <-; discriminate|].
  apply chunk_text_loop_grows in Hrun as [_ Hgrow].
  intros ->. simpl in Hgrow. lia.
Qed.

(** After a sentence has been handled there is a chunk or a current chunk. *)
Lemma chunk_by_sentences_body_progress (fuel : nat) (st st' : sentence_state)
  (sentence : string) :
  chunk_by_sentences_body chunk_size chunk_overlap fuel st sentence = Some st' ->
  chunks st' <> [] \/ current_chunk st' <> [].
Proof.
  unfold chunk_by_sentences_body. intros Hrun.
  destruct (_ <=? chunk_size).
  { injection Hrun as <-. right. cbn. now destruct (current_chunk st). }
  destruct (Z.leb_spec (py_len (py_split sentence)) chunk_size) as [_|Hlong].
  { injection Hrun as <-. right. cbn.
    destruct (list_truthy match last _ with Some _ => _ | None => _ end);
      discriminate. }
  destruct (chunk_text chunk_size chunk_overlap fuel sentence) as [sub|] eqn:Hsub;
    [|discriminate].
  injection Hrun as <-. left. cbn.
  apply chunk_text_nonempty in Hsub.
  - intros Hnil. apply app_eq_nil in Hnil as [_ Hnil]. contradiction.
  - intros ->. change (py_len (py_split "")) with 0 in Hlong. lia.
Qed.

Lemma chunk_by_sentences_loop_progress (fuel : nat) (sentences : list string) :
  forall st st',
    sentences <> [] ->
    chunk_by_sentences_loop chunk_size chunk_overlap fuel st sentences = Some st' ->
    chunks st' <> [] \/ current_chunk st' <> [].
Proof.
  induction sentences as [|sentence rest IH]; intros st st' Hne Hrun;
    [congruence|].
  cbn [chunk_by_sentences_loop] in Hrun.
  destruct (chunk_by_sentences_body _ _ _ st sentence) as [st1|] eqn:Hbody;
    [|discriminate].
  destruct rest as [|next rest].
  - injection Hrun as <-. now apply chunk_by_sentences_body_progress in Hbody.
  - eapply IH; [discriminate | exact Hrun].
Qed.

Lemma split_sentences_go_nonempty (s cur : string) (mode : split_mode) :
  split_sentences_go mode cur s <> [].
Proof.
  revert cur mode. induction s as [|c s IH]; intros cur mode; [discriminate|].
  cbn [split_sentences_go].
  destruct mode as [after|]; [destruct (after && is_space c)|destruct (is_space c)];
    try apply IH; discriminate.
Qed.

Lemma chunk_by_sentences_nonempty (fuel : nat) (text : string)
  (out : list string) :
  chunk_by_sentences chunk_size chunk_overlap fuel text = Some out ->
  text <> "" -> out <> [].
Proof.
  intros Hrun Htext. unfold chunk_by_sentences in Hrun.
  destruct text as [|c text]; [congruence|]. cbn [str_truthy negb] in Hrun.
  destruct (chunk_by_sentences_loop _ _ _ _ _) as [st|] eqn:Hloop; [|discriminate].
  apply chunk_by_sentences_loop_progress in Hloop;
    [|apply split_sentences_go_nonempty].
  injection Hrun as <-.
  destruct (current_chunk st) as [|p cc]; cbn [list_truthy].
  - destruct Hloop; congruence.
  - intros Hnil. apply app_eq_nil in Hnil as [_ Hnil]. discriminate.
Qed.

End ChunkCount.

(** X5: with [0 <= chunk_size] and [chunk_overlap < chunk_size],
    [chunk_text] returns, none of its chunks has more than [chunk_size]
    words, and a non-empty text gives at least one chunk. *)
Theorem chunk_text_chunks_within_size (chunk_size chunk_overlap : Z)
  (text : string) :
  0 <= chunk_size -> chunk_overlap < chunk_size ->
  exists chunks,
    chunk_text chunk_size chunk_overlap (S (length (py_split text))) text
    = Some chunks
    /\ Forall (fun c => py_len (py_split c) <= chunk_size) chunks
    /\ (text <> "" -> chunks <> []).
Proof.
  intros Hsize Hov.
  destruct (chunk_text_terminates chunk_size chunk_overlap text Hov)
    as [chunks Hrun].
  exists chunks. split; [exact Hrun|]. split.
  - exact (chunk_text_bound chunk_size chunk_overlap Hov _ _ _ Hsize Hrun).
  - exact (chunk_text_nonempty chunk_size chunk_overlap Hsize _ _ _ Hrun).
Qed.

Lemma chunk_text_chunks_within_size_witness :
  0 <= 3 /\ 1 < 3
  /\ exists chunks,
       chunk_text 3 1 (S (length (py_split "a b c d e f g h")))
         "a b c d e f g h" = Some chunks
       /\ Forall (fun c => py_len (py_split c) <= 3) chunks
       /\ ("a b c d e f g h" <> "" -> chunks <> []).
Proof.
  split; [lia|]. split; [lia|].
  apply (chunk_text_chunks_within_size 3 1 "a b c d e f g h"); lia.
Defined.

(** X6: with [1 <= chunk_overlap < chunk_size], [chunk_by_sentences]
    returns, none of its chunks has more than [chunk_size + chunk_overlap]
    words, and a non-empty text gives at least one chunk. *)
Theorem chunk_by_sentences_chunks_within_size_plus_overlap
  (chunk_size chunk_overlap : Z) (text : string) :
  1 <= chunk_overlap -> chunk_overlap < chunk_size ->
  exists chunks,
    chunk_by_sentences chunk_size chunk_overlap
      (S (longest_sentence (split_sentences text))) text = Some chunks
    /\ Forall (fun c => py_len (py_split c) <= chunk_size + chunk_overlap) chunks
    /\ (text <> "" -> chunks <> []).
Proof.
  intros Hpos Hov.
  destruct (chunk_by_sentences_terminates chunk_size chunk_overlap text Hov)
    as [chunks Hrun].
  exists chunks. split; [exact Hrun|]. split.
  - exact (chunk_by_sentences_bound chunk_size chunk_overlap Hov Hpos _ _ _ Hrun).
  - eapply chunk_by_sentences_nonempty; [|exact Hrun]. lia.
Qed.

Lemma chunk_by_sentences_chunks_within_size_plus_overlap_witness :
  1 <= 1 /\ 1 < 4
  /\ exists chunks,
       chunk_by_sentences 4 1
         (S (longest_sentence (split_sentences "a b c d. e f g h.")))
         "a b c d. e f g h." = Some chunks
       /\ Forall (fun c => py_len (py_split c) <= 4 + 1) chunks
       /\ ("a b c d. e f g h." <> "" -> chunks <> []).
Proof.
  split; [lia|]. split; [lia|].
  apply (chunk_by_sentences_chunks_within_size_plus_overlap 4 1
           "a b c d. e f g h."); lia.
Defined.

(** X7: with [0 <= chunk_size] and [chunk_overlap < chunk_size],
    [process_document] returns, and its result is empty exactly when the
    content of the document is empty after cleaning. *)
Theorem process_document_no_chunks_iff (chunk_size chunk_overlap : Z)
  (document : Document.t) :
  0 <= chunk_size -> chunk_overlap < chunk_size ->
  (exists fuel processed_chunks,
     process_document chunk_size chunk_overlap fuel document
     = Some processed_chunks)
  /\ forall fuel processed_chunks,
       process_document chunk_size chunk_overlap fuel document
       = Some processed_chunks ->
       (processed_chunks = [] <-> clean_text (Document.content document) = "").
Proof.
  intros Hsize Hov. split; [now apply process_document_terminates|].
  intros fuel pcs Hrun. unfold process_document in Hrun.
  destruct (clean_text (Document.content document)) as [|c cleaned] eqn:Hclean.
  { injection Hrun as <-. tauto. }
  cbn [str_truthy negb] in Hrun.
  destruct (chunk_by_sentences _ _ _ _) as [chunks|] eqn:Hchunks; [|discriminate].
  apply chunk_by_sentences_nonempty in Hchunks; [|exact Hsize|discriminate].
  destruct chunks as [|chunk chunks]; [congruence|].
  cbn [list_truthy negb] in Hrun. injection Hrun as <-.
  split; discriminate.
Qed.

Lemma process_document_no_chunks_iff_witness :
  0 <= 4 /\ 1 < 4
  /\ ((exists fuel processed_chunks,
         process_document 4 1 fuel (worked_document "" "" "" "" "" "" [] ∅)
         = Some processed_chunks)
      /\ forall fuel processed_chunks,
           process_document 4 1 fuel (worked_document "" "" "" "" "" "" [] ∅)
           = Some processed_chunks ->
           (processed_chunks = []
            <-> clean_text
                  (Document.content (worked_document "" "" "" "" "" "" [] ∅))
                = "")).
Proof.
  split; [lia|]. split; [lia|].
  apply (process_document_no_chunks_iff 4 1
           (worked_document "" "" "" "" "" "" [] ∅)); lia.
Defined.

(** ** DocumentParser: the ids of the chunks are unique *)

Lemma nat_of_str_of_nat (n : nat) : nat_of_str (str_of_nat n) = Some n.
Proof.
  unfold nat_of_str, str_of_nat.
  pose proof (DecimalNat.Unsigned.of_to n) as Hn.
  destruct (Nat.to_uint n) as [|d|d|d|d|d|d|d|d|d|d] eqn:Hd;
    try (rewrite NilZero.usu by discriminate; cbn [option_map]; now rewrite Hn).
  cbn in Hn. subst n. reflexivity.
Qed.

Lemma str_of_nat_inj (n m : nat) : str_of_nat n = str_of_nat m -> n = m.
Proof.
  intros H. apply (f_equal nat_of_str) in H.
  rewrite !nat_of_str_of_nat in H. now injection H.
Qed.

Lemma string_of_uint_digits (d : Decimal.uint) :
  Forall (fun c => is_digit c = true)
    (list_ascii_of_string (NilEmpty.string_of_uint d)).
Proof. induction d; cbn; constructor; (reflexivity || assumption). Qed.

Lemma str_of_nat_digits (n : nat) :
  Forall (fun c => is_digit c = true) (list_ascii_of_string (str_of_nat n)).
Proof.
  unfold str_of_nat, NilZero.string_of_uint.
  destruct (Nat.to_uint n) eqn:Hd; try (rewrite <- Hd; apply string_of_uint_digits);
    try apply (string_of_uint_digits (Decimal.D0 Decimal.Nil)).
  all: apply string_of_uint_digits.
Qed.

(** Two lists of digits followed by the same character that is no digit:
    the digits and what follows agree. *)
Lemma digits_then_marker (x : ascii) :
  is_digit x = false ->
  forall a b r1 r2 : list ascii,
    Forall (fun c => is_digit c = true) a ->
    Forall (fun c => is_digit c = true) b ->
    a ++ x :: r1 = b ++ x :: r2 -> a = b /\ r1 = r2.
Proof.
  intros Hx. induction a as [|c a IH]; intros b r1 r2 Ha Hb Heq.
  - destruct b as [|d b]; cbn in Heq.
    + injection Heq as ->. now split.
    + injection Heq as <- _. apply Forall_cons in Hb as [Hd _]. congruence.
  - apply Forall_cons in Ha as [Hc Ha]. destruct b as [|d b]; cbn in Heq.
    + injection Heq as -> _. congruence.
    + injection Heq as <- Heq. apply Forall_cons in Hb as [_ Hb].
      destruct (IH b r1 r2 Ha Hb Heq) as [-> ->]. now split.
Qed.

Lemma chars_inj (s t : string) :
  list_ascii_of_string s = list_ascii_of_string t -> s = t.
Proof.
  intros H. apply (f_equal string_of_list_ascii) in H.
  now rewrite !string_of_list_ascii_of_string in H.
Qed.

(** The id of a chunk determines the id of its document and its position. *)
Lemma chunk_id_inj (id1 id2 : string) (i j : nat) :
  id1 +:+ "_chunk_" +:+ str_of_nat i = id2 +:+ "_chunk_" +:+ str_of_nat j ->
  id1 = id2 /\ i = j.
Proof.
  intros H. apply (f_equal list_ascii_of_string) in H.
  rewrite !chars_append in H. apply (f_equal (@rev ascii)) in H.
  rewrite !rev_app_distr in H. cbn [list_ascii_of_string rev app] in H.
  rewrite <- !app_assoc in H. cbn [app] in H.
  apply digits_then_marker in H as [Hn Hrest];
    [| reflexivity | apply Forall_rev, str_of_nat_digits..].
  apply (f_equal (@rev ascii)) in Hn. rewrite !rev_involutive in Hn.
  apply chars_inj, str_of_nat_inj in Hn.
  injection Hrest as Hrest. apply (f_equal (@rev ascii)) in Hrest.
  rewrite !rev_involutive in Hrest. apply chars_inj in Hrest. now split.
Qed.

Lemma process_document_ids (chunk_size chunk_overlap : Z) (fuel : nat)
  (document : Document.t) (processed_chunks : list ProcessedChunk.t) :
  process_document chunk_size chunk_overlap fuel document = Some processed_chunks ->
  ProcessedChunk.id <$> processed_chunks
  = (fun i => Document.id document +:+ "_chunk_" +:+ str_of_nat i)
      <$> seq 0 (length processed_chunks).
Proof.
  intros Hrun. unfold process_document in Hrun.
  destruct (negb (str_truthy _)); [now injection Hrun as <-|].
  destruct (chunk_by_sentences _ _ _ _) as [chunks|]; [|discriminate].
  destruct (negb (list_truthy chunks)); injection Hrun as <-; [reflexivity|].
  apply list_eq. intros i.
  rewrite !list_lookup_fmap, length_imap, list_lookup_imap.
  destruct (chunks !! i) as [c|] eqn:Hc; simpl.
  - rewrite lookup_seq_lt; [reflexivity|]. now apply lookup_lt_Some in Hc.
  - rewrite lookup_seq_ge; [reflexivity|]. apply lookup_ge_None in Hc. lia.
Qed.

Lemma process_documents_ids_NoDup (chunk_size chunk_overlap : Z) (fuel : nat) :
  forall (documents : list Document.t) (all_chunks : list ProcessedChunk.t),
    NoDup (Document.id <$> documents) ->
    process_documents chunk_size chunk_overlap fuel documents = Some all_chunks ->
    NoDup (ProcessedChunk.id <$> all_chunks)
    /\ forall x, x ∈ (ProcessedChunk.id <$> all_chunks) ->
         exists document i,
           document ∈ documents
           /\ x = Document.id document +:+ "_chunk_" +:+ str_of_nat i.
Proof.
  intros documents.
  induction documents as [|document rest IH]; intros all_chunks Hnd Hrun.
  - injection Hrun as <-. split; [constructor|].
    intros x Hx. cbn in Hx. apply elem_of_nil in Hx as [].
  - cbn [process_documents] in Hrun. cbn [fmap list_fmap] in Hnd.
    apply NoDup_cons in Hnd as [Hfresh Hnd].
    destruct (process_document _ _ _ document) as [first|] eqn:Hfirst;
      [|discriminate].
    destruct (process_documents _ _ _ rest) as [others|] eqn:Hothers;
      [|discriminate].
    injection Hrun as <-.
    destruct (IH others Hnd eq_refl) as [Hnd_others Hfrom].
    apply process_document_ids in Hfirst. rewrite fmap_app, Hfirst.
    split.
    + apply NoDup_app. split; [|split; [|exact Hnd_others]].
      * apply NoDup_fmap_2; [|apply NoDup_seq].
        intros i j Hij. now apply chunk_id_inj in Hij.
      * intros x Hx Hx'. apply list_elem_of_fmap in Hx as (i & -> & _).
        destruct (Hfrom _ Hx') as (d & j & Hd & Hid).
        apply chunk_id_inj in Hid as [Hid _]. apply Hfresh.
        rewrite Hid. now apply list_elem_of_fmap_2.
    + intros x Hx. apply elem_of_app in Hx as [Hx|Hx].
      * apply list_elem_of_fmap in Hx as (i & -> & _).
        exists document, i. split; [left | reflexivity].
      * destruct (Hfrom _ Hx) as (d & j & Hd & Hid).
        exists d, j. split; [now right | exact Hid].
Qed.

(** X8: when the documents have pairwise different ids, the chunks that
    [process_documents] makes of them have pairwise different ids. *)
Theorem process_documents_unique_ids (chunk_size chunk_overlap : Z)
  (fuel : nat) (documents : list Document.t)
  (all_chunks : list ProcessedChunk.t) :
  NoDup (Document.id <$> documents) ->
  process_documents chunk_size chunk_overlap fuel documents = Some all_chunks ->
  NoDup (ProcessedChunk.id <$> all_chunks).
Proof.
  intros Hnd Hrun.
  now destruct (process_documents_ids_NoDup chunk_size chunk_overlap fuel
                  documents all_chunks Hnd Hrun).
Qed.

Lemma process_documents_unique_ids_witness :
  let documents := [worked_document "" "" "" "" "" "" [] ∅; second_document] in
  let all_chunks := default [] (process_documents 4 1 0 documents) in
  NoDup (Document.id <$> documents)
  /\ process_documents 4 1 0 documents = Some all_chunks
  /\ NoDup (ProcessedChunk.id <$> all_chunks).
Proof.
  intros documents all_chunks.
  assert (Hnd : NoDup (Document.id <$> documents)).
  { apply NoDup_cons. split; [|apply NoDup_singleton].
    intros H. apply list_elem_of_singleton in H. discriminate. }
  split; [exact Hnd|]. split; [reflexivity|].
  apply (process_documents_unique_ids 4 1 0 documents all_chunks);
    [exact Hnd | reflexivity].
Defined.

(** ** utils/retry.py: the number of attempts *)

Lemma retry_loop_catching_all {World A : Type} (attempts_left : nat)
  (func : World -> result A * World) (w : World) :
  retry_loop_catching (fun _ => true) attempts_left func w
  = retry_loop attempts_left func w.
Proof.
  revert w. induction attempts_left as [|k IH]; intros w;
    cbn [retry_loop_catching retry_loop];
    destruct (func w) as [[a|e] w']; auto.
Qed.

(** X9: the wrapper of [retry_with_backoff] calls the operation again after
    every caught failure, at most [max_retries] times: it returns the first
    success without a further call when at most [max_retries] caught
    failures precede it; after [max_retries + 1] failures it raises the last
    one; and an exception that it does not catch is raised at once. *)
Theorem retry_with_backoff_attempts {A : Type} (catches : string -> bool)
  (otherwise : result A) (failures : list string) (a : A) (e : string)
  (more : nat) (rest : list (result A)) :
  Forall (fun failure => catches failure = true) failures ->
  retry_with_backoff_catching catches (length failures + more)
    (scripted otherwise) ((Raise <$> failures) ++ Ok a :: rest)
  = (Ok a, rest)
  /\ retry_with_backoff_catching catches (length failures)
       (scripted otherwise) ((Raise <$> failures) ++ Raise e :: rest)
     = (Raise e, rest)
  /\ (catches e = false ->
      retry_with_backoff_catching catches (length failures + more)
        (scripted otherwise) ((Raise <$> failures) ++ Raise e :: rest)
      = (Raise e, rest)).
Proof.
  unfold retry_with_backoff_catching.
  induction 1 as [|failure failures Hcatch _ IH].
  - split; [now destruct more|]. split.
    + cbn. now destruct (catches e).
    + intros Hc. destruct more; cbn; now rewrite Hc.
  - destruct IH as (IH1 & IH2 & IH3).
    cbn [length fmap list_fmap app Nat.add retry_loop_catching scripted].
    rewrite Hcatch. auto.
Qed.

Lemma retry_with_backoff_attempts_witness :
  Forall (fun failure => (fun _ : string => true) failure = true)
    ["timeout"; "timeout"]
  /\ (retry_with_backoff_catching (fun _ => true) (length ["timeout"; "timeout"] + 1)
        (scripted (Raise "end of script"))
        ((Raise <$> ["timeout"; "timeout"]) ++ Ok 7 :: [Ok 8])
      = (Ok 7, [Ok 8])
      /\ retry_with_backoff_catching (fun _ => true) (length ["timeout"; "timeout"])
           (scripted (Raise "end of script"))
           ((Raise <$> ["timeout"; "timeout"]) ++ Raise "quota" :: [Ok 8])
         = (Raise "quota", [Ok 8])
      /\ ((fun _ : string => true) "quota" = false ->
          retry_with_backoff_catching (fun _ => true)
            (length ["timeout"; "timeout"] + 1)
            (scripted (Raise "end of script"))
            ((Raise <$> ["timeout"; "timeout"]) ++ Raise "quota" :: [Ok 8])
          = (Raise "quota", [Ok 8]))).
Proof.
  assert (H : Forall (fun failure => (fun _ : string => true) failure = true)
                ["timeout"; "timeout"]) by (repeat constructor).
  split; [exact H|].
  apply (retry_with_backoff_attempts (fun _ => true) (Raise "end of script")
           ["timeout"; "timeout"] 7 "quota" 1 [Ok 8] H).
Defined.

(** ** EmbeddingService.embed_chunks for an arbitrary provider *)

Lemma py_slice_nonneg {A} (l : list A) (a b : Z) :
  0 <= a -> a <= b ->
  py_slice l a b = take (Z.to_nat (b - a)) (drop (Z.to_nat a) l).
Proof.
  intros Ha Hab. destruct (Z.le_gt_cases a (py_len l)) as [Hin|Hout].
  - now apply py_slice_clamped.
  - unfold py_slice, slice_bound, py_len in *.
    destruct (Z.ltb_spec a 0); [lia|]. destruct (Z.ltb_spec b 0); [lia|].
    rewrite !(drop_ge l) by lia. now rewrite !take_nil.
Qed.

Lemma py_zip_fst_sublist {A B} (xs : list A) (ys : list B) :
  (fst <$> py_zip xs ys) `sublist_of` xs.
Proof.
  revert ys. induction xs as [|x xs IH]; intros ys; [constructor|].
  destruct ys as [|y ys]; cbn [py_zip fmap list_fmap fst].
  - apply sublist_nil_l.
  - apply sublist_skip, IH.
Qed.

(** Whatever the provider does, the iterations for the indices
    [k * batch_size], [(k + 1) * batch_size], ... add chunks taken in order
    from the chunks at position [k * batch_size] and after. *)
Lemma embed_chunks_loop_sublist {World Vector : Type}
  (embeddings_create : list string -> World -> result (list Vector) * World)
  (batch_size : Z) (chunks : list ProcessedChunk.t) :
  0 < batch_size ->
  forall (m k : nat) (results : list (ProcessedChunk.t * Vector)) (w : World),
    exists added w',
      embed_chunks_loop embeddings_create batch_size chunks
        ((fun j : nat => Z.of_nat j * batch_size) <$> seq k m) results w
      = (results ++ added, w')
      /\ (fst <$> added) `sublist_of` drop (k * Z.to_nat batch_size) chunks.
Proof.
  intros Hpos. induction m as [|m IH]; intros k results w.
  - exists [], w. cbn. rewrite app_nil_r. split; [reflexivity|].
    apply sublist_nil_l.
  - cbn [seq fmap list_fmap embed_chunks_loop].
    rewrite py_slice_nonneg by nia.
    replace (Z.of_nat k * batch_size + batch_size - Z.of_nat k * batch_size)
      with batch_size by lia.
    replace (Z.to_nat (Z.of_nat k * batch_size))
      with (k * Z.to_nat batch_size)%nat by nia.
    set (batch := take (Z.to_nat batch_size)
                    (drop (k * Z.to_nat batch_size) chunks)).
    assert (Hsplit : drop (k * Z.to_nat batch_size) chunks
                     = batch ++ drop (S k * Z.to_nat batch_size) chunks).
    { unfold batch.
      replace (S k * Z.to_nat batch_size)%nat
        with (k * Z.to_nat batch_size + Z.to_nat batch_size)%nat by lia.
      now rewrite <- drop_drop, take_drop. }
    destruct (generate_embeddings embeddings_create
                (ProcessedChunk.content <$> batch) w) as [[vectors|e] w1].
    + destruct (IH (S k) (results ++ py_zip batch vectors) w1)
        as (added & w' & -> & Hsub).
      exists (py_zip batch vectors ++ added), w'.
      split; [now rewrite app_assoc|].
      rewrite fmap_app, Hsplit. apply sublist_app; [|exact Hsub].
      apply py_zip_fst_sublist.
    + destruct (IH (S k) results w1) as (added & w' & -> & Hsub).
      exists added, w'. split; [reflexivity|].
      rewrite Hsplit. now apply sublist_inserts_l.
Qed.

(** X10: for every provider, [embed_chunks] with a positive [batch_size]
    returns without an exception, and the chunks of its result are chunks of
    the input in their order, each at most once per occurrence, so never
    more pairs than chunks; with [batch_size = 0] it raises before any call
    of the provider, and with a negative [batch_size] it returns the empty
    list without any call. *)
Theorem embed_chunks_any_provider {World Vector : Type}
  (embeddings_create : list string -> World -> result (list Vector) * World)
  (batch_size : Z) (chunks : list ProcessedChunk.t) (w : World) :
  (0 < batch_size ->
   exists embedded w',
     embed_chunks embeddings_create batch_size chunks w = (Ok embedded, w')
     /\ (fst <$> embedded) `sublist_of` chunks
     /\ py_len embedded <= py_len chunks)
  /\ (batch_size = 0 ->
      embed_chunks embeddings_create batch_size chunks w
      = (Raise "range() arg 3 must not be zero", w))
  /\ (batch_size < 0 ->
      embed_chunks embeddings_create batch_size chunks w = (Ok [], w)).
Proof.
  unfold embed_chunks, py_range0. split; [|split].
  - intros Hpos. destruct (Z.eqb_spec batch_size 0); [lia|].
    destruct (Z.ltb_spec batch_size 0); [lia|].
    destruct (embed_chunks_loop_sublist embeddings_create batch_size chunks Hpos
                (Z.to_nat ((py_len chunks + batch_size - 1) / batch_size))
                0 [] w) as (added & w' & -> & Hsub).
    exists added, w'. cbn [app] in *. rewrite drop_0 in Hsub.
    split; [reflexivity|]. split; [exact Hsub|].
    apply sublist_length in Hsub. rewrite length_fmap in Hsub.
    unfold py_len. lia.
  - intros ->. reflexivity.
  - intros Hneg. destruct (Z.eqb_spec batch_size 0); [lia|].
    destruct (Z.ltb_spec batch_size 0); [reflexivity | lia].
Qed.

(** ** SearchService.clear_index and SearchService.upload_documents *)

Lemma batches_fuel_concat {A} (n : nat) :
  (0 < n)%nat ->
  forall (fuel : nat) (l : list A),
    (length l <= fuel)%nat -> concat (batches_fuel fuel n l) = l.
Proof.
  intros Hn. induction fuel as [|fuel IH]; intros l Hlen.
  - destruct l; [reflexivity | simpl in Hlen; lia].
  - destruct l as [|x l]; [reflexivity|].
    cbn [batches_fuel concat]. rewrite IH.
    + apply take_drop.
    + rewrite length_drop. simpl in *. lia.
Qed.

(** The batches of a list, put together again, are the list. *)
Lemma batches_concat {A} (n : nat) (l : list A) :
  (0 < n)%nat -> concat (batches n l) = l.
Proof. intros Hn. now apply batches_fuel_concat. Qed.

Lemma batches_fuel_sizes {A} (n : nat) :
  (0 < n)%nat ->
  forall (fuel : nat) (l : list A),
    Forall (fun batch => (0 < length batch <= n)%nat) (batches_fuel fuel n l).
Proof.
  intros Hn. induction fuel as [|fuel IH]; intros l; [constructor|].
  destruct l as [|x l]; [constructor|].
  cbn [batches_fuel]. constructor; [|apply IH].
  rewrite length_take. simpl. lia.
Qed.

(** No batch is empty and none has more than [n] elements. *)
Lemma batches_sizes {A} (n : nat) (l : list A) :
  (0 < n)%nat ->
  Forall (fun batch => (0 < length batch <= n)%nat) (batches n l).
Proof. intros Hn. now apply batches_fuel_sizes. Qed.

Section SearchServiceLoops.

Context {World Vector : Type}.
Variable client_delete_documents : list string -> World -> result unit * World.
Variable client_upload_documents :
  list (SearchDocument.t Vector) -> World -> result (list bool) * World.
Variable batch_size : Z.
Hypothesis batch_size_positive : 0 < batch_size.

(** The slice at the index [k * batch_size] is the first batch of what is
    left of the list there. *)
Lemma slice_is_first_batch {A} (l : list A) (k : nat) :
  (k * Z.to_nat batch_size < length l)%nat ->
  py_slice l (Z.of_nat k * batch_size) (Z.of_nat k * batch_size + batch_size)
  = take (Z.to_nat batch_size) (drop (k * Z.to_nat batch_size) l)
  /\ batches (Z.to_nat batch_size) (drop (k * Z.to_nat batch_size) l)
     = take (Z.to_nat batch_size) (drop (k * Z.to_nat batch_size) l)
       :: batches (Z.to_nat batch_size) (drop (S k * Z.to_nat batch_size) l).
Proof.
  intros Hk. split.
  - rewrite py_slice_nonneg by nia. f_equal; [lia|]. f_equal. nia.
  - rewrite batches_unfold; [|lia|].
    + rewrite drop_drop. do 3 f_equal. lia.
    + intros Hnil. apply (f_equal length) in Hnil.
      rewrite length_drop in Hnil. simpl in Hnil. lia.
Qed.

(** The loop of [clear_index] hands the batches to [delete_documents] one
    after the other and stops at the first that fails. *)
Lemma clear_index_loop_batches (doc_ids : list string) :
  forall (m k : nat) (delete_calls : list (list string)) (w : World),
    (length doc_ids <= (k + m) * Z.to_nat batch_size)%nat ->
    (0 < m -> (k + m - 1) * Z.to_nat batch_size < length doc_ids)%nat ->
    SearchService.clear_index_loop client_delete_documents batch_size doc_ids
      ((fun j : nat => Z.of_nat j * batch_size) <$> seq k m) delete_calls w
    = ((deleted_in_turn client_delete_documents
          (batches (Z.to_nat batch_size)
             (drop (k * Z.to_nat batch_size) doc_ids)) w).1,
       delete_calls
       ++ (deleted_in_turn client_delete_documents
             (batches (Z.to_nat batch_size)
                (drop (k * Z.to_nat batch_size) doc_ids)) w).2).
Proof.
  induction m as [|m IH]; intros k delete_calls w Hend Hlast.
  - cbn. rewrite drop_ge by lia. cbn. now rewrite app_nil_r.
  - cbn [seq fmap list_fmap SearchService.clear_index_loop].
    assert (Hk : (k * Z.to_nat batch_size < length doc_ids)%nat) by nia.
    destruct (slice_is_first_batch doc_ids k Hk) as [-> ->].
    set (batch := take (Z.to_nat batch_size)
                    (drop (k * Z.to_nat batch_size) doc_ids)).
    cbn [deleted_in_turn].
    destruct (client_delete_documents batch w) as [[[]|e] w1].
    + rewrite IH;
        [|lia | intros Hm; replace (S k + m - 1)%nat with (k + S m - 1)%nat by lia;
                apply Hlast; lia].
      destruct (deleted_in_turn client_delete_documents _ w1)
        as [[outcome w2] handed].
      cbn [fst snd]. now rewrite <- app_assoc.
    + reflexivity.
Qed.

(** The batches handed over are an initial part of the batches, and all of
    them when no deletion raised. *)
Lemma deleted_in_turn_handed (bs : list (list string)) :
  forall (w w' : World) outcome handed,
    deleted_in_turn client_delete_documents bs w = (outcome, w', handed) ->
    handed `prefix_of` bs /\ (outcome = Ok tt -> handed = bs).
Proof.
  induction bs as [|batch later IH]; intros w w' outcome handed;
    cbn [deleted_in_turn].
  - intros [= <- <- <-]. split; [apply prefix_nil | reflexivity].
  - destruct (client_delete_documents batch w) as [[[]|e] w1].
    + destruct (deleted_in_turn client_delete_documents later w1)
        as [[outcome1 w2] handed1] eqn:Hlater.
      intros [= <- <- <-]. destruct (IH _ _ _ _ Hlater) as [Hprefix Hall].
      split; [now apply prefix_cons | intros Hok; now rewrite Hall].
    + intros [= <- <- <-]. split; [apply prefix_cons, prefix_nil | discriminate].
Qed.

(** Deletions that succeed, followed by one that raises. *)
Lemma deleted_in_turn_raise (done : list (list string)) :
  forall (failed : list string) (later : list (list string)) (e : string)
         (w w0 w2 : World),
    deleted_in_turn client_delete_documents done w = (Ok tt, w0, done) ->
    client_delete_documents failed w0 = (Raise e, w2) ->
    deleted_in_turn client_delete_documents (done ++ failed :: later) w
    = (Raise e, w2, done ++ [failed]).
Proof.
  induction done as [|batch done IH]; intros failed later e w w0 w2;
    cbn [app deleted_in_turn].
  - intros [= <-] ->. reflexivity.
  - destruct (client_delete_documents batch w) as [[[]|e1] w1]; [|discriminate].
    destruct (deleted_in_turn client_delete_documents done w1)
      as [[outcome1 w3] handed1] eqn:Hdone.
    intros [= -> -> ->] Hraise.
    now rewrite (IH failed later e w1 w0 w2 Hdone Hraise).
Qed.

(** [clear_index] on an index with the ids [doc_ids]. *)
Lemma clear_index_in_turn
  (search_all_ids : World -> result (list string) * World)
  (doc_ids : list string) (w w1 : World) :
  search_all_ids w = (Ok doc_ids, w1) ->
  SearchService.clear_index search_all_ids client_delete_documents
    batch_size w
  = deleted_in_turn client_delete_documents
      (batches (Z.to_nat batch_size) doc_ids) w1.
Proof.
  intros Hsearch. unfold SearchService.clear_index. rewrite Hsearch.
  destruct doc_ids as [|doc_id doc_ids]; cbn [list_truthy negb];
    [reflexivity|].
  set (l := doc_id :: doc_ids) in *.
  unfold py_range0.
  destruct (Z.eqb_spec batch_size 0); [lia|].
  destruct (Z.ltb_spec batch_size 0); [lia|].
  assert (Hq : batch_size * ((py_len l + batch_size - 1) / batch_size)
               <= py_len l + batch_size - 1)
    by (apply Z.mul_div_le; lia).
  assert (Hq' : py_len l + batch_size - 1
                < batch_size * Z.succ ((py_len l + batch_size - 1) / batch_size))
    by (apply Z.mul_succ_div_gt; lia).
  assert (Hnonneg : 0 <= (py_len l + batch_size - 1) / batch_size)
    by (apply Z.div_pos; unfold py_len; lia).
  rewrite (clear_index_loop_batches l
             (Z.to_nat ((py_len l + batch_size - 1) / batch_size)) 0 [] w1).
  - rewrite Nat.mul_0_l, drop_0. cbn [app].
    now destruct (deleted_in_turn client_delete_documents _ w1) as [[? ?] ?].
  - unfold py_len in *. nia.
  - unfold py_len in *. intros Hm. nia.
Qed.

Lemma count_results_sum (items : list bool) :
  forall uploaded failed uploaded' failed',
    SearchService.count_results items uploaded failed = (uploaded', failed') ->
    uploaded <= uploaded' /\ failed <= failed'
    /\ uploaded' + failed' = uploaded + failed + py_len items.
Proof.
  unfold py_len.
  induction items as [|succeeded items IH]; intros u f u' f' Hcount.
  - injection Hcount as <- <-. cbn. lia.
  - cbn [SearchService.count_results] in Hcount.
    destruct succeeded; apply IH in Hcount; cbn [length]; lia.
Qed.

(** The client answers an upload that it accepts with one item per
    document. *)
Hypothesis one_item_per_document :
  forall documents w items w',
    client_upload_documents documents w = (Ok items, w') ->
    length items = length documents.

(** The loop of [upload_documents] counts every chunk of the remaining
    batches once, as uploaded or as failed. *)
Lemma upload_documents_loop_counts
  (pairs : list (ProcessedChunk.t * Vector)) :
  forall (m k : nat) (uploaded failed : Z) (w : World),
    (length pairs <= (k + m) * Z.to_nat batch_size)%nat ->
    exists uploaded' failed' w',
      SearchService.upload_documents_loop client_upload_documents batch_size
        pairs ((fun j : nat => Z.of_nat j * batch_size) <$> seq k m)
        uploaded failed w
      = (uploaded', failed', w')
      /\ uploaded <= uploaded' /\ failed <= failed'
      /\ uploaded' + failed'
         = uploaded + failed
           + py_len (drop (k * Z.to_nat batch_size) pairs).
Proof.
  induction m as [|m IH]; intros k uploaded failed w Hend.
  - exists uploaded, failed, w. cbn. rewrite drop_ge by lia.
    change (py_len []) with 0. repeat split; lia.
  - cbn [seq fmap list_fmap SearchService.upload_documents_loop].
    rewrite py_slice_nonneg by nia.
    replace (Z.of_nat k * batch_size + batch_size - Z.of_nat k * batch_size)
      with batch_size by lia.
    replace (Z.to_nat (Z.of_nat k * batch_size))
      with (k * Z.to_nat batch_size)%nat by nia.
    set (batch := take (Z.to_nat batch_size)
                    (drop (k * Z.to_nat batch_size) pairs)).
    assert (Hsplit : py_len (drop (k * Z.to_nat batch_size) pairs)
                     = py_len batch
                       + py_len (drop (S k * Z.to_nat batch_size) pairs)).
    { unfold py_len, batch. rewrite length_take, !length_drop. lia. }
    destruct (client_upload_documents
                (SearchService.to_search_document <$> batch) w)
      as [[items|e] w1] eqn:Hcall.
    + apply one_item_per_document in Hcall. rewrite length_fmap in Hcall.
      destruct (SearchService.count_results items uploaded failed)
        as [u1 f1] eqn:Hcount.
      apply count_results_sum in Hcount as (Hu & Hf & Hsum).
      destruct (IH (S k) u1 f1 w1) as (u' & f' & w' & -> & Hu' & Hf' & Hsum');
        [lia|].
      exists u', f', w'. unfold py_len in *. repeat split; lia.
    + destruct (IH (S k) uploaded (failed + py_len batch) w1)
        as (u' & f' & w' & -> & Hu' & Hf' & Hsum'); [lia|].
      exists u', f', w'. unfold py_len in *. repeat split; lia.
Qed.

Lemma upload_documents_body_counts
  (pairs : list (ProcessedChunk.t * Vector)) (w : World) :
  exists uploaded failed w',
    SearchService.upload_documents_body client_upload_documents batch_size
      pairs w = (Ok (uploaded, failed), w')
    /\ 0 <= uploaded /\ 0 <= failed /\ uploaded + failed = py_len pairs.
Proof.
  unfold SearchService.upload_documents_body, py_range0.
  destruct pairs as [|pair pairs]; cbn [list_truthy negb].
  { exists 0, 0, w. repeat split; reflexivity || lia. }
  destruct (Z.eqb_spec batch_size 0); [lia|].
  destruct (Z.ltb_spec batch_size 0); [lia|].
  set (l := pair :: pairs).
  assert (Hq' : py_len l + batch_size - 1
                < batch_size * Z.succ ((py_len l + batch_size - 1) / batch_size))
    by (apply Z.mul_succ_div_gt; lia).
  assert (Hnonneg : 0 <= (py_len l + batch_size - 1) / batch_size)
    by (apply Z.div_pos; unfold py_len; lia).
  destruct (upload_documents_loop_counts l
              (Z.to_nat ((py_len l + batch_size - 1) / batch_size)) 0 0 0 w)
    as (u & f & w' & -> & Hu & Hf & Hsum).
  - unfold py_len in *. nia.
  - exists u, f, w'. rewrite Nat.mul_0_l, drop_0 in Hsum.
    repeat split; lia.
Qed.

End SearchServiceLoops.

(** X11: [clear_index] deletes the ids that the search returned in
    consecutive batches of at most [batch_size] ids, in order, each deletion
    in the state that the one before left, and stops at the first deletion
    that raises: it then raises the same exception, and the batch that
    failed is the last one handed to [delete_documents]. So the batches
    handed over are an initial part of the partition of the ids, none is
    empty, and when [clear_index] returns normally they make up exactly the
    ids found. For an empty index nothing is deleted. *)
Theorem clear_index_deletes_in_batches {World : Type}
  (search_all_ids : World -> result (list string) * World)
  (client_delete_documents : list string -> World -> result unit * World)
  (batch_size : Z) (doc_ids : list string) (w w1 : World) :
  0 < batch_size ->
  search_all_ids w = (Ok doc_ids, w1) ->
  SearchService.clear_index search_all_ids client_delete_documents
    batch_size w
  = deleted_in_turn client_delete_documents
      (batches (Z.to_nat batch_size) doc_ids) w1
  /\ (forall done failed later e w0 w2,
        batches (Z.to_nat batch_size) doc_ids = done ++ failed :: later ->
        deleted_in_turn client_delete_documents done w1 = (Ok tt, w0, done) ->
        client_delete_documents failed w0 = (Raise e, w2) ->
        SearchService.clear_index search_all_ids client_delete_documents
          batch_size w = (Raise e, w2, done ++ [failed]))
  /\ exists outcome w' delete_calls,
       SearchService.clear_index search_all_ids client_delete_documents
         batch_size w = (outcome, w', delete_calls)
       /\ delete_calls `prefix_of` batches (Z.to_nat batch_size) doc_ids
       /\ Forall (fun batch => 0 < py_len batch <= batch_size) delete_calls
       /\ (outcome = Ok tt -> concat delete_calls = doc_ids)
       /\ (doc_ids = [] -> outcome = Ok tt /\ w' = w1 /\ delete_calls = []).
Proof.
  intros Hpos Hsearch.
  pose proof (clear_index_in_turn client_delete_documents batch_size Hpos
                search_all_ids doc_ids w w1 Hsearch) as Hclear.
  split; [exact Hclear|]. split.
  { intros done failed later e w0 w2 Hsplit Hdone Hraise.
    rewrite Hclear, Hsplit.
    now apply deleted_in_turn_raise with (w0 := w0). }
  rewrite Hclear.
  destruct (deleted_in_turn client_delete_documents
              (batches (Z.to_nat batch_size) doc_ids) w1)
    as [[outcome w'] delete_calls] eqn:Hturn.
  exists outcome, w', delete_calls. split; [reflexivity|].
  destruct (deleted_in_turn_handed client_delete_documents _ _ _ _ _ Hturn)
    as [Hprefix Hall].
  split; [exact Hprefix|]. split.
  { destruct Hprefix as [rest Hrest].
    pose proof (batches_sizes (Z.to_nat batch_size) doc_ids ltac:(lia)) as Hsizes.
    rewrite Hrest in Hsizes. apply Forall_app in Hsizes as [Hsizes _].
    eapply Forall_impl; [exact Hsizes|]. unfold py_len. simpl. intros; lia. }
  split.
  - intros Hok. rewrite (Hall Hok). apply batches_concat. lia.
  - intros ->. cbn in Hturn. injection Hturn as <- <- <-. auto.
Qed.

Lemma clear_index_deletes_in_batches_witness :
  0 < 1
  /\ three_ids 0%nat = (Ok ["a"; "b"; "c"], 1%nat)
  /\ SearchService.clear_index three_ids delete_until_outage 1 0%nat
     = (Raise "service unavailable", 3%nat, [["a"]; ["b"]]).
Proof.
  split; [lia|]. split; [reflexivity|].
  apply (proj1 (proj2
           (clear_index_deletes_in_batches three_ids delete_until_outage 1
              ["a"; "b"; "c"] 0%nat 1%nat ltac:(lia) eq_refl))
           [["a"]] ["b"] [["c"]] "service unavailable" 2%nat 3%nat);
    reflexivity.
Defined.

(** X12: with a positive [batch_size] and a search client that answers an
    accepted upload with one item per document, [upload_documents] never
    raises (a batch whose upload raises is counted as failed and the loop
    goes on, so the retry decorator never repeats the call), and every chunk
    is counted exactly once: uploaded + failed is the number of chunks
    given. *)
Theorem upload_documents_accounts_for_every_chunk {World Vector : Type}
  (client_upload_documents :
     list (SearchDocument.t Vector) -> World -> result (list bool) * World)
  (batch_size : Z) (chunks_with_embeddings : list (ProcessedChunk.t * Vector))
  (w : World) :
  0 < batch_size ->
  (forall documents w0 items w',
      client_upload_documents documents w0 = (Ok items, w') ->
      length items = length documents) ->
  exists uploaded failed w',
    SearchService.upload_documents client_upload_documents batch_size
      chunks_with_embeddings w = (Ok (uploaded, failed), w')
    /\ SearchService.upload_documents_body client_upload_documents batch_size
         chunks_with_embeddings w = (Ok (uploaded, failed), w')
    /\ 0 <= uploaded /\ 0 <= failed
    /\ uploaded + failed = py_len chunks_with_embeddings.
Proof.
  intros Hpos Hitems.
  destruct (upload_documents_body_counts client_upload_documents batch_size
              Hpos Hitems chunks_with_embeddings w)
    as (uploaded & failed & w' & Hbody & Hu & Hf & Hsum).
  exists uploaded, failed, w'.
  unfold SearchService.upload_documents, retry_with_backoff.
  cbn [retry_loop]. rewrite Hbody. auto.
Qed.

Lemma upload_documents_accounts_for_every_chunk_witness :
  0 < 4
  /\ (forall documents w0 items w',
         accept_all documents w0 = (Ok items, w') ->
         length items = length documents)
  /\ exists uploaded failed w',
       SearchService.upload_documents accept_all 4
         ((fun chunk => (chunk, sample_vector (ProcessedChunk.content chunk)))
            <$> six_chunks) 0%nat
       = (Ok (uploaded, failed), w')
       /\ SearchService.upload_documents_body accept_all 4
            ((fun chunk => (chunk, sample_vector (ProcessedChunk.content chunk)))
               <$> six_chunks) 0%nat
          = (Ok (uploaded, failed), w')
       /\ 0 <= uploaded /\ 0 <= failed
       /\ uploaded + failed
          = py_len ((fun chunk =>
                       (chunk, sample_vector (ProcessedChunk.content chunk)))
                      <$> six_chunks).
Proof.
  assert (Hitems : forall documents w0 items w',
             accept_all documents w0 = (Ok items, w') ->
             length items = length documents).
  { intros documents w0 items w' H. injection H as <- _.
    apply length_fmap. }
  split; [lia|]. split; [exact Hitems|].
  apply (upload_documents_accounts_for_every_chunk accept_all 4 _ 0%nat);
    [lia | exact Hitems].
Defined.

(** ** SyncOrchestrator.run_full_sync for arbitrary services *)

Section RunFullSyncInvariants.

Context {World Vector : Type}.
Variable create_or_update_index : World -> result unit * World.
Variable clear_index : World -> result unit * World.
Variable connect : World -> result unit * World.
Variable fetch_all_documents : World -> result (list Document.t) * World.
Variable parser_process_documents :
  list Document.t -> World -> result (list ProcessedChunk.t) * World.
Variable service_embed_chunks :
  list ProcessedChunk.t -> World ->
  result (list (ProcessedChunk.t * Vector)) * World.
Variable upload_documents :
  list (ProcessedChunk.t * Vector) -> World -> result (Z * Z) * World.

Local Abbreviation run :=
  (run_full_sync create_or_update_index clear_index connect
     fetch_all_documents parser_process_documents service_embed_chunks
     upload_documents).

Lemma list_truthy_false_nil {A} (l : list A) :
  list_truthy l = false -> l = [].
Proof. now destruct l. Qed.

Lemma list_truthy_true_pos {A} (l : list A) :
  list_truthy l = true -> 0 < py_len l.
Proof. destruct l; [discriminate|]. unfold py_len. simpl. lia. Qed.

Lemma run_full_sync_ends (w : World) :
  run_end (run w).1.1 (run w).2.
Proof.
  unfold run_full_sync, attempt.
  destruct (create_or_update_index w) as [[[]|e] w1]; cbn [fst snd app];
    [|apply (end_raised 0 e initial_stats); cbn; intros; lia || reflexivity].
  destruct (clear_index w1) as [[[]|e] w2]; cbn [fst snd app];
    [|apply (end_raised 1 e initial_stats); cbn; intros; lia || reflexivity].
  destruct (connect w2) as [[[]|e] w3]; cbn [fst snd app];
    [|apply (end_raised 2 e initial_stats); cbn; intros; lia || reflexivity].
  destruct (fetch_all_documents w3) as [[documents|e] w4]; cbn [fst snd app];
    [|apply (end_raised 3 e initial_stats); cbn; intros; lia || reflexivity].
  destruct (list_truthy documents) eqn:Hdocuments; cbn [negb fst snd];
    [|apply list_truthy_false_nil in Hdocuments as ->; apply end_no_documents].
  apply list_truthy_true_pos in Hdocuments.
  destruct (parser_process_documents documents w4) as [[chunks|e] w5];
    cbn [fst snd app];
    [|apply (end_raised 4 e
               (set_documents_fetched (py_len documents) initial_stats));
      cbn; intros; lia || reflexivity].
  destruct (list_truthy chunks) eqn:Hchunks; cbn [negb fst snd];
    [|apply list_truthy_false_nil in Hchunks as ->;
      now apply end_no_chunks].
  apply list_truthy_true_pos in Hchunks.
  destruct (service_embed_chunks chunks w5) as [[embedded|e] w6];
    cbn [fst snd app];
    [|apply (end_raised 5 e
               (set_chunks_created (py_len chunks)
                  (set_documents_fetched (py_len documents) initial_stats)));
      cbn; intros; lia || reflexivity].
  destruct (list_truthy embedded) eqn:Hembedded; cbn [negb fst snd];
    [|apply list_truthy_false_nil in Hembedded as ->;
      now apply end_no_embeddings].
  apply list_truthy_true_pos in Hembedded.
  destruct (upload_documents embedded w6) as [[[uploaded failed]|e] w7];
    cbn [fst snd app].
  - now apply end_uploaded.
  - apply (end_raised 6 e
             (set_chunks_embedded (py_len embedded)
                (set_chunks_created (py_len chunks)
                   (set_documents_fetched (py_len documents)
                      initial_stats))));
      cbn; intros; lia || reflexivity.
Qed.

End RunFullSyncInvariants.

(** X13: whatever the seven services do, [run_full_sync] calls them in the
    order of the pipeline, each in the state that the call before left, and
    the first call that raises ends the run: no further service is called,
    the state of the world is the one the failed call left, [success] is
    false, [errors] holds the one message of that exception, and the counts
    are those reached before. A run whose seven calls all return reports the
    counts of the upload with [success = True]. So the calls made are always
    an initial part of the pipeline; [success] is only true with an empty
    list of errors; the only run that ends with [success = False] and no
    error is the return after [embed_chunks] gave no embeddings; and chunks
    are only reported as uploaded or failed after all seven calls were made
    without an exception. *)
Theorem run_full_sync_outcome {World Vector : Type}
  (create_or_update_index clear_index connect : World -> result unit * World)
  (fetch_all_documents : World -> result (list Document.t) * World)
  (parser_process_documents :
     list Document.t -> World -> result (list ProcessedChunk.t) * World)
  (service_embed_chunks :
     list ProcessedChunk.t -> World ->
     result (list (ProcessedChunk.t * Vector)) * World)
  (upload_documents :
     list (ProcessedChunk.t * Vector) -> World -> result (Z * Z) * World)
  (w : World) :
  (forall e w1,
      create_or_update_index w = (Raise e, w1) ->
      run_full_sync create_or_update_index clear_index connect
        fetch_all_documents parser_process_documents service_embed_chunks
        upload_documents w
      = (mkSyncStats 0 0 0 0 0 ["Fatal error during sync: " +:+ e] false, w1,
         [CreateOrUpdateIndex]))
  /\ (forall e w1 w2,
        create_or_update_index w = (Ok tt, w1) ->
        clear_index w1 = (Raise e, w2) ->
        run_full_sync create_or_update_index clear_index connect
          fetch_all_documents parser_process_documents service_embed_chunks
          upload_documents w
        = (mkSyncStats 0 0 0 0 0 ["Fatal error during sync: " +:+ e] false,
           w2, [CreateOrUpdateIndex; ClearIndex]))
  /\ (forall e w1 w2 w3,
        create_or_update_index w = (Ok tt, w1) ->
        clear_index w1 = (Ok tt, w2) ->
        connect w2 = (Raise e, w3) ->
        run_full_sync create_or_update_index clear_index connect
          fetch_all_documents parser_process_documents service_embed_chunks
          upload_documents w
        = (mkSyncStats 0 0 0 0 0 ["Fatal error during sync: " +:+ e] false,
           w3, [CreateOrUpdateIndex; ClearIndex; Connect]))
  /\ (forall e w1 w2 w3 w4,
        create_or_update_index w = (Ok tt, w1) ->
        clear_index w1 = (Ok tt, w2) ->
        connect w2 = (Ok tt, w3) ->
        fetch_all_documents w3 = (Raise e, w4) ->
        run_full_sync create_or_update_index clear_index connect
          fetch_all_documents parser_process_documents service_embed_chunks
          upload_documents w
        = (mkSyncStats 0 0 0 0 0 ["Fatal error during sync: " +:+ e] false,
           w4, [CreateOrUpdateIndex; ClearIndex; Connect; FetchAllDocuments]))
  /\ (forall documents w1 w2 w3 w4,
        create_or_update_index w = (Ok tt, w1) ->
        clear_index w1 = (Ok tt, w2) ->
        connect w2 = (Ok tt, w3) ->
        fetch_all_documents w3 = (Ok documents, w4) ->
        documents <> [] ->
        (forall e w5,
            parser_process_documents documents w4 = (Raise e, w5) ->
            run_full_sync create_or_update_index clear_index connect
              fetch_all_documents parser_process_documents
              service_embed_chunks upload_documents w
            = (mkSyncStats (py_len documents) 0 0 0 0
                 ["Fatal error during sync: " +:+ e] false,
               w5,
               [CreateOrUpdateIndex; ClearIndex; Connect; FetchAllDocuments;
                ProcessDocuments]))
        /\ (forall chunks w5,
              parser_process_documents documents w4 = (Ok chunks, w5) ->
              chunks <> [] ->
              (forall e w6,
                  service_embed_chunks chunks w5 = (Raise e, w6) ->
                  run_full_sync create_or_update_index clear_index connect
                    fetch_all_documents parser_process_documents
                    service_embed_chunks upload_documents w
                  = (mkSyncStats (py_len documents) (py_len chunks) 0 0 0
                       ["Fatal error during sync: " +:+ e] false,
                     w6,
                     [CreateOrUpdateIndex; ClearIndex; Connect;
                      FetchAllDocuments; ProcessDocuments; EmbedChunks]))
              /\ (forall embedded w6,
                    service_embed_chunks chunks w5 = (Ok embedded, w6) ->
                    embedded <> [] ->
                    (forall e w7,
                        upload_documents embedded w6 = (Raise e, w7) ->
                        run_full_sync create_or_update_index clear_index
                          connect fetch_all_documents
                          parser_process_documents service_embed_chunks
                          upload_documents w
                        = (mkSyncStats (py_len documents) (py_len chunks)
                             (py_len embedded) 0 0
                             ["Fatal error during sync: " +:+ e] false,
                           w7, pipeline))
                    /\ (forall uploaded failed w7,
                          upload_documents embedded w6
                          = (Ok (uploaded, failed), w7) ->
                          run_full_sync create_or_update_index clear_index
                            connect fetch_all_documents
                            parser_process_documents service_embed_chunks
                            upload_documents w
                          = (mkSyncStats (py_len documents) (py_len chunks)
                               (py_len embedded) uploaded failed [] true,
                             w7, pipeline)))))
  /\ exists stats w' calls,
    run_full_sync create_or_update_index clear_index connect
      fetch_all_documents parser_process_documents service_embed_chunks
      upload_documents w = (stats, w', calls)
    /\ calls `prefix_of` pipeline /\ calls <> []
    /\ (success stats = true -> errors stats = [])
    /\ (errors stats = []
        \/ exists e, errors stats = ["Fatal error during sync: " +:+ e])
    /\ (success stats = false -> errors stats = [] ->
        calls = [CreateOrUpdateIndex; ClearIndex; Connect; FetchAllDocuments;
                 ProcessDocuments; EmbedChunks]
        /\ 0 < chunks_created stats /\ chunks_embedded stats = 0)
    /\ (chunks_uploaded stats <> 0 \/ failed_uploads stats <> 0 ->
        calls = pipeline /\ success stats = true
        /\ 0 < chunks_embedded stats)
    /\ 0 <= documents_fetched stats /\ 0 <= chunks_created stats
    /\ 0 <= chunks_embedded stats.
Proof.
  split; [|split; [|split; [|split; [|split]]]].
  1-4: intros; unfold run_full_sync, attempt;
       repeat match goal with H : _ = (_, _) |- _ => rewrite H; clear H end;
       reflexivity.
  { intros documents w1 w2 w3 w4 H1 H2 H3 H4 Hdocuments.
    unfold run_full_sync, attempt. rewrite H1, H2, H3, H4.
    rewrite (list_truthy_nonempty documents Hdocuments). cbn [negb].
    split; [intros e w5 ->; reflexivity|].
    intros chunks w5 -> Hchunks.
    rewrite (list_truthy_nonempty chunks Hchunks). cbn [negb].
    split; [intros e w6 ->; reflexivity|].
    intros embedded w6 -> Hembedded.
    rewrite (list_truthy_nonempty embedded Hembedded). cbn [negb].
    split; [intros e w7 ->; reflexivity|].
    intros uploaded failed w7 ->. reflexivity. }

  pose proof (run_full_sync_ends create_or_update_index clear_index connect
                fetch_all_documents parser_process_documents
                service_embed_chunks upload_documents w) as Hend.
  destruct (run_full_sync _ _ _ _ _ _ _ w) as [[stats w'] calls].
  exists stats, w', calls. split; [reflexivity|]. cbn [fst snd] in Hend.
  destruct Hend as [n e stats Hn Herrors Hsuccess Hup Hfailed Hd Hc He Hd0 Hc0 He0
                   | | fetched Hfetched | fetched created Hfetched Hcreated
                   | fetched created embedded uploaded failed Hf Hc He].
  - cbn [fatal_error errors success chunks_uploaded failed_uploads
           documents_fetched chunks_created chunks_embedded].
    rewrite Herrors. cbn [app].
    split; [apply prefix_take|]. split; [discriminate|].
    split; [discriminate|]. split; [right; now exists e|].
    split; [discriminate|]. split; [intros [H|H]; congruence|]. auto.
  - cbn. split; [apply (prefix_take pipeline 4)|]. split; [discriminate|].
    split; [reflexivity|]. split; [now left|]. split; [discriminate|].
    split; [intros [H|H]; congruence|]. lia.
  - cbn. split; [apply (prefix_take pipeline 5)|]. split; [discriminate|].
    split; [reflexivity|]. split; [now left|]. split; [discriminate|].
    split; [intros [H|H]; congruence|]. lia.
  - cbn. split; [apply (prefix_take pipeline 6)|]. split; [discriminate|].
    split; [discriminate|]. split; [now left|].
    split; [intros _ _; split; [reflexivity | lia]|].
    split; [intros [H|H]; congruence|]. lia.
  - cbn. split; [reflexivity|]. split; [discriminate|].
    split; [reflexivity|]. split; [now left|]. split; [discriminate|].
    split; [intros _; split; [reflexivity | split; [reflexivity | lia]]|]. lia.
Qed.

(** For a positive batch size [embed_chunks] returns, with at most one pair
    per chunk. *)
Lemma embed_chunks_returns {World Vector : Type}
  (embeddings_create : list string -> World -> result (list Vector) * World)
  (batch_size : Z) (chunks : list ProcessedChunk.t) (w : World) :
  0 < batch_size ->
  exists embedded w',
    embed_chunks embeddings_create batch_size chunks w = (Ok embedded, w')
    /\ py_len embedded <= py_len chunks.
Proof.
  intros Hpos. unfold embed_chunks, py_range0.
  destruct (Z.eqb_spec batch_size 0); [lia|].
  destruct (Z.ltb_spec batch_size 0); [lia|].
  destruct (embed_chunks_loop_sublist embeddings_create batch_size chunks Hpos
              (Z.to_nat ((py_len chunks + batch_size - 1) / batch_size))
              0 [] w) as (added & w' & -> & Hsub).
  exists added, w'. cbn [app] in *. rewrite drop_0 in Hsub.
  split; [reflexivity|].
  apply sublist_length in Hsub. rewrite length_fmap in Hsub.
  unfold py_len. lia.
Qed.

(** The decorated [upload_documents] returns the counts of its body. *)
Lemma upload_documents_counts {World Vector : Type}
  (client_upload_documents :
     list (SearchDocument.t Vector) -> World -> result (list bool) * World)
  (batch_size : Z) (pairs : list (ProcessedChunk.t * Vector)) (w : World) :
  0 < batch_size ->
  (forall documents w0 items w',
      client_upload_documents documents w0 = (Ok items, w') ->
      length items = length documents) ->
  exists uploaded failed w',
    SearchService.upload_documents client_upload_documents batch_size pairs w
    = (Ok (uploaded, failed), w')
    /\ 0 <= uploaded /\ 0 <= failed /\ uploaded + failed = py_len pairs.
Proof.
  intros Hpos Hitems.
  destruct (upload_documents_body_counts client_upload_documents batch_size
              Hpos Hitems pairs w)
    as (uploaded & failed & w' & Hbody & Hcounts).
  exists uploaded, failed, w'.
  unfold SearchService.upload_documents, retry_with_backoff.
  cbn [retry_loop]. now rewrite Hbody.
Qed.

(** X14: in a run of [run_full_sync] over the real [embed_chunks] and
    [upload_documents] (positive batch sizes, a search client that answers
    an accepted upload with one item per document), steps 6 and 7 never end
    the run with an exception, the counts never grow along the pipeline
    (uploaded + failed <= embedded <= created), and a run that reports
    [success = True] accounts for every embedded chunk:
    chunks_uploaded + failed_uploads = chunks_embedded. *)
Theorem run_full_sync_accounts_for_chunks {World Vector : Type}
  (create_or_update_index clear_index connect : World -> result unit * World)
  (fetch_all_documents : World -> result (list Document.t) * World)
  (parser_process_documents :
     list Document.t -> World -> result (list ProcessedChunk.t) * World)
  (embeddings_create : list string -> World -> result (list Vector) * World)
  (embedding_batch_size : Z)
  (client_upload_documents :
     list (SearchDocument.t Vector) -> World -> result (list bool) * World)
  (upload_batch_size : Z) (w : World) :
  0 < embedding_batch_size ->
  0 < upload_batch_size ->
  (forall documents w0 items w',
      client_upload_documents documents w0 = (Ok items, w') ->
      length items = length documents) ->
  exists stats w' calls,
    run_full_sync create_or_update_index clear_index connect
      fetch_all_documents parser_process_documents
      (embed_chunks embeddings_create embedding_batch_size)
      (SearchService.upload_documents client_upload_documents
         upload_batch_size) w = (stats, w', calls)
    /\ 0 <= chunks_uploaded stats /\ 0 <= failed_uploads stats
    /\ chunks_uploaded stats + failed_uploads stats <= chunks_embedded stats
    /\ chunks_embedded stats <= chunks_created stats
    /\ (success stats = true ->
        chunks_uploaded stats + failed_uploads stats = chunks_embedded stats)
    /\ (errors stats <> [] -> (length calls <= 5)%nat).
Proof.
  intros Hembed Hupload Hitems.
  unfold run_full_sync, attempt.
  destruct (create_or_update_index w) as [[[]|e] w1];
    [|do 3 eexists; split; [reflexivity|]; cbn; repeat split; lia || discriminate].
  destruct (clear_index w1) as [[[]|e] w2];
    [|do 3 eexists; split; [reflexivity|]; cbn; repeat split; lia || discriminate].
  destruct (connect w2) as [[[]|e] w3];
    [|do 3 eexists; split; [reflexivity|]; cbn; repeat split; lia || discriminate].
  destruct (fetch_all_documents w3) as [[documents|e] w4];
    [|do 3 eexists; split; [reflexivity|]; cbn; repeat split; lia || discriminate].
  destruct (list_truthy documents) eqn:Hdocuments; cbn [negb];
    [|do 3 eexists; split; [reflexivity|]; cbn; repeat split; lia || congruence].
  destruct (parser_process_documents documents w4) as [[chunks|e] w5];
    [|do 3 eexists; split; [reflexivity|]; cbn; repeat split; lia || discriminate].
  destruct (list_truthy chunks) eqn:Hchunks; cbn [negb];
    [|do 3 eexists; split; [reflexivity|]; cbn; unfold py_len;
      repeat split; lia || congruence].
  destruct (embed_chunks_returns embeddings_create embedding_batch_size chunks
              w5 Hembed) as (embedded & w6 & -> & Hle).
  destruct (list_truthy embedded) eqn:Hembedded; cbn [negb].
  - destruct (upload_documents_counts client_upload_documents
                upload_batch_size embedded w6 Hupload Hitems)
      as (uploaded & failed & w7 & -> & Hu & Hf & Hsum).
    do 3 eexists. split; [reflexivity|]. cbn.
    repeat split; lia || congruence.
  - apply list_truthy_false_nil in Hembedded as ->.
    do 3 eexists. split; [reflexivity|]. cbn. unfold py_len in *.
    repeat split; cbn; lia || congruence.
Qed.

Lemma run_full_sync_accounts_for_chunks_witness :
  0 < 2 /\ 0 < 4
  /\ (forall documents w0 items w',
         accept_all documents w0 = (Ok items, w') ->
         length items = length documents)
  /\ exists stats w' calls,
       run_full_sync always_ok always_ok always_ok fetch_worked_document
         parse_to_six_chunks (embed_chunks failing_on_second_batch 2)
         (SearchService.upload_documents accept_all 4) 0%nat
       = (stats, w', calls)
       /\ 0 <= chunks_uploaded stats /\ 0 <= failed_uploads stats
       /\ chunks_uploaded stats + failed_uploads stats <= chunks_embedded stats
       /\ chunks_embedded stats <= chunks_created stats
       /\ (success stats = true ->
           chunks_uploaded stats + failed_uploads stats
           = chunks_embedded stats)
       /\ (errors stats <> [] -> (length calls <= 5)%nat).
Proof.
  assert (Hitems : forall documents w0 items w',
             accept_all documents w0 = (Ok items, w') ->
             length items = length documents).
  { intros documents w0 items w' H. injection H as <- _.
    apply length_fmap. }
  split; [lia|]. split; [lia|]. split; [exact Hitems|].
  apply (run_full_sync_accounts_for_chunks always_ok always_ok always_ok
           fetch_worked_document parse_to_six_chunks failing_on_second_batch 2
           accept_all 4 0%nat); [lia | lia | exact Hitems].
Defined.

(** ** ChatService.generate_answer and missing keys *)

Lemma context_parts_first_missing_key (chunks : list (gmap string string)) :
  forall i : nat,
    match first_missing_key chunks with
    | Some key => context_parts i chunks = Raise ("'" +:+ key +:+ "'")
    | None => exists parts, context_parts i chunks = Ok parts
    end.
Proof.
  induction chunks as [|chunk rest IH]; intros i; cbn [first_missing_key context_parts].
  - now exists [].
  - unfold missing_key, context_part, dict_item.
    destruct (chunk !! "title"); [|reflexivity].
    destruct (chunk !! "author"); [|reflexivity].
    destruct (chunk !! "content"); [|reflexivity].
    specialize (IH (S i)). destruct (first_missing_key rest).
    + now rewrite IH.
    + destruct IH as [parts ->]. eauto.
Qed.

(** X15: [generate_answer] needs the keys "title", "author" and "content" in
    every retrieved chunk: when a chunk lacks one, it raises the [KeyError]
    of the first missing key of the first such chunk and the provider is not
    called (the world is unchanged); the context is built exactly when no
    chunk lacks one of the three keys. *)
Theorem generate_answer_key_error {World Temperature : Type}
  (completions_create :
     string -> string -> Temperature -> Z -> World -> result ChatResponse * World)
  (deployment_name question : string)
  (context_chunks : list (gmap string string)) (system_prompt : option string)
  (temperature : Temperature) (max_tokens : Z) (w : World) :
  (first_missing_key context_chunks = None
   <-> exists context, _build_context context_chunks = Ok context)
  /\ (forall key,
        first_missing_key context_chunks = Some key ->
        In key ["title"; "author"; "content"]
        /\ generate_answer completions_create deployment_name question
             context_chunks system_prompt temperature max_tokens w
           = (Raise ("'" +:+ key +:+ "'"), w)).
Proof.
  pose proof (context_parts_first_missing_key context_chunks 1) as Hparts.
  assert (Hkeys : forall key, first_missing_key context_chunks = Some key ->
                              In key ["title"; "author"; "content"]).
  { clear. induction context_chunks as [|chunk rest IH]; intros key;
      cbn [first_missing_key]; [discriminate|].
    unfold missing_key.
    destruct (chunk !! "title"); [|intros [= <-]; simpl; tauto].
    destruct (chunk !! "author"); [|intros [= <-]; simpl; tauto].
    destruct (chunk !! "content"); [|intros [= <-]; simpl; tauto].
    apply IH. }
  unfold generate_answer, _build_context.
  destruct context_chunks as [|chunk rest].
  { cbn. split; [|discriminate]. split; eauto. }
  cbn [list_truthy negb].
  destruct (first_missing_key (chunk :: rest)) as [missing|].
  - rewrite Hparts. split.
    + split; [discriminate | intros [context H]; discriminate].
    + intros key [= <-]. split; [now apply Hkeys | reflexivity].
  - destruct Hparts as [parts ->]. split; [|discriminate].
    split; eauto.
Qed.

(** ** RAGService.answer_question *)

Lemma _extract_sources_loop_length (chunks : list (gmap string string)) :
  forall sources seen_urls,
    (length (_extract_sources_loop chunks sources seen_urls)
     <= length sources + length chunks)%nat.
Proof.
  induction chunks as [|chunk rest IH]; intros srcs seen;
    cbn [_extract_sources_loop length]; [lia|].
  destruct (str_truthy _ && _).
  - etransitivity; [apply IH|]. rewrite length_app. simpl. lia.
  - etransitivity; [apply IH|]. lia.
Qed.

(** X16: every result of [answer_question] repeats the question and names
    at most as many sources as chunks were retrieved; the entries "model",
    "usage" and "search_type" are there exactly when something was
    retrieved, and when nothing was retrieved the answer is the fixed
    sentence, without sources, and the state of the world is the one the
    search left (the chat provider is not called). *)
Theorem answer_question_result {World Vector Temperature : Type}
  (embeddings_create : list string -> World -> result (list Vector) * World)
  (hybrid_search :
     string -> Vector -> Z -> option string -> World ->
     result (list (gmap string string)) * World)
  (vector_search :
     Vector -> Z -> option string -> World ->
     result (list (gmap string string)) * World)
  (completions_create :
     string -> string -> Temperature -> Z -> World -> result ChatResponse * World)
  (deployment_name : string) (top_k : Z) (temperature : Temperature)
  (max_tokens : Z) (question : string) (system_prompt filters : option string)
  (use_hybrid_search : bool) (w w' : World) (result : RAGResult.t) :
  RAGService.answer_question embeddings_create hybrid_search vector_search
    completions_create deployment_name top_k temperature max_tokens
    question system_prompt filters use_hybrid_search w = (Ok result, w') ->
  RAGResult.question result = question
  /\ 0 <= py_len (RAGResult.sources result) <= RAGResult.retrieved_chunks result
  /\ (RAGResult.retrieved_chunks result = 0 <-> RAGResult.model result = None)
  /\ (RAGResult.retrieved_chunks result = 0 ->
      result = RAGResult.Build
                 "I couldn't find any relevant information in the knowledge base to answer your question."
                 [] 0 question None None None
      /\ exists query_vector rest w1,
           generate_embeddings embeddings_create [question] w
           = (Ok (query_vector :: rest), w1)
           /\ (if use_hybrid_search
               then hybrid_search question query_vector top_k filters w1
               else vector_search query_vector top_k filters w1) = (Ok [], w'))
  /\ (0 < RAGResult.retrieved_chunks result ->
      RAGResult.model result = Some deployment_name
      /\ RAGResult.search_type result
         = Some (if use_hybrid_search then "hybrid" else "vector")
      /\ is_Some (RAGResult.usage result)).
Proof.
  unfold RAGService.answer_question.
  destruct (generate_embeddings embeddings_create [question] w)
    as [[[|query_vector rest]|e] w1]; try discriminate.
  destruct (if use_hybrid_search
            then hybrid_search question query_vector top_k filters w1
            else vector_search query_vector top_k filters w1)
    as [[chunks|e] w2] eqn:Hsearch; try discriminate.
  destruct chunks as [|chunk chunks]; cbn [list_truthy negb].
  - intros [= <- <-].
    cbn [RAGResult.question RAGResult.sources RAGResult.retrieved_chunks
           RAGResult.model RAGResult.usage RAGResult.search_type].
    change (py_len (@nil (gmap string string))) with 0.
    split; [reflexivity|]. split; [lia|].
    split; [tauto|]. split; [|lia].
    intros _. split; [reflexivity|]. eauto.
  - unfold generate_answer.
    destruct (_build_context (chunk :: chunks)) as [context|e]; [|discriminate].
    destruct (completions_create _ _ temperature max_tokens w2)
      as [[response|e] w3]; [|discriminate].
    intros [= <- <-]. cbn [RAGResult.question RAGResult.sources
                            RAGResult.retrieved_chunks RAGResult.model
                            RAGResult.usage RAGResult.search_type
                            sources model usage].
    pose proof (_extract_sources_loop_length (chunk :: chunks) [] ∅) as Hlen.
    unfold _extract_sources, py_len in *. cbn [length] in *.
    split; [reflexivity|]. split; [lia|].
    split; [split; [lia | discriminate]|]. split; [lia|].
    intros _. split; [reflexivity|]. split; [reflexivity|]. eauto.
Qed.

Lemma answer_question_result_witness :
  RAGService.answer_question embed_any hybrid_ABA vector_ABA
    canned_completions "gpt" 5 tt 1000 "What is A?" None None true tt
  = (Ok (RAGResult.Build "an answer" (_extract_sources retrieved_ABA) 3
           "What is A?" (Some "gpt") (Some (10, 20, 30)) (Some "hybrid")), tt)
  /\ RAGResult.retrieved_chunks
       (RAGResult.Build "an answer" (_extract_sources retrieved_ABA) 3
          "What is A?" (Some "gpt") (Some (10, 20, 30)) (Some "hybrid")) = 3
  /\ 0 <= py_len (_extract_sources retrieved_ABA) <= 3.
Proof.
  assert (H : RAGService.answer_question embed_any hybrid_ABA vector_ABA
                canned_completions "gpt" 5 tt 1000 "What is A?" None None
                true tt
              = (Ok (RAGResult.Build "an answer"
                       (_extract_sources retrieved_ABA) 3
                       "What is A?" (Some "gpt") (Some (10, 20, 30))
                       (Some "hybrid")), tt)) by reflexivity.
  split; [exact H|]. split; [reflexivity|].
  exact (proj1 (proj2 (answer_question_result embed_any hybrid_ABA vector_ABA
                         canned_completions "gpt" 5 tt 1000 "What is A?"
                         None None true tt tt _ H))).
Defined.

(** ** ConfluenceConnector: pagination *)

Section ConfluencePagination.

Context {World Page : Type}.
Variable session_get_content :
  string -> Z -> Z -> World ->
  result (ConfluenceConnector.Response Page) * World.
Variable is_request_exception : string -> bool.
Variable _parse_page : Page -> string -> result Document.t.
Variable page_get_id : Page -> result string.

Local Abbreviation request :=
  (ConfluenceConnector._make_request session_get_content is_request_exception).
Local Abbreviation fetch_loop :=
  (ConfluenceConnector._fetch_space_documents_loop session_get_content
     is_request_exception _parse_page page_get_id).
Local Abbreviation broken := (broken_page _parse_page page_get_id).

(** The loop over the results appends the documents of the pages in front of
    the first broken page, and raises exactly when there is a broken
    page. *)
Lemma parse_results_parsed (space_key : string) (pages : list Page) :
  forall documents,
    (ConfluenceConnector.parse_results _parse_page page_get_id pages
       space_key documents).1
    = documents
      ++ parsed_documents _parse_page space_key
           (until_broken _parse_page page_get_id space_key pages)
    /\ if existsb (broken space_key) pages
       then exists e,
              (ConfluenceConnector.parse_results _parse_page page_get_id
                 pages space_key documents).2 = Raise e
       else (ConfluenceConnector.parse_results _parse_page page_get_id
               pages space_key documents).2 = Ok tt.
Proof.
  unfold parsed_documents.
  induction pages as [|page rest IH]; intros documents;
    cbn [ConfluenceConnector.parse_results until_broken existsb].
  - cbn. now rewrite app_nil_r.
  - destruct (_parse_page page space_key) as [doc|e] eqn:Hparse.
    + assert (Hb : broken_page _parse_page page_get_id space_key page = false)
        by (unfold broken_page; now rewrite Hparse).
      rewrite Hb. cbn [orb omap list_omap]. rewrite Hparse.
      destruct (IH (documents ++ [doc])) as [Hdocs Hout].
      rewrite Hdocs, <- app_assoc. split; [reflexivity | exact Hout].
    + destruct (page_get_id page) as [id|e1] eqn:Hid.
      * assert (Hb : broken_page _parse_page page_get_id space_key page
                     = false)
          by (unfold broken_page; now rewrite Hparse, Hid).
        rewrite Hb. cbn [orb omap list_omap]. rewrite Hparse. apply IH.
      * assert (Hb : broken_page _parse_page page_get_id space_key page
                     = true)
          by (unfold broken_page; now rewrite Hparse, Hid).
        rewrite Hb. cbn [orb fst snd omap list_omap]. rewrite app_nil_r.
        split; [reflexivity | eauto].
Qed.




End ConfluencePagination.



(** X18: the loop of [_fetch_space_documents] has no bound of its own: when
    every answer has results, none of them broken, and a link to a next
    page, the call does not return, however many requests are made. *)
Theorem fetch_space_documents_endless {World Page : Type}
  (session_get_content :
     string -> Z -> Z -> World ->
     result (ConfluenceConnector.Response Page) * World)
  (is_request_exception : string -> bool)
  (_parse_page : Page -> string -> result Document.t)
  (page_get_id : Page -> result string)
  (space_key : string) :
  (forall start w0, exists answer w1,
      ConfluenceConnector._make_request session_get_content
        is_request_exception space_key start 50 w0
      = (Ok (ConfluenceConnector.BuildResponse answer true), w1)
      /\ list_truthy answer = true
      /\ existsb (broken_page _parse_page page_get_id space_key) answer
         = false) ->
  forall (fuel : nat) (w : World),
    ConfluenceConnector._fetch_space_documents session_get_content
      is_request_exception _parse_page page_get_id fuel space_key w = None.
Proof.
  intros Hanswers fuel. unfold ConfluenceConnector._fetch_space_documents.
  generalize (@nil Document.t) as documents. generalize 0 as start.
  induction fuel as [|fuel IH]; intros start documents w; [reflexivity|].
  cbn [ConfluenceConnector._fetch_space_documents_loop].
  destruct (Hanswers start w) as (answer & w1 & -> & Hanswer & Hsound).
  cbn [ConfluenceConnector.results ConfluenceConnector.has_next].
  rewrite Hanswer. cbn [negb].
  destruct (parse_results_parsed _parse_page page_get_id space_key answer
              documents) as [_ Hout].
  rewrite Hsound in Hout.
  destruct (ConfluenceConnector.parse_results _parse_page page_get_id answer
              space_key documents) as [parsed outcome].
  cbn [snd] in Hout. subst outcome. apply IH.
Qed.

Lemma fetch_space_documents_endless_witness :
  (forall start w0, exists answer w1,
      ConfluenceConnector._make_request endless (fun _ => true) "DOCS"
        start 50 w0
      = (Ok (ConfluenceConnector.BuildResponse answer true), w1)
      /\ list_truthy answer = true
      /\ existsb (broken_page parse_by_id id_of_page "DOCS") answer = false)
  /\ ConfluenceConnector._fetch_space_documents endless (fun _ => true)
       parse_by_id id_of_page 1000 "DOCS" 0%nat = None.
Proof.
  assert (H : forall start w0, exists answer w1,
             ConfluenceConnector._make_request endless (fun _ => true) "DOCS"
               start 50 w0
             = (Ok (ConfluenceConnector.BuildResponse answer true), w1)
             /\ list_truthy answer = true
             /\ existsb (broken_page parse_by_id id_of_page "DOCS") answer
                = false).
  { intros start w0. exists ["p1"], (S w0). repeat split; reflexivity. }
  split; [exact H|].
  exact (fetch_space_documents_endless endless (fun _ => true) parse_by_id
           id_of_page "DOCS" H 1000 0%nat).
Defined.


